(** * Sales analytics system: the validation, aggregation and enrichment core

    A shallow embedding of [utils/data_processor.py], of
    [create_product_mapping] from [utils/api_handler.py] and of
    [read_sales_data] from [utils/file_handler.py], followed by the
    properties of the specification that concern them and by further
    properties of the code.

    Conventions of the embedding:
    - a Python exception is a value [Raise e] of the result type [res];
    - a Python [float] is an IEEE 754 binary64 number, represented by
      [spec_float] with precision 53 and maximal exponent 1024, and every
      arithmetic operation is the correctly rounded one;
    - a Python [int] is a [Z];
    - a character is a code point below 256;
    - [print] calls and file output are not modelled; everything that can
      make the surrounding function raise is. *)

From Stdlib Require Import ZArith List String Ascii Bool Lia.
From Stdlib Require Import SpecFloat.
From Stdlib Require Import Sorted.
From Stdlib Require OrderedTypeEx.
From stdpp Require Import gmap strings.
Import ListNotations.

Local Open Scope string_scope.
Local Open Scope list_scope.
Local Open Scope Z_scope.

(** ** Exceptions *)

Inductive exn : Type :=
  | KeyError
  | TypeError
  | ZeroDivisionError
  | OverflowError.

Inductive res (A : Type) : Type :=
  | Ok (a : A)
  | Raise (e : exn).

Arguments Ok {A} a.
Arguments Raise {A} e.

Definition bind {A B : Type} (m : res A) (k : A -> res B) : res B :=
  match m with
  | Ok a => k a
  | Raise e => Raise e
  end.

Notation "'let*' x ':=' m 'in' k" := (bind m (fun x => k))
  (at level 10, x name, m at level 100, k at level 200).

(** [d[key]] on a dictionary whose entry for [key] may be missing. *)
Definition getitem {A : Type} (field : option A) : res A :=
  match field with
  | Some v => Ok v
  | None => Raise KeyError
  end.

(** A list comprehension [[x for x in l if p(x)]] whose condition may raise. *)
Fixpoint filter_res {A : Type} (p : A -> res bool) (l : list A) : res (list A) :=
  match l with
  | [] => Ok []
  | x :: l' =>
      let* b := p x in
      let* r := filter_res p l' in
      Ok (if b then x :: r else r)
  end.

(** A [for] loop whose body may raise, threading the loop state. *)
Fixpoint fold_res {A S : Type} (step : S -> A -> res S) (l : list A) (s : S) : res S :=
  match l with
  | [] => Ok s
  | x :: l' => let* s' := step s x in fold_res step l' s'
  end.

(** ** Floating-point numbers *)

Module Float.

Definition prec : Z := 53.
Definition emax : Z := 1024.
Definition emin : Z := SpecFloat.emin prec emax.

Definition float : Type := spec_float.

Definition zero : float := S754_zero false.
Definition nan : float := S754_nan.
Definition infinity : float := S754_infinity false.

Definition mul : float -> float -> float := SFmul prec emax.
Definition add : float -> float -> float := SFadd prec emax.
Definition ltb : float -> float -> bool := SFltb.
Definition leb : float -> float -> bool := SFleb.
Definition eqb : float -> float -> bool := SFeqb.

(** [float(n)] for an exact integer: nearest, ties to even. *)
Definition of_Z (n : Z) : float := binary_normalize prec emax n 0 false.

(** The conversion Python applies to an [int] operand of a float operation:
    it raises when the integer is beyond the largest finite float. *)
Definition of_int (n : Z) : res float :=
  match of_Z n with
  | S754_infinity _ => Raise OverflowError
  | f => Ok f
  end.

(** [x / y] on floats. *)
Definition div (x y : float) : res float :=
  if eqb y zero then Raise ZeroDivisionError else Ok (SFdiv prec emax x y).

(** The nearest float to the fraction [num / den] with sign [s], for
    [0 <= num]. *)
Definition of_fraction (s : bool) (num : Z) (den : positive) : float :=
  match num with
  | Zpos n => SFdiv prec emax (S754_finite s n 0) (S754_finite false den 0)
  | _ => S754_zero s
  end.

(** Every float a Python program holds is a canonical binary64 number. *)
Definition wf (x : float) : bool := valid_binary prec emax x.

End Float.

Abbreviation float := Float.float.

(** The binary magnitude of [m * 2^e], for a positive [m]. *)
Definition magnitude (m e : Z) : Z := Z.log2 m + 1 + e.

(** A float above zero, with an exponent in range when finite. *)
Definition positive_float (x : float) : Prop :=
  match x with
  | S754_finite false _ e => Float.emin <= e
  | S754_infinity false => True
  | _ => False
  end.

(** [q * p] for an [int] [q] and a [float] [p]. *)
Definition int_mul_float (q : Z) (p : float) : res float :=
  let* qf := Float.of_int q in Ok (Float.mul qf p).

(** ** Strings *)

(** [s.replace(c, "")] for a one-character string [c]. *)
Fixpoint remove_char (c : ascii) (s : string) : string :=
  match s with
  | EmptyString => EmptyString
  | String a s' =>
      if Ascii.eqb a c then remove_char c s' else String a (remove_char c s')
  end.

(** [s.split(sep)] for a one-character separator: never an empty list. *)
Fixpoint split (sep : ascii) (s : string) : list string :=
  match s with
  | EmptyString => [EmptyString]
  | String a s' =>
      if Ascii.eqb a sep then EmptyString :: split sep s'
      else match split sep s' with
           | field :: fields => String a field :: fields
           | [] => [String a EmptyString]
           end
  end.

Definition code_in (a : ascii) (lo hi : N) : bool :=
  let n := N_of_ascii a in ((lo <=? n) && (n <=? hi))%N.

(** [str.isspace] on one character, the white space [str.strip] removes. *)
Definition is_space (a : ascii) : bool :=
  code_in a 9 13 || code_in a 28 32 || code_in a 133 133 || code_in a 160 160.

(** The white space [int] and [float] accept around a number. *)
Definition is_numeric_space (a : ascii) : bool :=
  code_in a 9 13 || code_in a 32 32 || code_in a 133 133 || code_in a 160 160.

Definition is_digit (a : ascii) : bool := code_in a 48 57.

Definition digit_value (a : ascii) : Z := Z.of_N (N_of_ascii a) - 48.

Fixpoint lstrip (space : ascii -> bool) (s : string) : string :=
  match s with
  | String a s' => if space a then lstrip space s' else s
  | EmptyString => EmptyString
  end.

Fixpoint rstrip (space : ascii -> bool) (s : string) : string :=
  match s with
  | String a s' =>
      match rstrip space s' with
      | EmptyString => if space a then EmptyString else String a EmptyString
      | r => String a r
      end
  | EmptyString => EmptyString
  end.

(** [s.strip()] *)
Definition strip (s : string) : string := rstrip is_space (lstrip is_space s).

(** ** Numeric literals *)

(** Underscores in a numeric literal: each one must stand between two digits,
    and is then ignored.  [prev] is the character before [s]. *)
Fixpoint drop_underscores (prev : option ascii) (s : string) : option string :=
  match s with
  | EmptyString => Some EmptyString
  | String a s' =>
      if Ascii.eqb a "_" then
        match prev, s' with
        | Some p, String b _ =>
            if is_digit p && is_digit b then drop_underscores (Some a) s' else None
        | _, _ => None
        end
      else option_map (String a) (drop_underscores (Some a) s')
  end.

(** The text of a numeric literal: outer white space and underscores removed. *)
Definition literal (s : string) : option string :=
  drop_underscores None (rstrip is_numeric_space (lstrip is_numeric_space s)).

Definition signed (s : string) : bool * string :=
  match s with
  | String "+" r => (false, r)
  | String "-" r => (true, r)
  | _ => (false, s)
  end.

(** The leading decimal digits of [s]: their value after [acc], how many there
    are after [count], and the rest of [s]. *)
Fixpoint take_digits (s : string) (acc count : Z) : Z * Z * string :=
  match s with
  | String a s' =>
      if is_digit a then take_digits s' (10 * acc + digit_value a) (count + 1)
      else (acc, count, s)
  | EmptyString => (acc, count, s)
  end.

(** The interpreter's default limit on the number of digits [int] converts
    ([sys.get_int_max_str_digits()]). *)
Definition int_max_str_digits : Z := 4300.

(** [int(s)]: [None] stands for [ValueError]. *)
Definition py_int (s : string) : option Z :=
  match literal s with
  | None => None
  | Some t =>
      let '(neg, body) := signed t in
      match take_digits body 0 0 with
      | (n, count, EmptyString) =>
          if (0 <? count) && (count <=? int_max_str_digits)
          then Some (if neg then - n else n)
          else None
      | _ => None
      end
  end.

Definition lower (a : ascii) : ascii :=
  if code_in a 65 90 then ascii_of_N (N_of_ascii a + 32) else a.

Fixpoint lower_string (s : string) : string :=
  match s with
  | String a s' => String (lower a) (lower_string s')
  | EmptyString => EmptyString
  end.

(** The exponent part of a decimal literal, read to the end of the string. *)
Definition exponent (s : string) : option Z :=
  match s with
  | EmptyString => Some 0
  | String a r =>
      if Ascii.eqb (lower a) "e" then
        let '(neg, body) := signed r in
        match take_digits body 0 0 with
        | (n, count, EmptyString) =>
            if 0 <? count then Some (if neg then - n else n) else None
        | _ => None
        end
      else None
  end.

(** The float nearest to [±m * 10^ex]. *)
Definition decimal (neg : bool) (m ex : Z) : float :=
  if 0 <=? ex then Float.of_fraction neg (m * 10 ^ ex) 1
  else Float.of_fraction neg m (Z.to_pos (10 ^ (- ex))).

(** [float(s)]: [None] stands for [ValueError]. *)
Definition py_float (s : string) : option float :=
  match literal s with
  | None => None
  | Some t =>
      let '(neg, body) := signed t in
      let word := lower_string body in
      if String.eqb word "inf" || String.eqb word "infinity" then Some (S754_infinity neg)
      else if String.eqb word "nan" then Some S754_nan
      else
        let '(i, ni, r1) := take_digits body 0 0 in
        let '(m, nf, r2) :=
          match r1 with
          | String "." r => take_digits r i 0
          | _ => (i, 0, r1)
          end in
        if ni + nf =? 0 then None
        else match exponent r2 with
             | Some e => Some (decimal neg m (e - nf))
             | None => None
             end
  end.

(** ** round(x, 2) *)

(** The integer nearest to [n / d], ties to the even one, for [0 <= n]. *)
Definition round_half_even (n : Z) (d : Z) : Z :=
  let q := n / d in
  match 2 * (n mod d) ?= d with
  | Lt => q
  | Gt => q + 1
  | Eq => if Z.even q then q else q + 1
  end.

(** [round(x, 2)]: the exact value of [x] is rounded to hundredths, ties to
    even, and the float nearest to that decimal is returned; infinities and
    NaN round to themselves. *)
Definition round2 (x : float) : float :=
  match x with
  | S754_finite s m e =>
      let hundredths :=
        if 0 <=? e then Zpos m * 2 ^ e * 100
        else round_half_even (Zpos m * 100) (2 ^ (- e)) in
      Float.of_fraction s hundredths 100
  | _ => x
  end.

(** ** Transactions *)

(** A transaction is a dictionary with at most the eight fields below, each of
    the type [parse_transactions] gives it; [None] is a missing key. *)
Record transaction : Type := {
  TransactionID : option string;
  Date : option string;
  ProductID : option string;
  ProductName : option string;
  Quantity : option Z;
  UnitPrice : option float;
  CustomerID : option string;
  Region : option string
}.

(** [s.startswith(p)] *)
Definition startswith (s p : string) : bool := String.prefix p s.

(** [tx["Quantity"] * tx["UnitPrice"]] *)
Definition amount (tx : transaction) : res float :=
  let* q := getitem (Quantity tx) in
  let* p := getitem (UnitPrice tx) in
  int_mul_float q p.

(** A transaction with all eight fields. *)
Definition record (tid date pid name : string) (q : Z) (p : float) (cid region : string)
  : transaction :=
  {| TransactionID := Some tid; Date := Some date; ProductID := Some pid;
     ProductName := Some name; Quantity := Some q; UnitPrice := Some p;
     CustomerID := Some cid; Region := Some region |}.

Definition len {A : Type} (l : list A) : Z := Z.of_nat (length l).

(** ** Insertion-ordered dictionaries and sorting *)

(** A dictionary with string keys, in insertion order. *)
Definition dict (V : Type) : Type := list (string * V).

Fixpoint dict_get {V : Type} (d : dict V) (k : string) : option V :=
  match d with
  | [] => None
  | (k', v) :: d' => if String.eqb k' k then Some v else dict_get d' k
  end.

(** [if k not in d: d[k] = init] followed by [d[k] = f(d[k])]: an existing
    key keeps its position, a new key goes last. *)
Fixpoint dict_update {V : Type} (d : dict V) (k : string) (init : V) (f : V -> V) : dict V :=
  match d with
  | [] => [(k, f init)]
  | (k', v) :: d' =>
      if String.eqb k' k then (k', f v) :: d'
      else (k', v) :: dict_update d' k init f
  end.

(** Stable sorting: [before y x] says that [y] has to come before [x]. *)
Fixpoint insert_sorted {A : Type} (before : A -> A -> bool) (x : A) (l : list A) : list A :=
  match l with
  | [] => [x]
  | y :: l' => if before y x then y :: insert_sorted before x l' else x :: l
  end.

Definition stable_sort {A : Type} (before : A -> A -> bool) (l : list A) : list A :=
  fold_right (insert_sorted before) [] l.

(** [sorted(l, key=key)] and [sorted(l, key=key, reverse=True)] for a key
    compared by [lt].  For keys that [lt] orders totally, every stable sort
    returns this list; float keys that include NaN are not ordered totally,
    and the order Python leaves them in is not captured: the properties that
    state the order of what [region_wise_sales] and [customer_analysis]
    return are stated for totals that are not NaN. *)
Definition sorted_by {A K : Type} (lt : K -> K -> bool) (key : A -> K) (l : list A) : list A :=
  stable_sort (fun y x => lt (key y) (key x)) l.

Definition sorted_by_reverse {A K : Type} (lt : K -> K -> bool) (key : A -> K) (l : list A)
  : list A :=
  stable_sort (fun y x => lt (key x) (key y)) l.

(** [l[:n]] *)
Definition slice_to {A : Type} (n : Z) (l : list A) : list A :=
  if 0 <=? n then firstn (Z.to_nat n) l else firstn (Z.to_nat (len l + n)) l.

(** A [for] loop that builds a list from a body that may raise. *)
Fixpoint map_res {A B : Type} (f : A -> res B) (l : list A) : res (list B) :=
  match l with
  | [] => Ok []
  | x :: l' => let* y := f x in let* r := map_res f l' in Ok (y :: r)
  end.

(** ** parse_transactions *)

(** What a loop appends for a body that may [continue]. *)
Definition kept {A : Type} (o : option A) : list A :=
  match o with Some x => [x] | None => [] end.

(** The body of the loop of [parse_transactions]: [None] when the line is
    skipped by one of the two [continue] statements. *)
Definition parse_line (line : string) : option transaction :=
  let parts := split "|" line in
  match parts with
  | [transaction_id; date; product_id; product_name; quantity; unit_price;
     customer_id; region] =>
      let product_name := remove_char "," product_name in
      let quantity := remove_char "," quantity in
      let unit_price := remove_char "," unit_price in
      match py_int quantity with
      | None => None
      | Some quantity =>
          match py_float unit_price with
          | None => None
          | Some unit_price =>
              Some (record transaction_id date product_id product_name
                           quantity unit_price customer_id region)
          end
      end
  | _ => None
  end.

Definition parse_transactions (raw_lines : list string) : list transaction :=
  fold_left
    (fun transactions line =>
       match parse_line line with
       | Some transaction => transactions ++ [transaction]
       | None => transactions
       end)
    raw_lines [].

(** ** split_sales_data and clean_sales_data *)

Definition split_sales_data (lines : list string) : list (list string) :=
  fold_left
    (fun split_rows line =>
       let line := strip line in
       if String.eqb line "" then split_rows
       else if startswith line "TransactionID" then split_rows
       else split_rows ++ [split "|" line])
    lines [].

(** The body of the loop of [clean_sales_data]: [None] when the row is counted
    as invalid. *)
Definition clean_row (row : list string) : option transaction :=
  match row with
  | [transaction_id; date; product_id; product_name; quantity; unit_price;
     customer_id; region] =>
      if negb (startswith transaction_id "T") then None
      else if String.eqb customer_id "" || String.eqb region "" then None
      else
        let quantity := remove_char "," quantity in
        let unit_price := remove_char "," unit_price in
        match py_int quantity with
        | None => None
        | Some quantity =>
            match py_float unit_price with
            | None => None
            | Some unit_price =>
                if (quantity <=? 0) || Float.leb unit_price Float.zero then None
                else
                  let product_name := remove_char "," product_name in
                  Some (record transaction_id date product_id product_name
                               quantity unit_price customer_id region)
            end
        end
  | _ => None
  end.

Definition clean_sales_data (split_rows : list (list string)) : list transaction :=
  fold_left
    (fun valid_records row =>
       match clean_row row with
       | Some record => valid_records ++ [record]
       | None => valid_records
       end)
    split_rows [].

(** ** validate_and_filter *)

Inductive number : Type :=
  | NInt (z : Z)
  | NFloat (f : float).

(** [tx.get("Quantity", 0) * tx.get("UnitPrice", 0)] *)
Definition display_amount (tx : transaction) : res number :=
  let q := default 0 (Quantity tx) in
  match UnitPrice tx with
  | None => Ok (NInt (q * 0))
  | Some p => let* a := int_mul_float q p in Ok (NFloat a)
  end.

Definition has_region (tx : transaction) : bool :=
  match Region tx with Some _ => true | None => false end.

(** [sorted(available_regions)]: the set holds [None] for a transaction
    without a region, and [None] cannot be ordered against a string. *)
Definition sorted_regions (transactions : list transaction) : res unit :=
  if existsb (fun tx => negb (has_region tx)) transactions
     && existsb has_region transactions
  then Raise TypeError
  else Ok tt.

(** The first loop and the two [print] calls after it.  [min] and [max] of a
    list of numbers cannot raise. *)
Definition display (transactions : list transaction) : res unit :=
  let* _ := fold_res (fun acc tx => let* a := display_amount tx in Ok (acc ++ [a]))
                     transactions [] in
  sorted_regions transactions.

(** The body of the validation loop: [true] when [tx] is appended to
    [valid_transactions], [false] when [invalid_count] is incremented. *)
Definition passes_validation (tx : transaction) : bool :=
  match TransactionID tx, Date tx, ProductID tx, ProductName tx,
        Quantity tx, UnitPrice tx, CustomerID tx, Region tx with
  | Some tid, Some _, Some pid, Some _, Some q, Some p, Some cid, Some _ =>
      if (q <=? 0) || Float.leb p Float.zero then false
      else if negb (startswith tid "T") then false
      else if negb (startswith pid "P") then false
      else if negb (startswith cid "C") then false
      else true
  | _, _, _, _, _, _, _, _ => false
  end.

Definition validation_step (st : list transaction * Z) (tx : transaction)
  : list transaction * Z :=
  let '(valid_transactions, invalid_count) := st in
  if passes_validation tx
  then (valid_transactions ++ [tx], invalid_count)
  else (valid_transactions, invalid_count + 1).

Definition validation (transactions : list transaction) : list transaction * Z :=
  fold_left validation_step transactions ([], 0).

(** [if region:] *)
Definition truthy (region : option string) : bool :=
  match region with
  | None => false
  | Some s => negb (String.eqb s "")
  end.

(** [tx["Region"] == region] *)
Definition region_matches (region : option string) (tx : transaction) : res bool :=
  let* r := getitem (Region tx) in
  Ok (match region with Some s => String.eqb r s | None => false end).

Definition in_range (min_amount max_amount : option float) (tx : transaction) : res bool :=
  let* a := amount tx in
  if match min_amount with Some m => Float.ltb a m | None => false end then Ok false
  else if match max_amount with Some m => Float.ltb m a | None => false end then Ok false
  else Ok true.

Record filter_summary : Type := {
  total_input : Z;
  invalid : Z;
  filtered_by_region : Z;
  filtered_by_amount : Z;
  final_count : Z
}.

Definition region_filter (region : option string) (valid_transactions : list transaction)
  : res (list transaction * Z) :=
  if truthy region then
    let before := len valid_transactions in
    let* kept := filter_res (region_matches region) valid_transactions in
    Ok (kept, before - len kept)
  else Ok (valid_transactions, 0).

Definition amount_filter (min_amount max_amount : option float)
    (valid_transactions : list transaction) : res (list transaction * Z) :=
  match min_amount, max_amount with
  | None, None => Ok (valid_transactions, 0)
  | _, _ =>
      let before := len valid_transactions in
      let* kept := filter_res (in_range min_amount max_amount) valid_transactions in
      Ok (kept, before - len kept)
  end.

Definition validate_and_filter (transactions : list transaction)
    (region : option string) (min_amount max_amount : option float)
  : res (list transaction * Z * filter_summary) :=
  let total_input := len transactions in
  let* _ := display transactions in
  let '(valid_transactions, invalid_count) := validation transactions in
  let* by_region := region_filter region valid_transactions in
  let '(valid_transactions, filtered_by_region) := by_region in
  let* by_amount := amount_filter min_amount max_amount valid_transactions in
  let '(valid_transactions, filtered_by_amount) := by_amount in
  Ok (valid_transactions, invalid_count,
      {| total_input := total_input;
         invalid := invalid_count;
         filtered_by_region := filtered_by_region;
         filtered_by_amount := filtered_by_amount;
         final_count := len valid_transactions |}).

(** ** The aggregation functions *)

Definition calculate_total_revenue (transactions : list transaction) : res float :=
  fold_res
    (fun total_revenue tx => let* a := amount tx in Ok (Float.add total_revenue a))
    transactions Float.zero.

(** *** region_wise_sales *)

Module RegionStats.
(** [percentage] is the key the second pass adds. *)
Record t : Type := {
  total_sales : float;
  transaction_count : Z;
  percentage : option float
}.

Definition init : t :=
  {| total_sales := Float.zero; transaction_count := 0; percentage := None |}.

Definition add_sale (sale_amount : float) (s : t) : t :=
  {| total_sales := Float.add (total_sales s) sale_amount;
     transaction_count := transaction_count s + 1;
     percentage := percentage s |}.

Definition set_percentage (p : float) (s : t) : t :=
  {| total_sales := total_sales s;
     transaction_count := transaction_count s;
     percentage := Some p |}.
End RegionStats.

Definition hundred : float := Float.of_Z 100.

Definition region_first_pass (transactions : list transaction)
  : res (dict RegionStats.t * float) :=
  fold_res
    (fun st tx =>
       let '(region_data, total_sales_all_regions) := st in
       let* region := getitem (Region tx) in
       let* sale_amount := amount tx in
       Ok (dict_update region_data region RegionStats.init (RegionStats.add_sale sale_amount),
           Float.add total_sales_all_regions sale_amount))
    transactions ([], Float.zero).

Definition region_second_pass (region_data : dict RegionStats.t)
    (total_sales_all_regions : float) : res (dict RegionStats.t) :=
  map_res
    (fun entry : string * RegionStats.t =>
       let '(region, s) := entry in
       let* share := Float.div (RegionStats.total_sales s) total_sales_all_regions in
       let percentage := Float.mul share hundred in
       Ok (region, RegionStats.set_percentage (round2 percentage) s))
    region_data.

Definition region_wise_sales (transactions : list transaction) : res (dict RegionStats.t) :=
  let* first := region_first_pass transactions in
  let '(region_data, total_sales_all_regions) := first in
  let* region_data := region_second_pass region_data total_sales_all_regions in
  Ok (sorted_by_reverse Float.ltb (fun item => RegionStats.total_sales (snd item)) region_data).

(** *** top_selling_products and low_performing_products *)

Module ProductStats.
Record t : Type := {
  total_quantity : Z;
  total_revenue : float
}.

Definition init : t := {| total_quantity := 0; total_revenue := Float.zero |}.

Definition add_sale (quantity : Z) (revenue : float) (d : t) : t :=
  {| total_quantity := total_quantity d + quantity;
     total_revenue := Float.add (total_revenue d) revenue |}.

Definition tuple (item : string * t) : string * Z * float :=
  (fst item, total_quantity (snd item), total_revenue (snd item)).
End ProductStats.

Definition product_aggregate (transactions : list transaction) : res (dict ProductStats.t) :=
  fold_res
    (fun product_data tx =>
       let* product := getitem (ProductName tx) in
       let* quantity := getitem (Quantity tx) in
       let* revenue := amount tx in
       Ok (dict_update product_data product ProductStats.init
             (ProductStats.add_sale quantity revenue)))
    transactions [].

Definition top_selling_products (transactions : list transaction) (n : Z)
  : res (list (string * Z * float)) :=
  let* product_data := product_aggregate transactions in
  let product_list := List.map ProductStats.tuple product_data in
  let product_list := sorted_by_reverse Z.ltb (fun x => snd (fst x)) product_list in
  Ok (slice_to n product_list).

Definition low_performing_products (transactions : list transaction) (threshold : Z)
  : res (list (string * Z * float)) :=
  let* product_data := product_aggregate transactions in
  let low_products :=
    List.map ProductStats.tuple
      (List.filter (fun item => ProductStats.total_quantity (snd item) <? threshold)
                   product_data) in
  Ok (sorted_by Z.ltb (fun x => snd (fst x)) low_products).

(** *** customer_analysis *)

Module CustomerStats.
(** [products_bought] ends as the list Python makes of a set; the order of
    that list is the order of the set's hash table, so the set is kept.
    [avg_order_value] is the key the second loop adds. *)
Record t : Type := {
  total_spent : float;
  purchase_count : Z;
  products_bought : gset string;
  avg_order_value : option float
}.

Definition init : t :=
  {| total_spent := Float.zero; purchase_count := 0; products_bought := ∅;
     avg_order_value := None |}.

Definition add_purchase (a : float) (product : string) (c : t) : t :=
  {| total_spent := Float.add (total_spent c) a;
     purchase_count := purchase_count c + 1;
     products_bought := products_bought c ∪ {[ product ]};
     avg_order_value := avg_order_value c |}.

Definition set_average (v : float) (c : t) : t :=
  {| total_spent := total_spent c;
     purchase_count := purchase_count c;
     products_bought := products_bought c;
     avg_order_value := Some v |}.
End CustomerStats.

Definition customer_aggregate (transactions : list transaction) : res (dict CustomerStats.t) :=
  fold_res
    (fun customer_data tx =>
       let* customer_id := getitem (CustomerID tx) in
       let* a := amount tx in
       let* product := getitem (ProductName tx) in
       Ok (dict_update customer_data customer_id CustomerStats.init
             (CustomerStats.add_purchase a product)))
    transactions [].

Definition customer_analysis (transactions : list transaction) : res (dict CustomerStats.t) :=
  let* customer_data := customer_aggregate transactions in
  let* customer_data :=
    map_res
      (fun entry : string * CustomerStats.t =>
         let '(customer_id, c) := entry in
         let* count := Float.of_int (CustomerStats.purchase_count c) in
         let* average := Float.div (CustomerStats.total_spent c) count in
         Ok (customer_id, CustomerStats.set_average (round2 average) c))
      customer_data in
  Ok (sorted_by_reverse Float.ltb (fun item => CustomerStats.total_spent (snd item))
                        customer_data).

(** *** daily_sales_trend *)

Module DailyData.
Record t : Type := {
  revenue : float;
  transaction_count : Z;
  customers : gset string
}.

Definition init : t := {| revenue := Float.zero; transaction_count := 0; customers := ∅ |}.

Definition add_sale (a : float) (customer : string) (d : t) : t :=
  {| revenue := Float.add (revenue d) a;
     transaction_count := transaction_count d + 1;
     customers := customers d ∪ {[ customer ]} |}.
End DailyData.

Module DailyStats.
Record t : Type := {
  revenue : float;
  transaction_count : Z;
  unique_customers : Z
}.
End DailyStats.

Definition daily_aggregate (transactions : list transaction) : res (dict DailyData.t) :=
  fold_res
    (fun daily_data tx =>
       let* date := getitem (Date tx) in
       let* a := amount tx in
       let* customer := getitem (CustomerID tx) in
       Ok (dict_update daily_data date DailyData.init (DailyData.add_sale a customer)))
    transactions [].

Definition daily_sales_trend (transactions : list transaction) : res (dict DailyStats.t) :=
  let* daily_data := daily_aggregate transactions in
  Ok (List.map
        (fun entry : string * DailyData.t =>
           (fst entry,
            {| DailyStats.revenue := DailyData.revenue (snd entry);
               DailyStats.transaction_count := DailyData.transaction_count (snd entry);
               DailyStats.unique_customers :=
                 Z.of_nat (size (DailyData.customers (snd entry))) |}))
        (sorted_by String.ltb fst daily_data)).

(** *** find_peak_sales_day *)

Module DayTotals.
Record t : Type := {
  revenue : float;
  transaction_count : Z
}.

Definition init : t := {| revenue := Float.zero; transaction_count := 0 |}.

Definition add_sale (a : float) (d : t) : t :=
  {| revenue := Float.add (revenue d) a;
     transaction_count := transaction_count d + 1 |}.
End DayTotals.

(** The first loop of [find_peak_sales_day]. *)
Definition daily_totals (transactions : list transaction) : res (dict DayTotals.t) :=
  fold_res
    (fun daily_totals tx =>
       let* date := getitem (Date tx) in
       let* a := amount tx in
       Ok (dict_update daily_totals date DayTotals.init (DayTotals.add_sale a)))
    transactions [].

(** The body of the second loop of [find_peak_sales_day]. *)
Definition peak_step (peak : option string * float * Z) (item : string * DayTotals.t)
  : option string * float * Z :=
  let '(peak_date, peak_revenue, peak_tx_count) := peak in
  let '(date, stats) := item in
  if Float.ltb peak_revenue (DayTotals.revenue stats)
  then (Some date, DayTotals.revenue stats, DayTotals.transaction_count stats)
  else (peak_date, peak_revenue, peak_tx_count).

Definition find_peak_sales_day (transactions : list transaction)
  : res (option string * float * Z) :=
  let* daily_totals := daily_totals transactions in
  Ok (fold_left peak_step daily_totals (None, Float.zero, 0)).

(** ** The catalog and the enrichment join *)

(** A value of the catalog service: JSON null, a boolean, a number or a string. *)
Inductive value : Type :=
  | VNone
  | VBool (b : bool)
  | VInt (z : Z)
  | VFloat (f : float)
  | VStr (s : string).

(** A product as [fetch_all_products] returns it; a missing attribute is
    [VNone], and the identifier is an integer. *)
Module CatalogEntry.
Record t : Type := {
  id : Z;
  title : value;
  category : value;
  brand : value;
  price : value;
  rating : value
}.
End CatalogEntry.

(** A value of the product mapping. *)
Module ProductInfo.
Record t : Type := {
  title : value;
  category : value;
  brand : value;
  rating : value
}.
End ProductInfo.

Definition create_product_mapping (api_products : list CatalogEntry.t)
  : gmap Z ProductInfo.t :=
  fold_left
    (fun product_mapping product =>
       let product_id := CatalogEntry.id product in
       <[ product_id := {| ProductInfo.title := CatalogEntry.title product;
                           ProductInfo.category := CatalogEntry.category product;
                           ProductInfo.brand := CatalogEntry.brand product;
                           ProductInfo.rating := CatalogEntry.rating product |} ]>
         product_mapping)
    api_products ∅.

(** The copy of a transaction with the four enrichment fields. *)
Record enriched_transaction : Type := {
  copied : transaction;
  API_Category : value;
  API_Brand : value;
  API_Rating : value;
  API_Match : bool
}.

(** [int(product_id_str.replace('P', ''))], [None] after [ValueError]. *)
Definition numeric_id (tx : transaction) : option Z :=
  let product_id_str := default "" (ProductID tx) in
  py_int (remove_char "P" product_id_str).

Definition matched (tx : transaction) (api_product : ProductInfo.t) : enriched_transaction :=
  {| copied := tx;
     API_Category := ProductInfo.category api_product;
     API_Brand := ProductInfo.brand api_product;
     API_Rating := ProductInfo.rating api_product;
     API_Match := true |}.

Definition unmatched (tx : transaction) : enriched_transaction :=
  {| copied := tx;
     API_Category := VNone;
     API_Brand := VNone;
     API_Rating := VNone;
     API_Match := false |}.

(** The body of the loop of [enrich_sales_data]. *)
Definition enrich (product_mapping : gmap Z ProductInfo.t) (tx : transaction)
  : enriched_transaction :=
  match numeric_id tx with
  | Some n =>
      if negb (n =? 0) then
        match product_mapping !! n with
        | Some api_product => matched tx api_product
        | None => unmatched tx
        end
      else unmatched tx
  | None => unmatched tx
  end.

(** [save_enriched_data] only writes a file and catches what it raises. *)
Definition enrich_sales_data (transactions : list transaction)
    (product_mapping : gmap Z ProductInfo.t) : list enriched_transaction :=
  fold_left
    (fun enriched_transactions tx => enriched_transactions ++ [enrich product_mapping tx])
    transactions [].

(** ** The statements of the specification *)

Definition field_holds {A : Type} (field : option A) (P : A -> Prop) : Prop :=
  exists v, field = Some v /\ P v.

Definition all_fields_present (tx : transaction) : Prop :=
  is_Some (TransactionID tx) /\ is_Some (Date tx) /\ is_Some (ProductID tx)
  /\ is_Some (ProductName tx) /\ is_Some (Quantity tx) /\ is_Some (UnitPrice tx)
  /\ is_Some (CustomerID tx) /\ is_Some (Region tx).

(** The rules the validation loop enforces. *)
Definition enforced_rules (tx : transaction) : Prop :=
  all_fields_present tx
  /\ field_holds (Quantity tx) (fun q => 0 < q)
  /\ field_holds (UnitPrice tx) (fun p => Float.leb p Float.zero = false)
  /\ field_holds (TransactionID tx) (fun s => startswith s "T" = true)
  /\ field_holds (ProductID tx) (fun s => startswith s "P" = true)
  /\ field_holds (CustomerID tx) (fun s => startswith s "C" = true).

(** The rules as the specification lists them for a valid record. *)
Definition specified_rules (tx : transaction) : Prop :=
  all_fields_present tx
  /\ field_holds (Quantity tx) (fun q => 0 < q)
  /\ field_holds (UnitPrice tx) (fun p => Float.ltb Float.zero p = true)
  /\ field_holds (TransactionID tx) (fun s => startswith s "T" = true)
  /\ field_holds (ProductID tx) (fun s => startswith s "P" = true)
  /\ field_holds (CustomerID tx) (fun s => startswith s "C" = true)
  /\ field_holds (Region tx) (fun r => r <> "").

(** The catalog key as the specification derives it: the prefix ["P"] is
    stripped and the remainder parsed. *)
Definition strip_prefix_P (s : string) : string :=
  match s with
  | String "P" rest => rest
  | _ => s
  end.

Definition specified_key (tx : transaction) : option Z :=
  py_int (strip_prefix_P (default "" (ProductID tx))).

(** The join as the specification states it, for the enriched record [e] of
    [tx]: a hit when the specified key is in the mapping, a miss otherwise. *)
Definition specified_join (tx : transaction) (m : gmap Z ProductInfo.t)
    (e : enriched_transaction) : Prop :=
  match specified_key tx with
  | Some k =>
      match m !! k with
      | Some api_product => e = matched tx api_product
      | None => e = unmatched tx
      end
  | None => e = unmatched tx
  end.

(** The transactions of one date. *)
Definition on_date (date : string) (transactions : list transaction) : list transaction :=
  List.filter
    (fun tx => match Date tx with Some d => String.eqb d date | None => false end)
    transactions.

(** *** Per-date totals, for the statement about the peak day *)

Definition keys {V : Type} (d : dict V) : list string := List.map fst d.

(** The date and the amount of a transaction. *)
Definition dated_amount (tx : transaction) : res (string * float) :=
  let* date := getitem (Date tx) in
  let* a := amount tx in
  Ok (date, a).

(** The first loop of [find_peak_sales_day] on dates and amounts. *)
Definition group_by_date (items : list (string * float)) : dict DayTotals.t :=
  fold_left
    (fun totals item =>
       dict_update totals (fst item) DayTotals.init (DayTotals.add_sale (snd item)))
    items [].

Definition of_date (date : string) (items : list (string * float)) : list (string * float) :=
  List.filter (fun item => String.eqb (fst item) date) items.

Definition sum_floats (l : list float) : float := fold_left Float.add l Float.zero.

(** [d] has a transaction before the first transaction of [date]. *)
Definition seen_before (d date : string) (transactions : list transaction) : Prop :=
  exists before rest,
    transactions = before ++ rest
    /\ In (Some d) (List.map Date before)
    /\ ~ In (Some date) (List.map Date before).

(** The first loop of [validate_and_filter] gets past [tx]. *)
Definition amount_defined (tx : transaction) : Prop :=
  exists a, display_amount tx = Ok a.

(** The amount of [tx] can be computed: its quantity converts to a float. *)
Definition has_amount (tx : transaction) : Prop := exists a, amount tx = Ok a.

(** The unit price of [tx] is a float as Python holds them. *)
Definition price_well_formed (tx : transaction) : Prop :=
  field_holds (UnitPrice tx) (fun p => Float.wf p = true).

Definition day_revenue (item : string * DayTotals.t) : float := DayTotals.revenue (snd item).

(** *** Sample data *)

Definition blank_region_record : transaction :=
  record "T001" "2024-12-01" "P101" "Laptop" 2 (Float.of_Z 45000) "C001" "".

Definition nan_price_record : transaction :=
  record "T002" "2024-12-01" "P102" "Mouse" 1 Float.nan "C002" "North".

Definition laptop_record : transaction :=
  record "T001" "2024-12-01" "P101" "Laptop" 2 (Float.of_Z 45000) "C001" "North".

Definition mouse_record : transaction :=
  record "T002" "2024-12-02" "P999" "Mouse" 10 (Float.of_Z 500) "C002" "South".

Definition keyboard_record : transaction :=
  record "T003" "2024-12-02" "P102" "Keyboard" 5 (Float.of_Z 17000) "C001" "North".

Definition zero_key_record : transaction :=
  record "T010" "2024-12-03" "P0" "Cable" 1 (Float.of_Z 250) "C004" "East".

Definition double_prefix_record : transaction :=
  record "T011" "2024-12-03" "P1P2" "Cable" 1 (Float.of_Z 250) "C004" "East".

Definition zero_quantity_record : transaction :=
  record "T004" "2024-12-03" "P103" "Monitor" 0 (Float.of_Z 12000) "C003" "North".

Definition sample_batch : list transaction :=
  [laptop_record; mouse_record; keyboard_record; nan_price_record;
   blank_region_record; zero_quantity_record].

Definition acme_info : ProductInfo.t :=
  {| ProductInfo.title := VStr "Laptop 15"; ProductInfo.category := VStr "electronics";
     ProductInfo.brand := VStr "Acme";
     ProductInfo.rating := VFloat (Float.of_fraction false 45 10) |}.

Definition acme_product (n : Z) : CatalogEntry.t :=
  {| CatalogEntry.id := n; CatalogEntry.title := VStr "Laptop 15";
     CatalogEntry.category := VStr "electronics"; CatalogEntry.brand := VStr "Acme";
     CatalogEntry.price := VInt 45000;
     CatalogEntry.rating := VFloat (Float.of_fraction false 45 10) |}.

Definition header_like_line : string :=
  "TransactionID|2024-12-01|P101|Laptop|2|45000|C001|North".

Definition zero_quantity_line : string :=
  "T001|2024-12-01|P101|Laptop|0|45000|C001|North".

(** ** Further definitions *)

(** ** Further statements about the code *)

(** The sum of a measure over the values of a dictionary. *)
Definition dict_sum {V : Type} (measure : V -> Z) (d : dict V) : Z :=
  fold_right (fun entry acc => measure (snd entry) + acc) 0 d.

(** A loop of dictionary updates, on the items its body reads. *)
Definition grouped {I V : Type} (key : I -> string) (init : V) (upd : I -> V -> V)
    (items : list I) (d : dict V) : dict V :=
  fold_left (fun acc item => dict_update acc (key item) init (upd item)) items d.

(** The items of one key. *)
Definition of_key {I : Type} (key : I -> string) (k : string) (items : list I) : list I :=
  List.filter (fun item => String.eqb (key item) k) items.

(** The region stage keeps [tx]. *)
Definition region_kept (region : option string) (tx : transaction) : bool :=
  if truthy region then
    match Region tx, region with
    | Some r, Some s => String.eqb r s
    | _, _ => false
    end
  else true.

(** The amount stage keeps [tx]. *)
Definition amount_kept (min_amount max_amount : option float) (tx : transaction) : bool :=
  match min_amount, max_amount with
  | None, None => true
  | _, _ =>
      match amount tx with
      | Ok a =>
          negb (match min_amount with Some m => Float.ltb a m | None => false end)
          && negb (match max_amount with Some m => Float.ltb m a | None => false end)
      | Raise _ => false
      end
  end.

Definition no_region_record : transaction :=
  {| TransactionID := Some "T020"; Date := Some "2024-12-04"; ProductID := Some "P104";
     ProductName := Some "Dock"; Quantity := Some 1; UnitPrice := Some (Float.of_Z 9000);
     CustomerID := Some "C005"; Region := None |}.

(** *** read_sales_data *)

(** The loop of [read_sales_data] over the lines read from the file. *)
Definition cleaned_lines (lines : list string) : list string :=
  fold_left
    (fun cleaned_lines line =>
       let line := strip line in
       if String.eqb line "" then cleaned_lines
       else if startswith line "TransactionID" then cleaned_lines
       else cleaned_lines ++ [line])
    lines [].

(** What opening and reading the file under one encoding gives, as far as
    [read_sales_data] handles it; any other error leaves the function. *)
Inductive read_attempt : Type :=
  | ReadLines (lines : list string)
  | UnicodeDecodeError
  | FileNotFoundError.

(** The loop of [read_sales_data] over the encodings, on the outcome of each
    attempt: the first one that decodes is cleaned and returned, a decoding
    error moves on to the next encoding, a missing file and the end of the
    encodings give the empty list. *)
Fixpoint read_attempts (attempts : list read_attempt) : list string :=
  match attempts with
  | [] => []
  | ReadLines lines :: _ => cleaned_lines lines
  | UnicodeDecodeError :: rest => read_attempts rest
  | FileNotFoundError :: _ => []
  end.

Definition encodings : list string := ["utf-8"; "latin-1"; "cp1252"].

Definition read_sales_data (readlines : string -> read_attempt) : list string :=
  read_attempts (List.map readlines encodings).

(** A line as [read_sales_data] returns them. *)
Definition clean_line (line : string) : Prop :=
  strip line = line /\ line <> "" /\ startswith line "TransactionID" = false.

Definition sample_file (encoding : string) : read_attempt :=
  if String.eqb encoding "utf-8" then UnicodeDecodeError
  else ReadLines ["TransactionID|Date|ProductID|ProductName|Quantity|UnitPrice|CustomerID|Region";
                  "  T001|2024-12-01|P101|Laptop|2|45000|C001|North  ";
                  "";
                  "T002|2024-12-02|P999|Mouse, Wireless|1,0|500|C002|South"].

(** The checks of [clean_sales_data] on the fields of a row, read on the
    record that is built from them. *)
Definition legacy_rules (tx : transaction) : bool :=
  match TransactionID tx, Quantity tx, UnitPrice tx, CustomerID tx, Region tx with
  | Some tid, Some q, Some p, Some cid, Some region =>
      startswith tid "T"
      && negb (String.eqb cid "" || String.eqb region "")
      && negb ((q <=? 0) || Float.leb p Float.zero)
  | _, _, _, _, _ => false
  end.

Definition sample_lines : list string :=
  ["TransactionID|Date|ProductID|ProductName|Quantity|UnitPrice|CustomerID|Region";
   "  T001|2024-12-01|P101|Laptop|2|45000|C001|North  ";
   "";
   "T002|2024-12-02|P999|Mouse, Wireless|1,0|500|C002|South";
   "T003|2024-12-02|P102|Cable|0|100|C003|East";
   "T004|2024-12-03|X102|Stand|1|100|C003|"].

(** *** What the aggregations read of a transaction *)

(** The transactions whose [field] holds [k]. *)
Definition with_field (field : transaction -> option string) (k : string)
    (transactions : list transaction) : list transaction :=
  List.filter
    (fun tx => match field tx with Some x => String.eqb x k | None => false end)
    transactions.

Definition sum_Z (l : list Z) : Z := fold_right Z.add 0 l.

(** What one pass of the loop of [region_wise_sales] reads. *)
Definition region_item (tx : transaction) : res (string * float) :=
  let* region := getitem (Region tx) in
  let* sale_amount := amount tx in
  Ok (region, sale_amount).

(** What one pass of the loop of [top_selling_products] and of
    [low_performing_products] reads. *)
Definition product_item (tx : transaction) : res (string * (Z * float)) :=
  let* product := getitem (ProductName tx) in
  let* quantity := getitem (Quantity tx) in
  let* revenue := amount tx in
  Ok (product, (quantity, revenue)).

(** What one pass of the loop of [customer_analysis] reads. *)
Definition customer_item (tx : transaction) : res (string * (float * string)) :=
  let* customer_id := getitem (CustomerID tx) in
  let* a := amount tx in
  let* product := getitem (ProductName tx) in
  Ok (customer_id, (a, product)).

(** What one pass of the loop of [daily_sales_trend] reads. *)
Definition daily_item (tx : transaction) : res (string * (float * string)) :=
  let* date := getitem (Date tx) in
  let* a := amount tx in
  let* customer := getitem (CustomerID tx) in
  Ok (date, (a, customer)).

(** The units sold of a product. *)
Definition product_quantity (product : string) (transactions : list transaction) : Z :=
  sum_Z (List.map (fun tx => default 0 (Quantity tx))
                  (with_field ProductName product transactions)).

Definition product_name (entry : string * Z * float) : string := fst (fst entry).
Definition product_units (entry : string * Z * float) : Z := snd (fst entry).

Definition no_customer_record : transaction :=
  {| TransactionID := Some "T030"; Date := Some "2024-12-05"; ProductID := Some "P105";
     ProductName := Some "Hub"; Quantity := Some 1; UnitPrice := Some (Float.of_Z 700);
     CustomerID := None; Region := Some "West" |}.

(** What the second loop of [customer_analysis] does to an entry. *)
Definition with_average (entry entry' : string * CustomerStats.t) : Prop :=
  fst entry' = fst entry
  /\ exists count average,
       Float.of_int (CustomerStats.purchase_count (snd entry)) = Ok count
       /\ Float.div (CustomerStats.total_spent (snd entry)) count = Ok average
       /\ snd entry' = CustomerStats.set_average (round2 average) (snd entry).


(** What the second loop of [region_wise_sales] does to an entry, for the
    total of all regions. *)
Definition with_percentage (total : float) (entry entry' : string * RegionStats.t) : Prop :=
  fst entry' = fst entry
  /\ exists share,
       Float.div (RegionStats.total_sales (snd entry)) total = Ok share
       /\ snd entry' = RegionStats.set_percentage (round2 (Float.mul share hundred))
                         (snd entry).

(** The value [create_product_mapping] stores for a product. *)
Definition product_info (product : CatalogEntry.t) : ProductInfo.t :=
  {| ProductInfo.title := CatalogEntry.title product;
     ProductInfo.category := CatalogEntry.category product;
     ProductInfo.brand := CatalogEntry.brand product;
     ProductInfo.rating := CatalogEntry.rating product |}.

(** The last product of the catalog with identifier [k]. *)
Definition last_with_id (k : Z) (api_products : list CatalogEntry.t) : option CatalogEntry.t :=
  List.find (fun product => CatalogEntry.id product =? k) (rev api_products).

(** How often [c] occurs in [s]. *)
Fixpoint count_char (c : ascii) (s : string) : nat :=
  match s with
  | EmptyString => 0%nat
  | String a s' => if Ascii.eqb a c then S (count_char c s') else count_char c s'
  end.

(** A float above zero, or NaN: the amount of a record that passed
    validation, whose price is not [<= 0]. *)
Definition positive_or_nan (x : float) : Prop := positive_float x \/ x = Float.nan.

(** The header line of the sales file. *)
Definition header_line : string :=
  "TransactionID|Date|ProductID|ProductName|Quantity|UnitPrice|CustomerID|Region".

(** A line that does not split into eight fields, or whose quantity or
    unit price is not a number once the commas are removed. *)
Definition not_a_row (line : string) : Prop :=
  length (split "|" line) <> 8%nat
  \/ py_int (remove_char "," (nth 4 (split "|" line) "")) = None
  \/ py_float (remove_char "," (nth 5 (split "|" line) "")) = None.


(** * Properties *)
(** ** Properties of validate_and_filter *)

Lemma bind_Ok {A B : Type} (m : res A) (k : A -> res B) (b : B) :
  bind m k = Ok b -> exists a, m = Ok a /\ k a = Ok b.
Proof. destruct m as [a|e]; simpl; intros H; [eauto | discriminate]. Qed.

Ltac bind_inv H :=
  let a := fresh "a" in
  let Ha := fresh "Ha" in
  apply bind_Ok in H; destruct H as (a & Ha & H).

Section FilterRes.
Context {A : Type} (p : A -> res bool).

Lemma filter_res_kept (l r : list A) :
  filter_res p l = Ok r -> Forall (fun x => p x = Ok true) r /\ incl r l.
Proof.
  revert r; induction l as [|x l IH]; simpl; intros r H.
  - inversion H; subst. split; [constructor | apply incl_refl].
  - bind_inv H. bind_inv H. inversion H; subst; clear H.
    destruct (IH _ Ha0) as [IH1 IH2].
    destruct a.
    + split; [constructor; assumption|].
      intros y [->|Hy]; [left; reflexivity | right; apply IH2, Hy].
    + split; [assumption|]. intros y Hy; right; apply IH2, Hy.
Qed.

Lemma filter_res_all (l : list A) :
  Forall (fun x => p x = Ok true) l -> filter_res p l = Ok l.
Proof.
  induction 1 as [|x l Hx _ IH]; simpl; [reflexivity|].
  rewrite Hx, IH; reflexivity.
Qed.

Lemma filter_res_idempotent (l r : list A) :
  filter_res p l = Ok r -> filter_res p r = Ok r.
Proof. intros H. apply filter_res_all, (filter_res_kept l r H). Qed.

Lemma filter_res_pure (f : A -> bool) (l : list A) :
  Forall (fun x => p x = Ok (f x)) l -> filter_res p l = Ok (List.filter f l).
Proof.
  induction 1 as [|x l Hx _ IH]; simpl; [reflexivity|].
  rewrite Hx, IH; simpl. destruct (f x); reflexivity.
Qed.
End FilterRes.

Lemma validation_fold (l v : list transaction) (i : Z) :
  fold_left validation_step l (v, i)
  = (v ++ List.filter passes_validation l,
     i + len (List.filter (fun tx => negb (passes_validation tx)) l)).
Proof.
  revert v i; induction l as [|tx l IH]; intros v i.
  - simpl. rewrite app_nil_r. f_equal. unfold len; simpl; lia.
  - cbn [fold_left List.filter]. unfold validation_step at 2.
    destruct (passes_validation tx); rewrite IH; cbn [negb].
    + rewrite <- app_assoc. reflexivity.
    + f_equal. unfold len; simpl length. lia.
Qed.

Lemma validation_eq (l : list transaction) :
  validation l
  = (List.filter passes_validation l,
     len (List.filter (fun tx => negb (passes_validation tx)) l)).
Proof. unfold validation. rewrite validation_fold. reflexivity. Qed.

Lemma validation_total (l : list transaction) :
  snd (validation l) + len (fst (validation l)) = len l.
Proof.
  rewrite validation_eq; simpl. unfold len.
  induction l as [|tx l IH]; simpl; [reflexivity|].
  destruct (passes_validation tx); simpl length; lia.
Qed.

Lemma filter_res_total {A : Type} (p : A -> res bool) (l : list A) :
  Forall (fun x => exists b, p x = Ok b) l -> exists r, filter_res p l = Ok r.
Proof.
  induction 1 as [|x l [b Hb] _ [r IH]]; simpl; [eauto|].
  rewrite Hb, IH; simpl; eauto.
Qed.

Lemma passes_validation_fields (tx : transaction) :
  passes_validation tx = true ->
  exists q p r, Quantity tx = Some q /\ UnitPrice tx = Some p /\ Region tx = Some r.
Proof.
  unfold passes_validation.
  destruct (TransactionID tx), (Date tx), (ProductID tx), (ProductName tx),
    (Quantity tx), (UnitPrice tx), (CustomerID tx), (Region tx);
    try discriminate; eauto 7.
Qed.

Lemma display_loop_ok (l : list transaction) (acc r : list number) :
  fold_res (fun acc tx => let* a := display_amount tx in Ok (acc ++ [a])) l acc = Ok r ->
  Forall amount_defined l.
Proof.
  revert acc; induction l as [|tx l IH]; intros acc H; [constructor|].
  simpl in H. bind_inv H. bind_inv Ha. constructor; [eexists; eassumption|].
  inversion Ha; subst. eapply IH, H.
Qed.

Lemma display_loop_total (l : list transaction) (acc : list number) :
  Forall amount_defined l ->
  exists r, fold_res (fun acc tx => let* a := display_amount tx in Ok (acc ++ [a])) l acc = Ok r.
Proof.
  intros H; revert acc; induction H as [|tx l [a Ha] _ IH]; intros acc; simpl; [eauto|].
  rewrite Ha; simpl. apply IH.
Qed.

Lemma display_Ok (l : list transaction) :
  display l = Ok tt <-> Forall amount_defined l /\ sorted_regions l = Ok tt.
Proof.
  unfold display; split.
  - intros H. bind_inv H. split; [eapply display_loop_ok; eassumption | assumption].
  - intros [H1 H2]. destruct (display_loop_total l [] H1) as [r ->]. exact H2.
Qed.

Lemma sorted_regions_all (l : list transaction) :
  Forall (fun tx => has_region tx = true) l -> sorted_regions l = Ok tt.
Proof.
  intros H. unfold sorted_regions.
  replace (existsb (fun tx => negb (has_region tx)) l) with false; [reflexivity|].
  symmetry. induction H as [|tx l Htx _ IH]; simpl; [reflexivity|].
  rewrite Htx, IH; reflexivity.
Qed.

Lemma amount_of_display (tx : transaction) :
  passes_validation tx = true -> amount_defined tx -> exists a, amount tx = Ok a.
Proof.
  intros Hv [a Ha]. destruct (passes_validation_fields tx Hv) as (q & p & r & Hq & Hp & _).
  unfold display_amount in Ha. unfold amount. rewrite Hq, Hp in *. simpl in *.
  destruct (int_mul_float q p); [eauto | discriminate].
Qed.

Lemma in_range_total (mn mx : option float) (tx : transaction) :
  (exists a, amount tx = Ok a) -> exists b, in_range mn mx tx = Ok b.
Proof.
  intros [a Ha]. unfold in_range. rewrite Ha; simpl.
  destruct (match mn with Some m => Float.ltb a m | None => false end); [eauto|].
  destruct (match mx with Some m => Float.ltb m a | None => false end); eauto.
Qed.

Lemma region_matches_total (region : option string) (tx : transaction) :
  has_region tx = true -> exists b, region_matches region tx = Ok b.
Proof.
  unfold has_region, region_matches. destruct (Region tx); [simpl; eauto | discriminate].
Qed.

Lemma filter_passes_Forall (l : list transaction) :
  Forall (fun tx => passes_validation tx = true) (List.filter passes_validation l).
Proof. apply List.Forall_forall. intros tx Hin. apply List.filter_In in Hin. tauto. Qed.

Lemma filter_passes_incl (l : list transaction) :
  incl (List.filter passes_validation l) l.
Proof. intros tx Hin. apply List.filter_In in Hin. tauto. Qed.

Lemma filter_passes_id (l : list transaction) :
  Forall (fun tx => passes_validation tx = true) l -> List.filter passes_validation l = l.
Proof.
  induction 1 as [|tx l Htx _ IH]; simpl; [reflexivity|]. rewrite Htx, IH; reflexivity.
Qed.

Lemma filter_fails_nil (l : list transaction) :
  Forall (fun tx => passes_validation tx = true) l ->
  List.filter (fun tx => negb (passes_validation tx)) l = [].
Proof.
  induction 1 as [|tx l Htx _ IH]; simpl; [reflexivity|]. rewrite Htx; simpl. exact IH.
Qed.

Lemma Forall_incl {A : Type} (P : A -> Prop) (l l' : list A) :
  Forall P l -> incl l' l -> Forall P l'.
Proof.
  intros H Hi. apply List.Forall_forall. intros x Hx.
  apply (proj1 (List.Forall_forall P l) H), Hi, Hx.
Qed.

(** What a returning call went through, stage by stage. *)
Lemma validate_and_filter_Ok T region mn mx V ic s :
  validate_and_filter T region mn mx = Ok (V, ic, s) ->
  exists V1 n1 n2,
    display T = Ok tt
    /\ ic = len (List.filter (fun tx => negb (passes_validation tx)) T)
    /\ region_filter region (List.filter passes_validation T) = Ok (V1, n1)
    /\ amount_filter mn mx V1 = Ok (V, n2)
    /\ s = {| total_input := len T; invalid := ic; filtered_by_region := n1;
              filtered_by_amount := n2; final_count := len V |}.
Proof.
  unfold validate_and_filter. intros H.
  bind_inv H. destruct a. rewrite validation_eq in H.
  bind_inv H. destruct a as [V1 n1]. bind_inv H. destruct a as [V2 n2].
  inversion H; subst; clear H. exists V1, n1, n2. repeat split; assumption.
Qed.

Lemma region_filter_Ok region l V n :
  region_filter region l = Ok (V, n) ->
  n = len l - len V /\ incl V l /\ region_filter region V = Ok (V, 0).
Proof.
  unfold region_filter. destruct (truthy region).
  - intros H. bind_inv H. inversion H; subst; clear H.
    destruct (filter_res_kept _ _ _ Ha) as [Hk Hi].
    repeat split; [assumption|]. rewrite (filter_res_all _ _ Hk); simpl.
    f_equal. f_equal. lia.
  - intros H; inversion H; subst. repeat split; [lia | apply incl_refl].
Qed.

Lemma amount_filter_Ok mn mx l V n :
  amount_filter mn mx l = Ok (V, n) ->
  n = len l - len V /\ incl V l /\ amount_filter mn mx V = Ok (V, 0).
Proof.
  unfold amount_filter.
  assert (Hgen : (let* kept := filter_res (in_range mn mx) l in Ok (kept, len l - len kept))
                 = Ok (V, n) ->
          n = len l - len V /\ incl V l /\
          (let* kept := filter_res (in_range mn mx) V in Ok (kept, len V - len kept))
          = Ok (V, 0)).
  { intros H. bind_inv H. inversion H; subst; clear H.
    destruct (filter_res_kept _ _ _ Ha) as [Hk Hi].
    repeat split; [assumption|]. rewrite (filter_res_all _ _ Hk); simpl.
    f_equal. f_equal. lia. }
  destruct mn, mx; try exact Hgen.
  intros H; inversion H; subst. repeat split; [lia | apply incl_refl].
Qed.

(** C5: whenever [validate_and_filter] returns, its summary accounts for every
    input record: [total_input] is the sum of [invalid], [filtered_by_region],
    [filtered_by_amount] and [final_count]; [total_input] is the length of the
    input, [invalid] is the returned [invalid_count] and [final_count] is the
    length of the returned [valid_records]; with no filter given,
    [invalid_count] plus the length of [valid_records] is the length of the
    input. *)
Theorem validate_and_filter_accounting T region mn mx V ic s :
  validate_and_filter T region mn mx = Ok (V, ic, s) ->
  total_input s
    = invalid s + filtered_by_region s + filtered_by_amount s + final_count s
  /\ total_input s = len T
  /\ invalid s = ic
  /\ final_count s = len V
  /\ (region = None -> mn = None -> mx = None -> ic + len V = len T).
Proof.
  intros H. apply validate_and_filter_Ok in H.
  destruct H as (V1 & n1 & n2 & _ & Hic & Hr & Ha & ->).
  pose proof (validation_total T) as Htot. rewrite validation_eq in Htot; simpl in Htot.
  rewrite <- Hic in Htot.
  cbn [total_input invalid filtered_by_region filtered_by_amount final_count].
  pose proof (region_filter_Ok _ _ _ _ Hr) as (-> & _ & _).
  pose proof (amount_filter_Ok _ _ _ _ _ Ha) as (-> & _ & _).
  repeat split; try lia.
  intros -> -> ->. simpl in Hr, Ha. inversion Hr; subst. inversion Ha; subst. lia.
Qed.

(** The call returns exactly when the display part does. *)
Lemma validate_and_filter_total T region mn mx :
  display T = Ok tt -> exists V ic s, validate_and_filter T region mn mx = Ok (V, ic, s).
Proof.
  intros Hd. unfold validate_and_filter. rewrite Hd; simpl. rewrite validation_eq.
  pose proof (filter_passes_Forall T) as Hv. pose proof (filter_passes_incl T) as Hi.
  apply display_Ok in Hd. destruct Hd as [Hdef _].
  set (V0 := List.filter passes_validation T) in *.
  assert (Hr : exists V1 n1, region_filter region V0 = Ok (V1, n1) /\ incl V1 V0).
  { unfold region_filter.
    destruct (truthy region); [|exists V0, 0; split; [reflexivity|apply incl_refl]].
    destruct (filter_res_total (region_matches region) V0) as [r Hr].
    - eapply List.Forall_impl; [|exact Hv]. intros tx Htx. apply region_matches_total.
      destruct (passes_validation_fields tx Htx) as (_ & _ & r & _ & _ & Hr).
      unfold has_region; rewrite Hr; reflexivity.
    - rewrite Hr; simpl. eexists _, _; split; [reflexivity|].
      apply (filter_res_kept _ _ _ Hr). }
  destruct Hr as (V1 & n1 & -> & Hi1); simpl.
  assert (Ha : exists V2 n2, amount_filter mn mx V1 = Ok (V2, n2)).
  { destruct (filter_res_total (in_range mn mx) V1) as [r Hr].
    - apply List.Forall_forall. intros tx Htx. apply in_range_total, amount_of_display.
      + apply (proj1 (List.Forall_forall _ _) Hv), Hi1, Htx.
      + apply (proj1 (List.Forall_forall _ _) Hdef), Hi, Hi1, Htx.
    - unfold amount_filter. destruct mn, mx; rewrite ?Hr; simpl; eauto. }
  destruct Ha as (V2 & n2 & ->); simpl. eauto.
Qed.

Lemma validate_and_filter_raises T region mn mx e :
  display T = Raise e -> validate_and_filter T region mn mx = Raise e.
Proof. intros H. unfold validate_and_filter. rewrite H. reflexivity. Qed.

(** The records a call returns have an amount: the first loop computed it. *)
Lemma valid_records_have_amount T region mn mx V ic s :
  validate_and_filter T region mn mx = Ok (V, ic, s) -> Forall has_amount V.
Proof.
  intros H. apply validate_and_filter_Ok in H.
  destruct H as (V1 & n1 & n2 & Hd & _ & Hr & Ha & _).
  destruct (region_filter_Ok _ _ _ _ Hr) as (_ & Hi1 & _).
  destruct (amount_filter_Ok _ _ _ _ _ Ha) as (_ & Hi2 & _).
  apply display_Ok in Hd. destruct Hd as [Hdef _].
  apply List.Forall_forall. intros tx Htx. apply Hi2, Hi1 in Htx.
  apply List.filter_In in Htx. destruct Htx as [Hin Hv].
  apply amount_of_display; [exact Hv|].
  apply (proj1 (List.Forall_forall _ _) Hdef), Hin.
Qed.

(** C8: [validate_and_filter] applied with the same arguments to the
    [valid_records] of a first application returns the same [valid_records];
    the second pass counts no invalid record and filters nothing. *)
Theorem validate_and_filter_idempotent T region mn mx V ic s :
  validate_and_filter T region mn mx = Ok (V, ic, s) ->
  validate_and_filter V region mn mx
  = Ok (V, 0, {| total_input := len V; invalid := 0; filtered_by_region := 0;
                 filtered_by_amount := 0; final_count := len V |}).
Proof.
  intros H. apply validate_and_filter_Ok in H.
  destruct H as (V1 & n1 & n2 & Hd & _ & Hr & Ha & _).
  destruct (region_filter_Ok _ _ _ _ Hr) as (_ & Hi1 & _).
  destruct (amount_filter_Ok _ _ _ _ _ Ha) as (_ & Hi2 & Ha').
  assert (HiV : incl V (List.filter passes_validation T))
    by (intros tx Htx; apply Hi1, Hi2, Htx).
  assert (Hv : Forall (fun tx => passes_validation tx = true) V)
    by (eapply Forall_incl; [apply filter_passes_Forall | exact HiV]).
  assert (HdV : display V = Ok tt).
  { apply display_Ok in Hd. destruct Hd as [Hdef _]. apply display_Ok. split.
    - eapply Forall_incl; [exact Hdef|]. intros tx Htx. apply filter_passes_incl, HiV, Htx.
    - apply sorted_regions_all. eapply List.Forall_impl; [|exact Hv]. intros tx Htx.
      destruct (passes_validation_fields tx Htx) as (_ & _ & r & _ & _ & Hreg).
      unfold has_region; rewrite Hreg; reflexivity. }
  assert (HrV : region_filter region V = Ok (V, 0)).
  { unfold region_filter in Hr |- *. destruct (truthy region); [|reflexivity].
    bind_inv Hr. inversion Hr; subst; clear Hr.
    destruct (filter_res_kept _ _ _ Ha0) as [Hk _].
    rewrite (filter_res_all (region_matches region) V); simpl.
    - f_equal. f_equal. lia.
    - eapply Forall_incl; [exact Hk | exact Hi2]. }
  unfold validate_and_filter. rewrite HdV; simpl. rewrite validation_eq.
  rewrite (filter_passes_id V Hv), (filter_fails_nil V Hv). rewrite HrV; simpl.
  rewrite Ha'; simpl. reflexivity.
Qed.

(** C10: with the empty string as [region], [validate_and_filter] behaves as
    with no region: the two calls are equal, the summary has
    [filtered_by_region = 0], the records kept are those the amount filter
    leaves of all the records that pass validation, whatever their region, and
    without amount bounds they are all the records that pass validation. *)
Theorem empty_region_is_no_filter T mn mx :
  validate_and_filter T (Some "") mn mx = validate_and_filter T None mn mx
  /\ forall V ic s,
       validate_and_filter T (Some "") mn mx = Ok (V, ic, s) ->
       filtered_by_region s = 0
       /\ amount_filter mn mx (List.filter passes_validation T)
          = Ok (V, filtered_by_amount s)
       /\ (mn = None -> mx = None -> V = List.filter passes_validation T).
Proof.
  split; [reflexivity|]. intros V ic s H.
  apply validate_and_filter_Ok in H.
  destruct H as (V1 & n1 & n2 & _ & _ & Hr & Ha & ->).
  cbn in Hr. inversion Hr; subst; clear Hr. split; [reflexivity|].
  split; [exact Ha|].
  intros -> ->. cbn in Ha. inversion Ha; subst. reflexivity.
Qed.

Lemma passes_validation_iff (tx : transaction) :
  passes_validation tx = true <-> enforced_rules tx.
Proof.
  unfold passes_validation, enforced_rules, all_fields_present, field_holds.
  destruct tx as [tid d pid pn q p cid r]; cbn [TransactionID Date ProductID ProductName
    Quantity UnitPrice CustomerID Region].
  split.
  - destruct tid as [tid|], d, pid as [pid|], pn, q as [q|], p as [p|], cid as [cid|], r;
      try discriminate.
    destruct (Z.leb_spec q 0); [discriminate|]. cbn [orb].
    destruct (Float.leb p Float.zero) eqn:Hp; [discriminate|].
    destruct (startswith tid "T") eqn:Ht; [|discriminate].
    destruct (startswith pid "P") eqn:Hpp; [|discriminate].
    destruct (startswith cid "C") eqn:Hc; [|discriminate].
    intros _. repeat split; eauto.
  - intros ((Ht & Hd & Hpid & Hpn & Hq & Hp & Hc & Hr) & (q' & Eq & Hq') & (p' & Ep & Hp')
            & (t' & Et & Ht') & (i' & Ei & Hi') & (c' & Ec & Hc')).
    subst. destruct d, pn, r; try (exfalso; eapply is_Some_None; eassumption).
    destruct (Z.leb_spec q' 0); [lia|]. cbn [orb]. rewrite Hp', Ht', Hi', Hc'. reflexivity.
Qed.

Lemma customer_not_empty (tx : transaction) :
  enforced_rules tx -> CustomerID tx <> Some "".
Proof.
  intros (_ & _ & _ & _ & _ & (c & Ec & Hc)) E. rewrite Ec in E.
  inversion E; subst. discriminate.
Qed.

Lemma ltb_zero_not_leb (p : float) :
  Float.ltb Float.zero p = true -> Float.leb p Float.zero = false.
Proof. destruct p as [s|s| |s m e]; try destruct s; cbn; congruence. Qed.

Lemma specified_rules_enforced (tx : transaction) :
  specified_rules tx -> enforced_rules tx.
Proof.
  intros (H1 & H2 & (p & Ep & Hp) & H4 & H5 & H6 & _).
  unfold enforced_rules. repeat (split; [assumption|]).
  split; [|tauto].
  exists p; split; [assumption | apply ltb_zero_not_leb, Hp].
Qed.

(** C2, as amended: every record in the [valid_records] that
    [validate_and_filter] returns has all eight required fields, a quantity
    above 0, a unit price that is not [<= 0], and identifiers that start with
    "T", "P" and "C", so that its customer is not empty; a record of the input
    that violates one of these rules is not in [valid_records], and
    [invalid_count] is the number of such records. *)
Theorem valid_records_satisfy_enforced_rules T region mn mx V ic s :
  validate_and_filter T region mn mx = Ok (V, ic, s) ->
  Forall enforced_rules V
  /\ (forall tx, In tx V -> CustomerID tx <> Some "")
  /\ (forall tx, In tx T -> ~ enforced_rules tx -> ~ In tx V)
  /\ (forall tx, passes_validation tx = false <-> ~ enforced_rules tx)
  /\ ic = len (List.filter (fun tx => negb (passes_validation tx)) T).
Proof.
  intros H. apply validate_and_filter_Ok in H.
  destruct H as (V1 & n1 & n2 & _ & Hic & Hr & Ha & _).
  destruct (region_filter_Ok _ _ _ _ Hr) as (_ & Hi1 & _).
  destruct (amount_filter_Ok _ _ _ _ _ Ha) as (_ & Hi2 & _).
  assert (Hv : Forall enforced_rules V).
  { apply List.Forall_forall. intros tx Htx. apply passes_validation_iff.
    apply Hi2, Hi1, List.filter_In in Htx. tauto. }
  split; [exact Hv|]. split; [|split; [|split; [|exact Hic]]].
  - intros tx Htx. apply customer_not_empty, (proj1 (List.Forall_forall _ _) Hv), Htx.
  - intros tx _ Hn Htx. apply Hn, (proj1 (List.Forall_forall _ _) Hv), Htx.
  - intros tx. rewrite <- passes_validation_iff. destruct (passes_validation tx); split; congruence.
Qed.

(** The rules as the specification states them fail on two records that
    [validate_and_filter] returns as valid: one with an empty region, one
    whose unit price is NaN. *)
Lemma valid_records_specified_rules_counterexample :
  (validate_and_filter [blank_region_record] None None None
   = Ok ([blank_region_record], 0,
         {| total_input := 1; invalid := 0; filtered_by_region := 0;
            filtered_by_amount := 0; final_count := 1 |})
   /\ ~ specified_rules blank_region_record)
  /\ (validate_and_filter [nan_price_record] None None None
      = Ok ([nan_price_record], 0,
            {| total_input := 1; invalid := 0; filtered_by_region := 0;
               filtered_by_amount := 0; final_count := 1 |})
      /\ ~ specified_rules nan_price_record).
Proof.
  split; (split; [vm_compute; reflexivity|]).
  - intros (_ & _ & _ & _ & _ & _ & (r & Er & Hr)). inversion Er; subst. apply Hr; reflexivity.
  - intros (_ & _ & (p & Ep & Hp) & _). inversion Ep; subst. discriminate.
Qed.

(** [clean_sales_data] rejects the row with an empty region that
    [validate_and_filter] accepts. *)
Example clean_sales_data_rejects_blank_region :
  clean_sales_data [["T001"; "2024-12-01"; "P101"; "Laptop"; "2"; "45000"; "C001"; ""]] = []
  /\ parse_transactions ["T001|2024-12-01|P101|Laptop|2|45000|C001|"]
     = [blank_region_record]
  /\ parse_transactions ["T002|2024-12-01|P102|Mouse|1|nan|C002|North"]
     = [nan_price_record].
Proof. vm_compute. repeat split; reflexivity. Qed.


Lemma validate_and_filter_accounting_witness :
  exists V ic s,
    validate_and_filter sample_batch (Some "North") (Some (Float.of_Z 86000)) None
    = Ok (V, ic, s)
    /\ (total_input s
          = invalid s + filtered_by_region s + filtered_by_amount s + final_count s
        /\ total_input s = len sample_batch
        /\ invalid s = ic
        /\ final_count s = len V
        /\ (Some "North" = None -> Some (Float.of_Z 86000) = None -> @None float = None ->
            ic + len V = len sample_batch)).
Proof.
  eexists _, _, _. split; [vm_compute; reflexivity|].
  apply (validate_and_filter_accounting sample_batch (Some "North")
           (Some (Float.of_Z 86000)) None).
  vm_compute; reflexivity.
Defined.

Lemma validate_and_filter_idempotent_witness :
  exists V ic s,
    validate_and_filter sample_batch (Some "North") (Some (Float.of_Z 86000)) None
    = Ok (V, ic, s)
    /\ validate_and_filter V (Some "North") (Some (Float.of_Z 86000)) None
       = Ok (V, 0, {| total_input := len V; invalid := 0; filtered_by_region := 0;
                      filtered_by_amount := 0; final_count := len V |}).
Proof.
  eexists _, _, _. split; [vm_compute; reflexivity|].
  apply (validate_and_filter_idempotent sample_batch (Some "North")
           (Some (Float.of_Z 86000)) None _ 1
           {| total_input := 6; invalid := 1; filtered_by_region := 2;
              filtered_by_amount := 1; final_count := 2 |}).
  vm_compute; reflexivity.
Defined.

Lemma valid_records_satisfy_enforced_rules_witness :
  exists V ic s,
    validate_and_filter sample_batch (Some "North") (Some (Float.of_Z 86000)) None
    = Ok (V, ic, s)
    /\ (Forall enforced_rules V
        /\ (forall tx, In tx V -> CustomerID tx <> Some "")
        /\ (forall tx, In tx sample_batch -> ~ enforced_rules tx -> ~ In tx V)
        /\ (forall tx, passes_validation tx = false <-> ~ enforced_rules tx)
        /\ ic = len (List.filter (fun tx => negb (passes_validation tx)) sample_batch)).
Proof.
  eexists _, _, _. split; [vm_compute; reflexivity|].
  apply (valid_records_satisfy_enforced_rules sample_batch (Some "North")
           (Some (Float.of_Z 86000)) None _ _
           {| total_input := 6; invalid := 1; filtered_by_region := 2;
              filtered_by_amount := 1; final_count := 2 |}).
  vm_compute; reflexivity.
Defined.

(** The sample batch: one record is invalid, two are of another region, one is
    below the minimum amount, and the record with a NaN price stays. *)
Example validate_and_filter_sample :
  validate_and_filter sample_batch (Some "North") (Some (Float.of_Z 86000)) None
  = Ok ([laptop_record; nan_price_record], 1,
        {| total_input := 6; invalid := 1; filtered_by_region := 2;
           filtered_by_amount := 1; final_count := 2 |}).
Proof. vm_compute. reflexivity. Qed.

(** ** Properties of the enrichment join *)

Lemma fold_left_snoc_map {A B : Type} (f : A -> B) (l : list A) (acc : list B) :
  fold_left (fun r x => r ++ [f x]) l acc = acc ++ List.map f l.
Proof.
  revert acc; induction l as [|x l IH]; intros acc; simpl.
  - rewrite app_nil_r; reflexivity.
  - rewrite IH, <- app_assoc; reflexivity.
Qed.

Lemma enrich_sales_data_map T m :
  enrich_sales_data T m = List.map (enrich m) T.
Proof. unfold enrich_sales_data. rewrite fold_left_snoc_map. reflexivity. Qed.

Lemma copied_enrich m tx : copied (enrich m tx) = tx.
Proof.
  unfold enrich. destruct (numeric_id tx) as [n|]; [|reflexivity].
  destruct (negb (n =? 0)); [|reflexivity]. destruct (m !! n); reflexivity.
Qed.

Lemma enrich_hit m tx k info :
  numeric_id tx = Some k -> k <> 0 -> m !! k = Some info -> enrich m tx = matched tx info.
Proof.
  intros Hk Hnz Hm. unfold enrich. rewrite Hk.
  destruct (Z.eqb_spec k 0); [contradiction|]. simpl. rewrite Hm. reflexivity.
Qed.

Lemma enrich_miss m tx :
  numeric_id tx = None \/ (exists k, numeric_id tx = Some k /\ m !! k = None) ->
  enrich m tx = unmatched tx.
Proof.
  intros [Hk | (k & Hk & Hm)]; unfold enrich; rewrite Hk; [reflexivity|].
  destruct (negb (k =? 0)); [rewrite Hm|]; reflexivity.
Qed.

Lemma remove_char_absent c s :
  (forall a, In a (list_ascii_of_string s) -> a <> c) -> remove_char c s = s.
Proof.
  induction s as [|a s IH]; simpl; intros H; [reflexivity|].
  destruct (Ascii.eqb_spec a c) as [->|_].
  - exfalso. apply (H c); [left; reflexivity | reflexivity].
  - rewrite IH; [reflexivity|]. intros b Hb. apply H. right; exact Hb.
Qed.

(** On an identifier made of ["P"] and a remainder without ["P"], the key the
    code derives is the one the specification describes. *)
Lemma numeric_id_specified tx rest :
  ProductID tx = Some (String "P" rest) ->
  (forall a, In a (list_ascii_of_string rest) -> a <> "P"%char) ->
  numeric_id tx = specified_key tx /\ specified_key tx = py_int rest.
Proof.
  intros Hp Hrest. unfold numeric_id, specified_key. rewrite Hp.
  change (default "" (Some (String "P" rest))) with (String "P" rest).
  change (remove_char "P" (String "P" rest)) with (remove_char "P" rest).
  change (strip_prefix_P (String "P" rest)) with rest.
  rewrite (remove_char_absent _ _ Hrest).
  split; reflexivity.
Qed.

(** C1, as amended: the enrichment join keeps each transaction at its place and
    derives its catalog key by removing every "P" from [product_id] and parsing
    what is left as an integer, the key being absent when that fails.  When
    the key is not 0 and is in the mapping, the enriched record carries the
    category, brand and rating of that catalog entry and [API_Match] is true;
    when the key is absent or is not in the mapping, the three fields are
    null and [API_Match] is false. *)
Theorem enrichment_join T m i tx :
  nth_error T i = Some tx ->
  exists e,
    nth_error (enrich_sales_data T m) i = Some e
    /\ copied e = tx
    /\ (forall k info,
          numeric_id tx = Some k -> k <> 0 -> m !! k = Some info ->
          API_Category e = ProductInfo.category info /\ API_Brand e = ProductInfo.brand info
          /\ API_Rating e = ProductInfo.rating info /\ API_Match e = true)
    /\ (numeric_id tx = None \/ (exists k, numeric_id tx = Some k /\ m !! k = None) ->
          API_Category e = VNone /\ API_Brand e = VNone
          /\ API_Rating e = VNone /\ API_Match e = false).
Proof.
  intros Hi. exists (enrich m tx). rewrite enrich_sales_data_map.
  split; [apply List.map_nth_error, Hi|]. split; [apply copied_enrich|]. split.
  - intros k info Hk Hnz Hm. rewrite (enrich_hit m tx k info Hk Hnz Hm). repeat split.
  - intros H. rewrite (enrich_miss m tx H). repeat split.
Qed.

Lemma enrichment_join_witness :
  exists e,
    nth_error (enrich_sales_data [laptop_record; mouse_record]
                                 (create_product_mapping [acme_product 101])) 0 = Some e
    /\ copied e = laptop_record
    /\ (forall k info,
          numeric_id laptop_record = Some k -> k <> 0 ->
          create_product_mapping [acme_product 101] !! k = Some info ->
          API_Category e = ProductInfo.category info /\ API_Brand e = ProductInfo.brand info
          /\ API_Rating e = ProductInfo.rating info /\ API_Match e = true)
    /\ (numeric_id laptop_record = None
        \/ (exists k, numeric_id laptop_record = Some k
                      /\ create_product_mapping [acme_product 101] !! k = None) ->
          API_Category e = VNone /\ API_Brand e = VNone
          /\ API_Rating e = VNone /\ API_Match e = false).
Proof.
  apply (enrichment_join [laptop_record; mouse_record]
           (create_product_mapping [acme_product 101]) 0 laptop_record).
  reflexivity.
Defined.

(** The example of the specification: catalog entry 101, products P101 and P999. *)
Example enrichment_example :
  List.map (fun e => (API_Category e, API_Brand e, API_Match e))
    (enrich_sales_data [laptop_record; mouse_record]
                       (create_product_mapping [acme_product 101]))
  = [(VStr "electronics", VStr "Acme", true); (VNone, VNone, false)].
Proof. vm_compute. reflexivity. Qed.

(** The join as the specification states it fails twice: on "P0" the key 0 is
    in the mapping and the record is left unmatched; on "P1P2" the remainder
    "1P2" is no integer, and the record is matched with entry 12. *)
Lemma enrichment_join_counterexample :
  (specified_key zero_key_record = Some 0
   /\ create_product_mapping [acme_product 0] !! 0 = Some acme_info
   /\ enrich_sales_data [zero_key_record] (create_product_mapping [acme_product 0])
      = [unmatched zero_key_record]
   /\ ~ specified_join zero_key_record (create_product_mapping [acme_product 0])
        (enrich (create_product_mapping [acme_product 0]) zero_key_record))
  /\ (specified_key double_prefix_record = None
      /\ enrich_sales_data [double_prefix_record] (create_product_mapping [acme_product 12])
         = [matched double_prefix_record acme_info]
      /\ ~ specified_join double_prefix_record (create_product_mapping [acme_product 12])
           (enrich (create_product_mapping [acme_product 12]) double_prefix_record)).
Proof.
  split.
  - split; [vm_compute; reflexivity|]. split; [vm_compute; reflexivity|].
    split; [vm_compute; reflexivity|].
    unfold specified_join.
    replace (specified_key zero_key_record) with (Some 0) by (vm_compute; reflexivity).
    replace (create_product_mapping [acme_product 0] !! 0) with (Some acme_info)
      by (vm_compute; reflexivity).
    replace (enrich (create_product_mapping [acme_product 0]) zero_key_record)
      with (unmatched zero_key_record) by (vm_compute; reflexivity).
    discriminate.
  - split; [vm_compute; reflexivity|]. split; [vm_compute; reflexivity|].
    unfold specified_join.
    replace (specified_key double_prefix_record) with (@None Z) by (vm_compute; reflexivity).
    replace (enrich (create_product_mapping [acme_product 12]) double_prefix_record)
      with (matched double_prefix_record acme_info) by (vm_compute; reflexivity).
    discriminate.
Qed.

(** C3: [enrich_sales_data] returns one enriched record for each transaction,
    in the order of the input, for every catalog mapping; the mapping of an
    empty catalog is empty, and with it every record has [API_Match] false. *)
Theorem enrichment_cardinality T m :
  length (enrich_sales_data T m) = length T
  /\ List.map copied (enrich_sales_data T m) = T
  /\ create_product_mapping [] = ∅
  /\ Forall (fun e => API_Match e = false) (enrich_sales_data T (create_product_mapping [])).
Proof.
  rewrite !enrich_sales_data_map. split; [apply List.length_map|]. split.
  - rewrite List.map_map. rewrite <- (List.map_id T) at 2.
    apply List.map_ext. intros tx. apply copied_enrich.
  - split; [reflexivity|]. apply List.Forall_forall. intros e He.
    apply List.in_map_iff in He. destruct He as (tx & <- & _).
    unfold create_product_mapping; cbn [fold_left].
    unfold enrich. destruct (numeric_id tx) as [n|]; [|reflexivity].
    destruct (negb (n =? 0)); [|reflexivity]. rewrite lookup_empty. reflexivity.
Qed.

(** ** Properties of the record parser *)

Lemma fold_left_kept {A B : Type} (f : A -> option B) (l : list A) (acc : list B) :
  fold_left (fun r x => match f x with Some y => r ++ [y] | None => r end) l acc
  = acc ++ flat_map (fun x => kept (f x)) l.
Proof.
  revert acc; induction l as [|x l IH]; intros acc; simpl.
  - rewrite app_nil_r; reflexivity.
  - rewrite IH. destruct (f x); simpl; [rewrite <- app_assoc|]; reflexivity.
Qed.

(** The records come out in the order of the lines that produce them. *)
Lemma parse_transactions_flat_map raw_lines :
  parse_transactions raw_lines = flat_map (fun line => kept (parse_line line)) raw_lines.
Proof. unfold parse_transactions. rewrite fold_left_kept. reflexivity. Qed.

Lemma parse_transactions_app l1 l2 :
  parse_transactions (l1 ++ l2) = parse_transactions l1 ++ parse_transactions l2.
Proof. rewrite !parse_transactions_flat_map. apply flat_map_app. Qed.

Lemma parse_line_field_count line :
  length (split "|" line) <> 8%nat -> parse_line line = None.
Proof.
  unfold parse_line. intros H.
  destruct (split "|" line) as [|f1 [|f2 [|f3 [|f4 [|f5 [|f6 [|f7 [|f8 [|f9 r]]]]]]]]];
    try reflexivity.
  exfalso; apply H; reflexivity.
Qed.

Lemma parse_line_Some line tx :
  parse_line line = Some tx ->
  exists tid date pid name qty price cid region q p,
    split "|" line = [tid; date; pid; name; qty; price; cid; region]
    /\ py_int (remove_char "," qty) = Some q
    /\ py_float (remove_char "," price) = Some p
    /\ tx = record tid date pid (remove_char "," name) q p cid region.
Proof.
  unfold parse_line.
  destruct (split "|" line) as [|f1 [|f2 [|f3 [|f4 [|f5 [|f6 [|f7 [|f8 [|f9 r]]]]]]]]];
    try discriminate.
  destruct (py_int (remove_char "," f5)) as [q|] eqn:Hq; [|discriminate].
  destruct (py_float (remove_char "," f6)) as [p|] eqn:Hp; [|discriminate].
  intros H; inversion H; subst. exists f1, f2, f3, f4, f5, f6, f7, f8, q, p.
  repeat split; assumption.
Qed.

Lemma split_no_separator (sep : ascii) (s : string) :
  (forall a, In a (list_ascii_of_string s) -> a <> sep) -> split sep s = [s].
Proof.
  induction s as [|a s IH]; cbn [split list_ascii_of_string]; intros H; [reflexivity|].
  destruct (Ascii.eqb_spec a sep) as [->|_].
  - exfalso. apply (H sep); [left; reflexivity | reflexivity].
  - rewrite IH; [reflexivity|]. intros b Hb. apply H. right; exact Hb.
Qed.

(** A line of white space only, the empty line included, has one field and is
    dropped. *)
Lemma parse_line_blank line :
  (forall a, In a (list_ascii_of_string line) -> is_space a = true) ->
  parse_line line = None.
Proof.
  intros H. apply parse_line_field_count. rewrite split_no_separator; [discriminate|].
  intros a Ha E. subst a. apply H in Ha. discriminate.
Qed.

(** A line whose quantity or unit price is no number is dropped. *)
Lemma parse_line_not_numeric line tid date pid name qty price cid region :
  split "|" line = [tid; date; pid; name; qty; price; cid; region] ->
  py_int (remove_char "," qty) = None \/ py_float (remove_char "," price) = None ->
  parse_line line = None.
Proof.
  intros Hs H. unfold parse_line. rewrite Hs.
  destruct H as [-> | H]; [reflexivity|].
  destruct (py_int (remove_char "," qty)); [rewrite H|]; reflexivity.
Qed.

(** The other parser of the module, [split_sales_data] followed by
    [clean_sales_data], emits nothing for a blank line and nothing for a line
    that begins with the header token. *)
Lemma split_sales_data_flat_map lines :
  split_sales_data lines
  = flat_map
      (fun line =>
         if String.eqb (strip line) "" then []
         else if startswith (strip line) "TransactionID" then []
         else [split "|" (strip line)])
      lines.
Proof.
  unfold split_sales_data.
  assert (Hgen : forall acc,
             fold_left
               (fun split_rows line =>
                  let line := strip line in
                  if String.eqb line "" then split_rows
                  else if startswith line "TransactionID" then split_rows
                  else split_rows ++ [split "|" line])
               lines acc
             = acc ++ flat_map
                 (fun line =>
                    if String.eqb (strip line) "" then []
                    else if startswith (strip line) "TransactionID" then []
                    else [split "|" (strip line)])
                 lines).
  { induction lines as [|line lines IH]; intros acc; cbn [fold_left flat_map].
    - rewrite app_nil_r; reflexivity.
    - rewrite IH. destruct (String.eqb (strip line) ""); [reflexivity|].
      destruct (startswith (strip line) "TransactionID"); [reflexivity|].
      rewrite <- app_assoc. reflexivity. }
  rewrite Hgen. reflexivity.
Qed.

Lemma clean_sales_data_flat_map rows :
  clean_sales_data rows = flat_map (fun row => kept (clean_row row)) rows.
Proof. unfold clean_sales_data. rewrite fold_left_kept. reflexivity. Qed.

Lemma legacy_parser_skips_header before line after :
  startswith (strip line) "TransactionID" = true \/ strip line = "" ->
  clean_sales_data (split_sales_data (before ++ line :: after))
  = clean_sales_data (split_sales_data (before ++ after)).
Proof.
  intros H. rewrite !split_sales_data_flat_map, !flat_map_app. cbn [flat_map].
  destruct H as [H | H].
  - rewrite H. destruct (String.eqb (strip line) ""); reflexivity.
  - rewrite H. reflexivity.
Qed.

(** The header test as the specification states it for the parser fails: a
    line that begins with the header token "TransactionID" and is otherwise a
    well-formed row is not skipped by [parse_transactions], which emits a
    record for it, while [split_sales_data] drops the same line. *)
Theorem parse_transactions_keeps_header_like_line :
  startswith header_like_line "TransactionID" = true
  /\ parse_transactions [header_like_line]
     = [record "TransactionID" "2024-12-01" "P101" "Laptop" 2 (Float.of_Z 45000)
               "C001" "North"]
  /\ split_sales_data [header_like_line] = [].
Proof. vm_compute. repeat split; reflexivity. Qed.

(** ** The aggregation functions on no transaction *)

Lemma slice_to_nil {A : Type} (n : Z) : slice_to n (@nil A) = [].
Proof. unfold slice_to. destruct (0 <=? n); apply firstn_nil. Qed.

(** C9: on the empty collection each of the seven aggregation functions
    returns, without raising: [calculate_total_revenue] gives 0.0,
    [region_wise_sales], [customer_analysis] and [daily_sales_trend] give empty
    mappings, [top_selling_products] and [low_performing_products] give empty
    lists, and [find_peak_sales_day] gives no date, revenue 0.0 and count 0. *)
Theorem aggregations_of_empty_collection :
  calculate_total_revenue [] = Ok Float.zero
  /\ region_wise_sales [] = Ok []
  /\ customer_analysis [] = Ok []
  /\ daily_sales_trend [] = Ok []
  /\ (forall n, top_selling_products [] n = Ok [])
  /\ (forall threshold, low_performing_products [] threshold = Ok [])
  /\ find_peak_sales_day [] = Ok (None, Float.zero, 0).
Proof.
  repeat split; try reflexivity.
  intros n. unfold top_selling_products; cbn. rewrite slice_to_nil. reflexivity.
Qed.

(** ** region_wise_sales on a zero grand total *)

Lemma map_res_raise {A B : Type} (f : A -> res B) (l : list A) (e : exn) :
  l <> [] -> (forall x, In x l -> f x = Raise e) -> map_res f l = Raise e.
Proof.
  destruct l as [|x l]; [congruence|]. intros _ H. simpl.
  rewrite (H x); [reflexivity | left; reflexivity].
Qed.

Lemma dict_update_not_nil {V : Type} (d : dict V) (k : string) (init : V) (f : V -> V) :
  dict_update d k init f <> [].
Proof. destruct d as [|[k' v] d]; cbn; [|destruct (String.eqb k' k)]; discriminate. Qed.

(** The first pass accumulates the grand total that [calculate_total_revenue]
    computes, and holds a region as soon as there is a transaction. *)
Lemma region_first_pass_total T region_data total :
  region_first_pass T = Ok (region_data, total) ->
  calculate_total_revenue T = Ok total /\ (T <> [] -> region_data <> []).
Proof.
  unfold region_first_pass, calculate_total_revenue.
  generalize (@nil (string * RegionStats.t)) at 1 as d0.
  assert (Hgen : forall d0 t0,
             fold_res
               (fun st tx =>
                  let '(region_data, total_sales_all_regions) := st in
                  let* region := getitem (Region tx) in
                  let* sale_amount := amount tx in
                  Ok (dict_update region_data region RegionStats.init
                        (RegionStats.add_sale sale_amount),
                      Float.add total_sales_all_regions sale_amount))
               T (d0, t0) = Ok (region_data, total) ->
             fold_res (fun total_revenue tx =>
                         let* a := amount tx in Ok (Float.add total_revenue a)) T t0
             = Ok total
             /\ (T <> [] \/ d0 <> [] -> region_data <> [])).
  { induction T as [|tx T IH]; intros d0 t0 H; cbn [fold_res] in *.
    - inversion H; subst. split; [reflexivity|]. intros [Hn|Hn]; [congruence | exact Hn].
    - bind_inv H. bind_inv Ha. bind_inv Ha. inversion Ha; subst; clear Ha.
      rewrite Ha1; cbn [bind]. destruct (IH _ _ H) as [IH1 IH2].
      split; [exact IH1|]. intros _. apply IH2. right. apply dict_update_not_nil. }
  intros d0 H. destruct (Hgen _ _ H) as [H1 H2]. split; [exact H1|].
  intros Hne. apply H2. left; exact Hne.
Qed.

(** Whenever the first pass goes through some transaction and ends on a grand
    total equal to zero, the second pass divides by zero. *)
Lemma region_wise_sales_zero_total T region_data total :
  T <> [] ->
  region_first_pass T = Ok (region_data, total) ->
  Float.eqb total Float.zero = true ->
  calculate_total_revenue T = Ok total
  /\ region_wise_sales T = Raise ZeroDivisionError.
Proof.
  intros Hne H Hz. destruct (region_first_pass_total _ _ _ H) as [Htot Hd].
  split; [exact Htot|]. unfold region_wise_sales. rewrite H; simpl.
  unfold region_second_pass.
  rewrite (map_res_raise _ _ ZeroDivisionError); [reflexivity | exact (Hd Hne) |].
  intros [region s] _. unfold Float.div. rewrite Hz. reflexivity.
Qed.

(** The percentage of a zero total as the specification states it fails: on
    the one transaction parsed from a line with quantity 0 the grand total is
    zero, and [region_wise_sales] raises [ZeroDivisionError] where the
    specification asks for a percentage of 0. *)
Theorem region_wise_sales_zero_total_raises :
  parse_transactions [zero_quantity_line]
  = [record "T001" "2024-12-01" "P101" "Laptop" 0 (Float.of_Z 45000) "C001" "North"]
  /\ calculate_total_revenue (parse_transactions [zero_quantity_line]) = Ok Float.zero
  /\ region_wise_sales (parse_transactions [zero_quantity_line]) = Raise ZeroDivisionError.
Proof. vm_compute. repeat split; reflexivity. Qed.

(** The example of the specification: one transaction, one region, 100 %. *)
Example region_wise_sales_example :
  region_wise_sales [laptop_record]
  = Ok [("North", {| RegionStats.total_sales := Float.of_Z 90000;
                     RegionStats.transaction_count := 1;
                     RegionStats.percentage := Some (Float.of_Z 100) |})].
Proof. vm_compute. reflexivity. Qed.

(** ** Facts about binary64 arithmetic *)

Lemma digits2_pos_log2 (m : positive) :
  Zpos (digits2_pos m) = Z.log2 (Zpos m) + 1.
Proof.
  induction m as [m IH|m IH|]; cbn [digits2_pos]; [| |reflexivity];
    rewrite Pos2Z.inj_succ, IH.
  - change (Z.log2 (Zpos m~1)) with (Zpos (Pos.size m)).
    destruct m; cbn [Z.log2 Pos.size]; rewrite ?Pos2Z.inj_succ; lia.
  - change (Z.log2 (Zpos m~0)) with (Zpos (Pos.size m)).
    destruct m; cbn [Z.log2 Pos.size]; rewrite ?Pos2Z.inj_succ; lia.
Qed.

Lemma shr_1_m (r : shr_record) :
  0 <= shr_m r -> shr_m (shr_1 r) = Z.div2 (shr_m r).
Proof.
  destruct r as [m b s]; cbn [shr_m]. intros Hm.
  destruct m as [|[p|p|]|p]; try reflexivity; lia.
Qed.

Lemma iter_pos_nat {A : Type} (f : A -> A) (p : positive) (x : A) :
  SpecFloat.iter_pos f p x = Nat.iter (Pos.to_nat p) f x.
Proof.
  revert x; induction p as [p IH|p IH|]; intros x; cbn [SpecFloat.iter_pos].
  - rewrite !IH, Pos2Nat.inj_xI.
    replace (S (2 * Pos.to_nat p)) with (Pos.to_nat p + S (Pos.to_nat p))%nat by lia.
    rewrite Nat.iter_add, Nat.iter_succ_r. reflexivity.
  - rewrite !IH, Pos2Nat.inj_xO.
    replace (2 * Pos.to_nat p)%nat with (Pos.to_nat p + Pos.to_nat p)%nat by lia.
    rewrite Nat.iter_add. reflexivity.
  - reflexivity.
Qed.

Lemma iter_shr_1_m (n : nat) (r : shr_record) :
  0 <= shr_m r -> shr_m (Nat.iter n shr_1 r) = Z.shiftr (shr_m r) (Z.of_nat n).
Proof.
  intros Hr. induction n as [|n IH].
  - cbn. rewrite Z.shiftr_0_r. reflexivity.
  - rewrite Nat.iter_succ. rewrite shr_1_m.
    + rewrite IH, Z.div2_spec, Z.shiftr_shiftr by lia. f_equal. lia.
    + rewrite IH. apply Z.shiftr_nonneg. exact Hr.
Qed.

(** One truncation step keeps a number of magnitude above [Float.emin] positive,
    keeps its magnitude, and leaves an exponent of at least [Float.emin]. *)
Lemma shr_fexp_positive (m e : Z) (l : location) :
  0 < m -> Float.emin < magnitude m e ->
  let '(r, e') := shr_fexp Float.prec Float.emax m e l in
  0 < shr_m r /\ Float.emin <= e' /\ magnitude (shr_m r) e' = magnitude m e.
Proof.
  intros Hm Hmag. unfold shr_fexp, shr.
  assert (Hd : Zdigits2 m = Z.log2 m + 1).
  { destruct m as [|p|p]; try lia. apply digits2_pos_log2. }
  rewrite Hd. unfold magnitude in *.
  assert (Hrec : shr_m (shr_record_of_loc m l) = m)
    by (destruct l as [|[| |]]; reflexivity).
  pose proof (Z.log2_nonneg m) as Hlog.
  assert (Hfexp : fexp Float.prec Float.emax (Z.log2 m + 1 + e)
                  = Z.max (Z.log2 m + 1 + e - Float.prec) Float.emin) by reflexivity.
  assert (Hprec : Float.prec = 53) by reflexivity.
  destruct (fexp Float.prec Float.emax (Z.log2 m + 1 + e) - e) as [|n|n] eqn:Hn.
  - rewrite Hrec. repeat split; lia.
  - rewrite iter_pos_nat, iter_shr_1_m, Hrec by (rewrite Hrec; lia).
    rewrite positive_nat_Z.
    assert (Hle : Zpos n <= Z.log2 m) by lia.
    assert (Hpos : 0 < Z.shiftr m (Zpos n)).
    { rewrite Z.shiftr_div_pow2 by lia. apply Z.div_str_pos. split.
      - apply Z.pow_pos_nonneg; lia.
      - transitivity (2 ^ Z.log2 m).
        + apply Z.pow_le_mono_r; lia.
        + apply Z.log2_spec; lia. }
    rewrite Z.log2_shiftr by lia. repeat split; lia.
  - rewrite Hrec. repeat split; lia.
Qed.

Lemma round_nearest_even_bounds (m : Z) (l : location) :
  m <= round_nearest_even m l <= m + 1.
Proof.
  unfold round_nearest_even.
  destruct l as [|[| |]]; try lia. destruct (Z.even m); lia.
Qed.

(** Rounding a positive number of magnitude above [Float.emin]: no underflow to
    zero, no change of sign, no loss of magnitude. *)
Lemma binary_round_aux_positive (s : bool) (m e : Z) (l : location) :
  0 < m -> Float.emin < magnitude m e ->
  binary_round_aux Float.prec Float.emax s m e l = S754_infinity s
  \/ exists m' e',
       binary_round_aux Float.prec Float.emax s m e l = S754_finite s m' e'
       /\ Float.emin <= e' /\ magnitude m e <= magnitude (Zpos m') e'.
Proof.
  intros Hm Hmag. unfold binary_round_aux.
  pose proof (shr_fexp_positive m e l Hm Hmag) as H1.
  destruct (shr_fexp Float.prec Float.emax m e l) as [r1 e1].
  destruct H1 as (Hr1 & He1 & Hmag1).
  set (m1 := round_nearest_even (shr_m r1) (loc_of_shr_record r1)).
  pose proof (round_nearest_even_bounds (shr_m r1) (loc_of_shr_record r1)) as Hrd.
  fold m1 in Hrd.
  assert (Hlog : Z.log2 (shr_m r1) <= Z.log2 m1) by (apply Z.log2_le_mono; lia).
  assert (Hm1 : 0 < m1) by lia.
  assert (Hmag1' : Float.emin < magnitude m1 e1).
  { unfold magnitude. pose proof (Z.log2_nonneg m1). lia. }
  pose proof (shr_fexp_positive m1 e1 loc_Exact Hm1 Hmag1') as H2.
  destruct (shr_fexp Float.prec Float.emax m1 e1 loc_Exact) as [r2 e2].
  destruct H2 as (Hr2 & He2 & Hmag2).
  destruct (shr_m r2) as [|m2|m2] eqn:Em2; try lia.
  destruct (e2 <=? Float.emax - Float.prec); [right|left; reflexivity].
  exists m2, e2. split; [reflexivity|]. split; [exact He2|].
  unfold magnitude in *. lia.
Qed.

Lemma pos_iter_xO (m d : positive) :
  Zpos (Pos.iter xO m d) = Zpos m * 2 ^ Zpos d.
Proof.
  induction d as [|d IH] using Pos.peano_ind.
  - cbn. lia.
  - rewrite Pos.iter_succ, Pos2Z.inj_xO, IH, Pos2Z.inj_succ, Z.pow_succ_r by lia. lia.
Qed.

Lemma shl_align_magnitude (m : positive) (e e' : Z) :
  magnitude (Zpos (fst (shl_align m e e'))) (snd (shl_align m e e'))
  = magnitude (Zpos m) e.
Proof.
  unfold shl_align, magnitude. destruct (e' - e) as [|d|d] eqn:Hd; cbn [fst snd]; try lia.
  rewrite pos_iter_xO, Z.log2_mul_pow2 by lia. lia.
Qed.

Lemma binary_round_positive (s : bool) (m : positive) (e : Z) :
  Float.emin < magnitude (Zpos m) e ->
  binary_round Float.prec Float.emax s m e = S754_infinity s
  \/ exists m' e',
       binary_round Float.prec Float.emax s m e = S754_finite s m' e'
       /\ Float.emin <= e' /\ magnitude (Zpos m) e <= magnitude (Zpos m') e'.
Proof.
  intros Hmag. unfold binary_round.
  pose proof (shl_align_magnitude m e
                (fexp Float.prec Float.emax (Zpos (digits2_pos m) + e))) as Hal.
  destruct (shl_align m e (fexp Float.prec Float.emax (Zpos (digits2_pos m) + e))) as [mz ez].
  cbn [fst snd] in Hal. rewrite <- Hal in *.
  apply binary_round_aux_positive; [lia | exact Hmag].
Qed.

(** [float(q)] for a positive integer is at least one. *)
Lemma of_int_positive (q : Z) (f : float) :
  0 < q -> Float.of_int q = Ok f ->
  exists m e, f = S754_finite false m e /\ Float.emin <= e /\ 1 <= magnitude (Zpos m) e.
Proof.
  intros Hq. unfold Float.of_int, Float.of_Z, binary_normalize.
  destruct q as [|q|q]; try lia.
  destruct (binary_round_positive false q 0) as [Hinf | (m & e & Hfin & He & Hmag)].
  - unfold magnitude. pose proof (Z.log2_nonneg (Zpos q)).
    change Float.emin with (-1074). lia.
  - rewrite Hinf. discriminate.
  - rewrite Hfin. intros H; inversion H; subst.
    exists m, e. repeat split; [exact He|].
    unfold magnitude in *. pose proof (Z.log2_nonneg (Zpos q)). lia.
Qed.

Lemma mul_positive (x y : float) :
  (exists m e, x = S754_finite false m e /\ 1 <= magnitude (Zpos m) e) ->
  positive_float y -> positive_float (Float.mul x y).
Proof.
  intros (m1 & e1 & -> & Hmag) Hy.
  destruct y as [[|]|[|]| |[|] m2 e2]; cbn in Hy; try contradiction; [exact I|].
  unfold Float.mul, SFmul. cbn [xorb].
  destruct (binary_round_aux_positive false (Zpos (m1 * m2)) (e1 + e2) loc_Exact)
    as [Hinf | (m & e & Hfin & He & _)].
  - lia.
  - unfold magnitude in *. rewrite Pos2Z.inj_mul.
    pose proof (Z.log2_mul_below (Zpos m1) (Zpos m2) ltac:(lia) ltac:(lia)).
    pose proof (Z.log2_nonneg (Zpos m2)). lia.
  - rewrite Hinf. exact I.
  - rewrite Hfin. exact He.
Qed.

Lemma add_positive (x y : float) :
  positive_float x -> positive_float y -> positive_float (Float.add x y).
Proof.
  intros Hx Hy.
  destruct x as [[|]|[|]| |[|] m1 e1]; cbn in Hx; try contradiction;
    destruct y as [[|]|[|]| |[|] m2 e2]; cbn in Hy; try contradiction; try exact I.
  unfold Float.add, SFadd, cond_Zopp.
  set (ez := Z.min e1 e2).
  set (a := fst (shl_align m1 e1 ez)). set (b := fst (shl_align m2 e2 ez)).
  change (Zpos a + Zpos b) with (Zpos (a + b)). cbn [binary_normalize].
  destruct (binary_round_positive false (a + b) ez) as [Hinf | (m & e & Hfin & He & _)].
  - unfold magnitude. pose proof (Z.log2_nonneg (Zpos (a + b))). unfold ez. lia.
  - rewrite Hinf. exact I.
  - rewrite Hfin. exact He.
Qed.

Lemma add_zero_positive (y : float) :
  positive_float y -> Float.add Float.zero y = y.
Proof. destruct y as [[|]|[|]| |[|] m e]; cbn; intros H; try contradiction; reflexivity. Qed.

(** A well-formed float above zero. *)
Lemma wf_positive (p : float) :
  Float.wf p = true -> Float.ltb Float.zero p = true -> positive_float p.
Proof.
  destruct p as [[|]|[|]| |[|] m e]; try discriminate; try (intros; exact I).
  intros Hwf _. unfold Float.wf, valid_binary, bounded, canonical_mantissa in Hwf.
  apply andb_true_iff in Hwf. destruct Hwf as [Hc _]. apply Z.eqb_eq in Hc.
  unfold fexp in Hc. cbn [positive_float]. fold Float.emin in Hc. lia.
Qed.

(** *** The order on positive floats *)

Lemma ltb_zero_positive (x : float) :
  positive_float x -> Float.ltb Float.zero x = true.
Proof. destruct x as [[|]|[|]| |[|] m e]; cbn; intros H; try contradiction; reflexivity. Qed.

Lemma ltb_positive_finite (m1 m2 : positive) (e1 e2 : Z) :
  Float.ltb (S754_finite false m1 e1) (S754_finite false m2 e2) = true
  <-> e1 < e2 \/ (e1 = e2 /\ (m1 < m2)%positive).
Proof.
  unfold Float.ltb, SFltb, SFcompare.
  destruct (Z.compare_spec e1 e2) as [->|Hlt|Hgt].
  - change (Pos.compare_cont Eq m1 m2) with (Pos.compare m1 m2).
    destruct (Pos.compare_spec m1 m2) as [Hm|Hm|Hm]; split; intros H0;
      try discriminate; try lia; auto.
  - split; auto.
  - split; [discriminate | lia].
Qed.

(** [x <= y < z] gives [x < z]. *)
Lemma ltb_le_lt_trans (x y z : float) :
  positive_float x -> positive_float y -> positive_float z ->
  Float.ltb y x = false -> Float.ltb y z = true -> Float.ltb x z = true.
Proof.
  intros Hx Hy Hz.
  destruct x as [[|]|[|]| |[|] m1 e1]; cbn in Hx; try contradiction;
    destruct y as [[|]|[|]| |[|] m2 e2]; cbn in Hy; try contradiction;
    destruct z as [[|]|[|]| |[|] m3 e3]; cbn in Hz; try contradiction;
    try (cbn; congruence).
  intros H1 H2. apply ltb_positive_finite. apply ltb_positive_finite in H2.
  assert (H1' : ~ (e2 < e1 \/ e2 = e1 /\ (m2 < m1)%positive)).
  { intros H. apply ltb_positive_finite in H. congruence. }
  lia.
Qed.

Lemma ltb_lt_trans (x y z : float) :
  positive_float x -> positive_float y -> positive_float z ->
  Float.ltb x y = true -> Float.ltb y z = true -> Float.ltb x z = true.
Proof.
  intros Hx Hy Hz.
  destruct x as [[|]|[|]| |[|] m1 e1]; cbn in Hx; try contradiction;
    destruct y as [[|]|[|]| |[|] m2 e2]; cbn in Hy; try contradiction;
    destruct z as [[|]|[|]| |[|] m3 e3]; cbn in Hz; try contradiction;
    try (cbn; congruence).
  intros H1 H2. apply ltb_positive_finite.
  apply ltb_positive_finite in H1. apply ltb_positive_finite in H2. lia.
Qed.

Lemma ltb_asym (x y : float) :
  positive_float x -> positive_float y ->
  Float.ltb x y = true -> Float.ltb y x = false.
Proof.
  intros Hx Hy.
  destruct x as [[|]|[|]| |[|] m1 e1]; cbn in Hx; try contradiction;
    destruct y as [[|]|[|]| |[|] m2 e2]; cbn in Hy; try contradiction;
    try (cbn; congruence).
  intros H1. apply ltb_positive_finite in H1.
  destruct (Float.ltb (S754_finite false m2 e2) (S754_finite false m1 e1)) eqn:H2;
    [|reflexivity].
  apply ltb_positive_finite in H2. lia.
Qed.


(** ** Insertion-ordered dictionaries *)

Section Dict.
Context {V : Type}.
Implicit Types (d : dict V) (k : string) (f : V -> V).

Lemma dict_get_update d k k' init f :
  dict_get (dict_update d k init f) k'
  = if String.eqb k k' then Some (f (default init (dict_get d k))) else dict_get d k'.
Proof.
  induction d as [|[k0 v0] d IH]; cbn [dict_update dict_get].
  - destruct (String.eqb_spec k k'); reflexivity.
  - destruct (String.eqb_spec k0 k) as [->|Hne]; cbn [dict_get].
    + destruct (String.eqb_spec k k'); reflexivity.
    + rewrite IH. destruct (String.eqb_spec k0 k') as [->|Hne'].
      * destruct (String.eqb_spec k k'); [congruence | reflexivity].
      * reflexivity.
Qed.

Lemma keys_update d k init f :
  keys (dict_update d k init f)
  = match dict_get d k with Some _ => keys d | None => keys d ++ [k] end.
Proof.
  induction d as [|[k0 v0] d IH]; cbn [dict_update dict_get keys List.map fst]; [reflexivity|].
  destruct (String.eqb_spec k0 k) as [->|Hne]; [reflexivity|].
  cbn [List.map fst]. fold (keys (dict_update d k init f)). rewrite IH.
  destruct (dict_get d k); reflexivity.
Qed.

Lemma dict_get_In d k v : dict_get d k = Some v -> In (k, v) d.
Proof.
  induction d as [|[k0 v0] d IH]; cbn [dict_get]; [discriminate|].
  destruct (String.eqb_spec k0 k) as [->|Hne].
  - intros H; inversion H; subst. left; reflexivity.
  - intros H. right. apply IH, H.
Qed.

Lemma dict_get_None d k : dict_get d k = None <-> ~ In k (keys d).
Proof.
  induction d as [|[k0 v0] d IH]; cbn [dict_get keys List.map fst In]; [tauto|].
  fold (keys d). destruct (String.eqb_spec k0 k) as [->|Hne].
  - split; [discriminate | tauto].
  - rewrite IH. tauto.
Qed.

Lemma In_dict_get d k v : List.NoDup (keys d) -> In (k, v) d -> dict_get d k = Some v.
Proof.
  induction d as [|[k0 v0] d IH]; cbn [dict_get keys List.map fst In]; [tauto|].
  fold (keys d). intros Hnd [Heq|Hin].
  - inversion Heq; subst. rewrite String.eqb_refl. reflexivity.
  - apply List.NoDup_cons_iff in Hnd. destruct Hnd as [Hk Hnd].
    destruct (String.eqb_spec k0 k) as [->|Hne].
    + exfalso. apply Hk. apply (List.in_map fst) in Hin. exact Hin.
    + apply IH; assumption.
Qed.

Lemma In_keys d k : In k (keys d) -> exists v, In (k, v) d.
Proof.
  unfold keys. intros H. apply List.in_map_iff in H.
  destruct H as ([k0 v] & Hk & Hin). cbn in Hk; subst. eauto.
Qed.

(** A loop of updates keeps the keys it starts from, in place, and appends
    the new ones. *)
Lemma keys_fold_update {A : Type} (key : A -> string) (init : V) (upd : A -> V -> V)
    (l : list A) d :
  List.NoDup (keys d) ->
  exists extra,
    keys (fold_left (fun acc x => dict_update acc (key x) init (upd x)) l d) = keys d ++ extra
    /\ List.NoDup (keys d ++ extra)
    /\ (forall k, In k extra -> In k (List.map key l)).
Proof.
  revert d; induction l as [|x l IH]; intros d Hnd; cbn [fold_left].
  - exists []. rewrite app_nil_r. repeat split; [assumption | intros k []].
  - destruct (IH (dict_update d (key x) init (upd x))) as (extra & Hk & Hn & Hin).
    + rewrite keys_update. destruct (dict_get d (key x)) eqn:Hg; [assumption|].
      apply dict_get_None in Hg. apply List.NoDup_app.
      * assumption.
      * constructor; [intros []|constructor].
      * intros k Hk [<-|[]]. contradiction.
    + rewrite keys_update in Hk, Hn. destruct (dict_get d (key x)).
      * exists extra. repeat split; try assumption.
        intros k Hk'. right. apply Hin, Hk'.
      * exists (key x :: extra). rewrite <- app_assoc in Hk, Hn. repeat split; try assumption.
        intros k [<-|Hk']; [left; reflexivity | right; apply Hin, Hk'].
Qed.

End Dict.

(** ** The peak sales day *)

Lemma fold_res_app {A S : Type} (step : S -> A -> res S) (l1 l2 : list A) (s : S) :
  fold_res step (l1 ++ l2) s = let* s' := fold_res step l1 s in fold_res step l2 s'.
Proof.
  revert s; induction l1 as [|x l1 IH]; intros s; cbn [fold_res app bind]; [reflexivity|].
  destruct (step s x) as [s'|e]; cbn [bind]; [apply IH | reflexivity].
Qed.

Lemma map_res_app_inv {A B : Type} (f : A -> res B) (l1 l2 : list A) (r : list B) :
  map_res f (l1 ++ l2) = Ok r ->
  exists r1 r2, r = r1 ++ r2 /\ map_res f l1 = Ok r1 /\ map_res f l2 = Ok r2.
Proof.
  revert r; induction l1 as [|x l1 IH]; intros r H; cbn [map_res app] in *.
  - exists [], r. repeat split; assumption.
  - bind_inv H. bind_inv H. inversion H; subst; clear H.
    destruct (IH _ Ha0) as (r1 & r2 & -> & H1 & H2).
    exists (a :: r1), r2. rewrite Ha, H1. repeat split; assumption.
Qed.

Lemma map_res_total {A B : Type} (f : A -> res B) (l : list A) :
  Forall (fun x => exists y, f x = Ok y) l -> exists r, map_res f l = Ok r.
Proof.
  induction 1 as [|x l [y Hy] _ [r IH]]; cbn [map_res]; [eauto|].
  rewrite Hy, IH; cbn; eauto.
Qed.

Lemma map_res_Forall2 {A B : Type} (f : A -> res B) (l : list A) (r : list B) :
  map_res f l = Ok r -> Forall2 (fun x y => f x = Ok y) l r.
Proof.
  revert r; induction l as [|x l IH]; intros r H; cbn [map_res] in H.
  - inversion H; constructor.
  - bind_inv H. bind_inv H. inversion H; subst. constructor; [assumption | apply IH, Ha0].
Qed.

Lemma dated_amount_Ok tx date a :
  dated_amount tx = Ok (date, a) <-> Date tx = Some date /\ amount tx = Ok a.
Proof.
  unfold dated_amount. destruct (Date tx) as [d|]; cbn.
  - destruct (amount tx) as [a'|e]; cbn; split.
    + intros H; inversion H; subst; split; reflexivity.
    + intros [H1 H2]; inversion H1; inversion H2; subst; reflexivity.
    + discriminate.
    + intros [_ H]; discriminate.
  - split; [discriminate | intros [H _]; discriminate].
Qed.

Section Grouping.
Variables (T : list transaction) (items : list (string * float)).
Hypothesis Hitems : map_res dated_amount T = Ok items.

Lemma dates_of_items : List.map Date T = List.map (fun item => Some (fst item)) items.
Proof using Hitems.
  clear -Hitems. apply map_res_Forall2 in Hitems.
  induction Hitems as [|tx [d a] T' items' H _ IH]; cbn [List.map]; [reflexivity|].
  apply dated_amount_Ok in H. destruct H as [-> _]. rewrite IH. reflexivity.
Qed.

Lemma daily_totals_items : daily_totals T = Ok (group_by_date items).
Proof using Hitems.
  clear -Hitems. unfold daily_totals, group_by_date.
  apply map_res_Forall2 in Hitems. generalize (@nil (string * DayTotals.t)).
  induction Hitems as [|tx [d a] T' items' H _ IH]; intros acc;
    cbn [fold_res fold_left]; [reflexivity|].
  apply dated_amount_Ok in H. destruct H as [-> ->]. cbn. apply IH.
Qed.

Lemma on_date_items date :
  calculate_total_revenue (on_date date T)
  = Ok (sum_floats (List.map snd (of_date date items)))
  /\ len (on_date date T) = len (of_date date items).
Proof using Hitems.
  clear -Hitems. unfold calculate_total_revenue, sum_floats, len.
  apply map_res_Forall2 in Hitems. generalize Float.zero.
  induction Hitems as [|tx [d a] T' items' H _ IH]; intros acc.
  - split; reflexivity.
  - apply dated_amount_Ok in H. destruct H as [Hd Ha].
    unfold on_date, of_date in *. cbn [List.filter fst]. rewrite Hd.
    destruct (String.eqb d date).
    + cbn [fold_res List.map fold_left snd length]. rewrite Ha. cbn [bind].
      destruct (IH (Float.add acc a)) as [IH1 IH2]. split; [exact IH1 | lia].
    + apply IH.
Qed.

End Grouping.

Lemma group_by_date_snoc items item :
  group_by_date (items ++ [item])
  = dict_update (group_by_date items) (fst item) DayTotals.init
      (DayTotals.add_sale (snd item)).
Proof. unfold group_by_date. rewrite fold_left_app. reflexivity. Qed.

Lemma of_date_snoc date items item :
  of_date date (items ++ [item])
  = of_date date items ++ (if String.eqb (fst item) date then [item] else []).
Proof. unfold of_date. rewrite List.filter_app. reflexivity. Qed.

(** What the first loop holds for a date: nothing when the date does not
    occur, else the sum and the count of its amounts. *)
Lemma group_by_date_get items date :
  dict_get (group_by_date items) date
  = match of_date date items with
    | [] => None
    | _ :: _ =>
        Some {| DayTotals.revenue := sum_floats (List.map snd (of_date date items));
                DayTotals.transaction_count := len (of_date date items) |}
    end.
Proof.
  induction items as [|item items IH] using rev_ind; [reflexivity|].
  rewrite group_by_date_snoc, dict_get_update, of_date_snoc.
  destruct (String.eqb_spec (fst item) date) as [Heq|Hne].
  - subst date. rewrite IH. destruct (of_date (fst item) items) as [|x l] eqn:Hl.
    + reflexivity.
    + rewrite <- app_comm_cons. unfold DayTotals.add_sale; cbn.
      f_equal. f_equal.
      * unfold sum_floats. rewrite List.map_app, fold_left_app. reflexivity.
      * unfold len. cbn [length]. rewrite List.length_app. cbn [length]. lia.
  - rewrite app_nil_r. exact IH.
Qed.

Lemma group_by_date_keys items :
  List.NoDup (keys (group_by_date items))
  /\ (forall k, In k (keys (group_by_date items)) <-> In k (List.map fst items)).
Proof.
  split.
  - destruct (keys_fold_update (V := DayTotals.t) fst DayTotals.init
                (fun item => DayTotals.add_sale (snd item)) items [])
      as (extra & Hk & Hn & _); [constructor|].
    unfold group_by_date. rewrite Hk. exact Hn.
  - intros k. split.
    + intros H. destruct (dict_get (group_by_date items) k) as [v|] eqn:Hg.
      * rewrite group_by_date_get in Hg. unfold of_date in Hg.
        destruct (List.filter _ items) as [|x l] eqn:Hf; [discriminate|].
        assert (Hx : In x (List.filter (fun item => String.eqb (fst item) k) items))
          by (rewrite Hf; left; reflexivity).
        apply List.filter_In in Hx. destruct Hx as [Hx Hk]. apply String.eqb_eq in Hk.
        subst k. apply List.in_map, Hx.
      * apply dict_get_None in Hg. contradiction.
    + intros H. apply List.in_map_iff in H. destruct H as (x & <- & Hx).
      assert (Hf : In x (of_date (fst x) items))
        by (apply List.filter_In; split; [assumption | apply String.eqb_refl]).
      pose proof (group_by_date_get items (fst x)) as Hg.
      destruct (of_date (fst x) items); [destruct Hf|].
      apply dict_get_In in Hg. apply (List.in_map fst) in Hg. exact Hg.
Qed.

(** The keys of a prefix of the input stay in front. *)
Lemma group_by_date_keys_app items1 items2 :
  exists extra, keys (group_by_date (items1 ++ items2)) = keys (group_by_date items1) ++ extra.
Proof.
  unfold group_by_date at 1. rewrite fold_left_app. fold (group_by_date items1).
  destruct (keys_fold_update (V := DayTotals.t) fst DayTotals.init
              (fun item => DayTotals.add_sale (snd item)) items2 (group_by_date items1))
    as (extra & Hk & _); [apply group_by_date_keys|].
  exists extra. exact Hk.
Qed.

Lemma sum_floats_positive (l : list float) :
  l <> [] -> Forall positive_float l -> positive_float (sum_floats l).
Proof.
  destruct l as [|a l]; [congruence|]. intros _ H. inversion H as [|? ? Ha Hl]; subst.
  unfold sum_floats. cbn [fold_left]. rewrite add_zero_positive by assumption.
  clear H. revert a Ha. induction Hl as [|b l Hb _ IH]; intros a Ha; cbn [fold_left].
  - exact Ha.
  - apply IH. apply add_positive; assumption.
Qed.

(** ** The second loop: the first greatest total *)

Lemma peak_scan (totals : dict DayTotals.t) :
  Forall (fun item => positive_float (day_revenue item)) totals ->
  totals <> [] ->
  exists earlier date stats later,
    totals = earlier ++ (date, stats) :: later
    /\ fold_left peak_step totals (None, Float.zero, 0)
       = (Some date, DayTotals.revenue stats, DayTotals.transaction_count stats)
    /\ Forall (fun item => Float.ltb (day_revenue item) (DayTotals.revenue stats) = true)
              earlier
    /\ Forall (fun item => Float.ltb (DayTotals.revenue stats) (day_revenue item) = false)
              later.
Proof.
  induction totals as [|[d s] totals IH] using rev_ind; [congruence|].
  intros Hpos _. apply Forall_app in Hpos. destruct Hpos as [Hpos Hs].
  inversion Hs as [|? ? Hs' _]; subst; clear Hs. unfold day_revenue in Hs'; cbn in Hs'.
  rewrite fold_left_app. cbn [fold_left].
  destruct totals as [|t0 totals0].
  - exists [], d, s, []. cbn [fold_left peak_step].
    rewrite (ltb_zero_positive _ Hs'). repeat split; constructor.
  - destruct (IH Hpos ltac:(discriminate)) as (A & date & st & B & Heq & Hfold & HA & HB).
    rewrite Hfold. cbn [peak_step].
    assert (Hst : positive_float (DayTotals.revenue st)).
    { rewrite Heq in Hpos. apply Forall_app in Hpos. destruct Hpos as [_ Hp].
      inversion Hp; subst. assumption. }
    destruct (Float.ltb (DayTotals.revenue st) (DayTotals.revenue s)) eqn:Hlt.
    + exists (t0 :: totals0), d, s, []. repeat split; [|constructor].
      rewrite Heq in Hpos |- *. apply Forall_app. apply Forall_app in Hpos.
      destruct Hpos as [HpA HpB]. inversion HpB as [|? ? _ HpB']; subst. split.
      * apply List.Forall_forall. intros x Hx.
        eapply ltb_lt_trans; [| exact Hst | exact Hs' | | exact Hlt].
        -- apply (proj1 (List.Forall_forall _ _) HpA), Hx.
        -- apply (proj1 (List.Forall_forall _ _) HA), Hx.
      * constructor; [exact Hlt|]. apply List.Forall_forall. intros x Hx.
        eapply ltb_le_lt_trans; [| exact Hst | exact Hs' | | exact Hlt].
        -- apply (proj1 (List.Forall_forall _ _) HpB'), Hx.
        -- apply (proj1 (List.Forall_forall _ _) HB), Hx.
    + exists A, date, st, (B ++ [(d, s)]). repeat split.
      * rewrite Heq, <- app_assoc. reflexivity.
      * exact HA.
      * apply Forall_app. split; [exact HB|]. constructor; [exact Hlt | constructor].
Qed.

Lemma ltb_irrefl (x : float) : positive_float x -> Float.ltb x x = false.
Proof.
  intros Hx. destruct (Float.ltb x x) eqn:H; [|reflexivity].
  rewrite (ltb_asym x x Hx Hx H) in H. discriminate.
Qed.

Lemma valid_dated_amount tx :
  specified_rules tx -> price_well_formed tx -> has_amount tx ->
  exists date a, dated_amount tx = Ok (date, a) /\ positive_float a.
Proof.
  intros (Hall & (q & Hq & Hq0) & (p & Hp & Hp0) & _) (p' & Hp' & Hwf) [a Ha].
  destruct Hall as (_ & [date Hd] & _).
  rewrite Hp in Hp'. inversion Hp'; subst p'; clear Hp'.
  exists date, a. split; [apply dated_amount_Ok; split; assumption|].
  unfold amount in Ha. rewrite Hq, Hp in Ha. cbn [getitem bind] in Ha.
  unfold int_mul_float in Ha. bind_inv Ha. inversion Ha; subst; clear Ha.
  destruct (of_int_positive q a0 Hq0 Ha0) as (m & e & -> & _ & Hmag).
  apply mul_positive; [eauto | apply wf_positive; assumption].
Qed.

Lemma group_by_date_entry items date stats :
  In (date, stats) (group_by_date items) ->
  of_date date items <> []
  /\ DayTotals.revenue stats = sum_floats (List.map snd (of_date date items))
  /\ DayTotals.transaction_count stats = len (of_date date items).
Proof.
  intros Hin. apply In_dict_get in Hin; [|apply group_by_date_keys].
  rewrite group_by_date_get in Hin.
  destruct (of_date date items) as [|x l]; [discriminate|].
  inversion Hin; subst; cbn. repeat split. discriminate.
Qed.

Lemma of_date_positive items date :
  Forall (fun item => positive_float (snd item)) items ->
  Forall positive_float (List.map snd (of_date date items)).
Proof.
  intros H. apply List.Forall_forall. intros a Ha. apply List.in_map_iff in Ha.
  destruct Ha as (x & <- & Hx). apply List.filter_In in Hx.
  apply (proj1 (List.Forall_forall _ _) H), Hx.
Qed.

Lemma keys_app {V : Type} (d1 d2 : dict V) : keys (d1 ++ d2) = keys d1 ++ keys d2.
Proof. apply List.map_app. Qed.

(** Tactics for sample data: a property of each record of a literal list, and
    the rules of the specification on a literal record. *)
Ltac each_record tac :=
  repeat (apply List.Forall_cons; [tac|]); apply List.Forall_nil.

Ltac record_rules :=
  unfold specified_rules, all_fields_present;
  repeat match goal with
         | |- _ /\ _ => split
         | |- is_Some _ => eexists; reflexivity
         | |- field_holds _ _ =>
             eexists; split;
             [reflexivity | first [lia | discriminate | vm_compute; reflexivity]]
         end.

(** C7: on a non-empty collection of valid transactions whose amounts are
    representable, [find_peak_sales_day] returns a date of the collection
    with the total revenue and the number of transactions of that date; no
    date has a greater total, and every date first seen before it has a
    strictly smaller one, so that of the dates with the greatest total the
    first seen is returned; a date replaces the current peak only when its
    total is strictly greater. *)
Theorem find_peak_sales_day_first_greatest T :
  T <> [] ->
  Forall specified_rules T ->
  Forall price_well_formed T ->
  Forall has_amount T ->
  exists date revenue count,
    find_peak_sales_day T = Ok (Some date, revenue, count)
    /\ In (Some date) (List.map Date T)
    /\ calculate_total_revenue (on_date date T) = Ok revenue
    /\ count = len (on_date date T)
    /\ (forall d r,
          In (Some d) (List.map Date T) ->
          calculate_total_revenue (on_date d T) = Ok r ->
          Float.ltb revenue r = false)
    /\ (forall d r,
          seen_before d date T ->
          calculate_total_revenue (on_date d T) = Ok r ->
          Float.ltb r revenue = true)
    /\ (forall peak item,
          Float.ltb (snd (fst peak)) (day_revenue item) = false ->
          peak_step peak item = peak).
Proof.
  intros Hne Hrules Hwf Hamt.
  (* the dates and amounts of the transactions *)
  assert (Hda : Forall (fun tx => exists it, dated_amount tx = Ok it
                                              /\ positive_float (snd it)) T).
  { apply List.Forall_forall. intros tx Htx.
    destruct (valid_dated_amount tx) as (d & a & H1 & H2);
      try (eapply (proj1 (List.Forall_forall _ _)); [|exact Htx]; assumption).
    exists (d, a). split; assumption. }
  destruct (map_res_total dated_amount T) as [items Hitems].
  { eapply List.Forall_impl; [|exact Hda]. intros tx (it & H & _). eauto. }
  assert (Hpos : Forall (fun item => positive_float (snd item)) items).
  { pose proof (map_res_Forall2 _ _ _ Hitems) as HF2. clear -HF2 Hda.
    induction HF2 as [|tx it T' items' H _ IH]; [constructor|].
    inversion Hda as [|? ? (it' & Hit & Hp) Hda']; subst.
    rewrite H in Hit. inversion Hit; subst. constructor; [exact Hp | apply IH, Hda']. }
  pose proof (dates_of_items T items Hitems) as Hdates.
  pose proof (group_by_date_keys items) as [Hnd Hkeys].
  set (D := group_by_date items) in *.
  assert (HposD : Forall (fun item => positive_float (day_revenue item)) D).
  { apply List.Forall_forall. intros [k st] Hin.
    destruct (group_by_date_entry _ _ _ Hin) as (Hn & Hr & _).
    unfold day_revenue; cbn [snd]. rewrite Hr.
    apply sum_floats_positive; [|apply of_date_positive, Hpos].
    intros E. apply List.map_eq_nil in E. contradiction. }
  assert (HneD : D <> []).
  { destruct T as [|tx T']; [congruence|]. destruct items as [|it items'].
    - cbn in Hdates. discriminate.
    - intros E. assert (Hk : In (fst it) (keys D)) by (apply Hkeys; left; reflexivity).
      rewrite E in Hk. destruct Hk. }
  destruct (peak_scan D HposD HneD) as (A & date & st & B & Heq & Hfold & HA & HB).
  assert (HinD : In (date, st) D) by (rewrite Heq; apply List.in_elt).
  destruct (group_by_date_entry _ _ _ HinD) as (_ & Hrev & Hcnt).
  assert (Hst : positive_float (DayTotals.revenue st))
    by (apply (proj1 (List.Forall_forall _ _) HposD (date, st) HinD)).
  assert (Hentry : forall d r,
             In d (keys D) -> calculate_total_revenue (on_date d T) = Ok r ->
             exists st', In (d, st') D /\ DayTotals.revenue st' = r).
  { intros d r Hd Hr. destruct (In_keys _ _ Hd) as [st' Hin]. exists st'. split; [exact Hin|].
    destruct (group_by_date_entry _ _ _ Hin) as (_ & Hr' & _).
    destruct (on_date_items T items Hitems d) as [Hsum _].
    rewrite Hsum in Hr. inversion Hr; subst. exact Hr'. }
  exists date, (DayTotals.revenue st), (DayTotals.transaction_count st).
  split; [|split; [|split; [|split; [|split; [|split]]]]].
  - unfold find_peak_sales_day. rewrite (daily_totals_items T items Hitems). cbn [bind].
    fold D. rewrite Hfold. reflexivity.
  - rewrite Hdates. apply (List.in_map (fun item => Some (fst item))) in HinD as HinK.
    assert (Hk : In date (List.map fst items)).
    { apply Hkeys. apply (List.in_map fst) in HinD. exact HinD. }
    apply List.in_map_iff in Hk. destruct Hk as (x & <- & Hx).
    apply (List.in_map (fun item => Some (fst item))), Hx.
  - destruct (on_date_items T items Hitems date) as [-> _]. rewrite Hrev. reflexivity.
  - destruct (on_date_items T items Hitems date) as [_ ->]. exact Hcnt.
  - intros d r Hd Hr.
    assert (Hk : In d (keys D)).
    { apply Hkeys. rewrite Hdates in Hd. apply List.in_map_iff in Hd.
      destruct Hd as (x & Hx & Hin). inversion Hx; subst. apply List.in_map, Hin. }
    destruct (Hentry d r Hk Hr) as (st' & Hin & <-).
    rewrite Heq in Hin. apply List.in_app_or in Hin. destruct Hin as [Hin|[Hin|Hin]].
    + apply ltb_asym; [| exact Hst |].
      * apply (proj1 (List.Forall_forall _ _) HposD (d, st')).
        rewrite Heq. apply List.in_or_app. left; exact Hin.
      * apply (proj1 (List.Forall_forall _ _) HA (d, st') Hin).
    + inversion Hin; subst. apply ltb_irrefl, Hst.
    + apply (proj1 (List.Forall_forall _ _) HB (d, st') Hin).
  - intros d r (T1 & T2 & HT & Hd & Hdate) Hr.
    subst T. destruct (map_res_app_inv _ _ _ _ Hitems) as (I1 & I2 & HI & H1 & _).
    pose proof (dates_of_items T1 I1 H1) as Hdates1.
    pose proof (group_by_date_keys I1) as [_ Hkeys1].
    assert (Hd1 : In d (keys (group_by_date I1))).
    { apply Hkeys1. rewrite Hdates1 in Hd. apply List.in_map_iff in Hd.
      destruct Hd as (x & Hx & Hin). inversion Hx; subst. apply List.in_map, Hin. }
    assert (Hdate1 : ~ In date (keys (group_by_date I1))).
    { intros H. apply Hdate. rewrite Hdates1. apply Hkeys1 in H.
      apply List.in_map_iff in H. destruct H as (x & <- & Hx).
      apply (List.in_map (fun item => Some (fst item))), Hx. }
    destruct (group_by_date_keys_app I1 I2) as [extra Hextra].
    rewrite <- HI in Hextra. fold D in Hextra.
    rewrite Heq, keys_app in Hextra. cbn [keys List.map fst] in Hextra.
    fold (keys B) in Hextra.
    assert (HdA : In d (keys A)).
    { symmetry in Hextra. apply List.app_eq_app in Hextra.
      destruct Hextra as [l [[Hl1 Hl2]|[Hl1 Hl2]]].
      - destruct l as [|x l].
        + rewrite app_nil_r in Hl1. rewrite <- Hl1. exact Hd1.
        + inversion Hl2; subst x. exfalso. apply Hdate1. rewrite Hl1.
          apply List.in_or_app. right; left; reflexivity.
      - rewrite Hl1. apply List.in_or_app. left; exact Hd1. }
    destruct (In_keys _ _ HdA) as [st' HinA].
    assert (Hk : In d (keys D)).
    { rewrite Heq, keys_app. apply List.in_or_app. left; exact HdA. }
    destruct (Hentry d r Hk Hr) as (st'' & Hin'' & <-).
    assert (st'' = st').
    { apply (In_dict_get _ _ _ Hnd) in Hin''.
      assert (Hin' : In (d, st') D) by (rewrite Heq; apply List.in_or_app; left; exact HinA).
      apply (In_dict_get _ _ _ Hnd) in Hin'. congruence. }
    subst st''. apply (proj1 (List.Forall_forall _ _) HA (d, st') HinA).
  - intros [[pd pr] pc] [d s] H. unfold day_revenue in H; cbn in H.
    cbn [peak_step]. rewrite H. reflexivity.
Qed.

Lemma find_peak_sales_day_witness :
  exists date revenue count,
    find_peak_sales_day [laptop_record; mouse_record; keyboard_record]
    = Ok (Some date, revenue, count)
    /\ In (Some date) (List.map Date [laptop_record; mouse_record; keyboard_record])
    /\ calculate_total_revenue (on_date date [laptop_record; mouse_record; keyboard_record])
       = Ok revenue
    /\ count = len (on_date date [laptop_record; mouse_record; keyboard_record])
    /\ (forall d r,
          In (Some d) (List.map Date [laptop_record; mouse_record; keyboard_record]) ->
          calculate_total_revenue (on_date d [laptop_record; mouse_record; keyboard_record])
          = Ok r ->
          Float.ltb revenue r = false)
    /\ (forall d r,
          seen_before d date [laptop_record; mouse_record; keyboard_record] ->
          calculate_total_revenue (on_date d [laptop_record; mouse_record; keyboard_record])
          = Ok r ->
          Float.ltb r revenue = true)
    /\ (forall peak item,
          Float.ltb (snd (fst peak)) (day_revenue item) = false ->
          peak_step peak item = peak).
Proof.
  apply (find_peak_sales_day_first_greatest [laptop_record; mouse_record; keyboard_record]).
  - discriminate.
  - each_record ltac:(record_rules).
  - each_record ltac:(eexists; split; [reflexivity | vm_compute; reflexivity]).
  - each_record ltac:(eexists; vm_compute; reflexivity).
Defined.

(** Both dates of the sample total 90000; the first one is the peak. *)
Example find_peak_sales_day_tie :
  find_peak_sales_day [laptop_record; mouse_record; keyboard_record]
  = Ok (Some "2024-12-01", Float.of_Z 90000, 1)
  /\ calculate_total_revenue (on_date "2024-12-02" [laptop_record; mouse_record; keyboard_record])
     = Ok (Float.of_Z 90000).
Proof. vm_compute. split; reflexivity. Qed.

(** * Further properties of the code *)

(** ** Sorting *)

Section StableSort.
Context {A : Type} (before : A -> A -> bool).

Lemma insert_sorted_permutation (x : A) (l : list A) :
  Permutation (insert_sorted before x l) (x :: l).
Proof.
  induction l as [|y l IH]; cbn [insert_sorted]; [reflexivity|].
  destruct (before y x); [|reflexivity].
  rewrite IH. apply perm_swap.
Qed.

Lemma stable_sort_permutation (l : list A) : Permutation (stable_sort before l) l.
Proof.
  induction l as [|x l IH]; cbn [stable_sort fold_right]; [reflexivity|].
  fold (stable_sort before l). rewrite insert_sorted_permutation, IH. reflexivity.
Qed.

Lemma stable_sort_length (l : list A) : length (stable_sort before l) = length l.
Proof. apply Permutation_length, stable_sort_permutation. Qed.

Lemma stable_sort_In (l : list A) (x : A) : In x (stable_sort before l) <-> In x l.
Proof.
  split; apply Permutation_in; [|symmetry]; apply stable_sort_permutation.
Qed.

(** On elements that [before] orders as a strict weak order, the result is
    sorted: no element has to come before an earlier one. *)
Lemma stable_sort_sorted (P : A -> Prop) (l : list A) :
  (forall x y, P x -> P y -> before x y = true -> before y x = false) ->
  (forall x y z, P x -> P y -> P z ->
                 before x z = true -> before x y = true \/ before y z = true) ->
  Forall P l ->
  StronglySorted (fun a b => before b a = false) (stable_sort before l).
Proof.
  intros Hasym Hneg HP.
  induction HP as [|x l Hx HP IH]; cbn [stable_sort fold_right]; [constructor|].
  fold (stable_sort before l).
  assert (HPs : Forall P (stable_sort before l)).
  { apply List.Forall_forall. intros y Hy. apply (proj1 (stable_sort_In _ _)) in Hy.
    apply (proj1 (List.Forall_forall _ _) HP), Hy. }
  induction IH as [|y s Hs IHs Hy]; cbn [insert_sorted].
  - constructor; constructor.
  - inversion HPs as [|? ? Py HPs']; subst.
    destruct (before y x) eqn:Hyx.
    + constructor; [apply IHs, HPs'|].
      apply List.Forall_forall. intros z Hz.
      apply (Permutation_in _ (insert_sorted_permutation x s)) in Hz.
      destruct Hz as [<-|Hz]; [apply Hasym; assumption|].
      apply (proj1 (List.Forall_forall _ _) Hy), Hz.
    + constructor; [constructor; assumption|].
      constructor; [exact Hyx|].
      apply List.Forall_forall. intros z Hz.
      destruct (before z x) eqn:Hzx; [|reflexivity].
      assert (Pz : P z) by (apply (proj1 (List.Forall_forall _ _) HPs'), Hz).
      destruct (Hneg z y x Pz Py Hx Hzx) as [H|H]; [|congruence].
      rewrite (proj1 (List.Forall_forall _ _) Hy z Hz) in H. discriminate.
Qed.

(** Stability: the elements of a class that [before] does not order among
    themselves keep their order. *)
Lemma stable_sort_stable (p : A -> bool) (l : list A) :
  (forall x y, p x = true -> p y = true -> before y x = false) ->
  List.filter p (stable_sort before l) = List.filter p l.
Proof.
  intros Hp. induction l as [|x l IH]; cbn [stable_sort fold_right]; [reflexivity|].
  fold (stable_sort before l). cbn [List.filter]. rewrite <- IH.
  generalize (stable_sort before l) as s. clear IH.
  induction s as [|y s IHs]; cbn [insert_sorted List.filter]; [reflexivity|].
  destruct (before y x) eqn:Hyx; cbn [List.filter]; [|reflexivity].
  rewrite IHs. destruct (p x) eqn:Hpx; [|reflexivity].
  destruct (p y) eqn:Hpy; [|reflexivity].
  rewrite (Hp x y Hpx Hpy) in Hyx. discriminate.
Qed.

End StableSort.

(** ** Loops that group by key *)

Lemma fold_res_ext {A S : Type} (f g : S -> A -> res S) (l : list A) (s : S) :
  (forall s x, f s x = g s x) -> fold_res f l s = fold_res g l s.
Proof.
  intros H. revert s; induction l as [|x l IH]; intros s; cbn [fold_res]; [reflexivity|].
  rewrite H. destruct (g s x); cbn [bind]; [apply IH | reflexivity].
Qed.

Section Grouped.
Context {A I V : Type} (item : A -> res I).
Context (key : I -> string) (init : V) (upd : I -> V -> V).

(** A loop whose body reads an item and updates the dictionary returns when
    every item can be read, and then holds the grouping of the items. *)
Lemma fold_res_grouped (l : list A) (d : dict V) :
  fold_res (fun acc x => let* i := item x in Ok (dict_update acc (key i) init (upd i))) l d
  = let* items := map_res item l in Ok (grouped key init upd items d).
Proof.
  revert d; induction l as [|x l IH]; intros d; cbn [fold_res map_res bind]; [reflexivity|].
  destruct (item x) as [i|e]; cbn [bind]; [|reflexivity].
  rewrite IH. destruct (map_res item l); reflexivity.
Qed.

Lemma grouped_snoc (items : list I) (i : I) (d : dict V) :
  grouped key init upd (items ++ [i]) d
  = dict_update (grouped key init upd items d) (key i) init (upd i).
Proof. unfold grouped. rewrite fold_left_app. reflexivity. Qed.

(** What the dictionary holds for a key: nothing when no item has the key,
    else the updates of its items applied in order. *)
Lemma grouped_get (items : list I) (k : string) :
  dict_get (grouped key init upd items []) k
  = match of_key key k items with
    | [] => None
    | _ :: _ => Some (fold_left (fun v i => upd i v) (of_key key k items) init)
    end.
Proof.
  induction items as [|i items IH] using rev_ind; [reflexivity|].
  rewrite grouped_snoc, dict_get_update. unfold of_key in *. rewrite List.filter_app.
  cbn [List.filter]. destruct (String.eqb_spec (key i) k) as [Heq|Hne].
  - subst k. rewrite IH.
    destruct (List.filter (fun item => String.eqb (key item) (key i)) items) as [|x l].
    + reflexivity.
    + cbn [app default fold_left]. rewrite fold_left_app. reflexivity.
  - rewrite app_nil_r. exact IH.
Qed.

Lemma grouped_keys (items : list I) :
  List.NoDup (keys (grouped key init upd items []))
  /\ (forall k, In k (keys (grouped key init upd items [])) <-> In k (List.map key items)).
Proof.
  split.
  - destruct (keys_fold_update key init upd items []) as (extra & Hk & Hn & _);
      [constructor|].
    unfold grouped. rewrite Hk. exact Hn.
  - intros k. split.
    + intros H. destruct (dict_get (grouped key init upd items []) k) as [v|] eqn:Hg.
      * rewrite grouped_get in Hg. unfold of_key in Hg.
        destruct (List.filter _ items) as [|x l] eqn:Hf; [discriminate|].
        assert (Hx : In x (List.filter (fun item => String.eqb (key item) k) items))
          by (rewrite Hf; left; reflexivity).
        apply List.filter_In in Hx. destruct Hx as [Hx Hk]. apply String.eqb_eq in Hk.
        subst k. apply List.in_map, Hx.
      * apply dict_get_None in Hg. contradiction.
    + intros H. apply List.in_map_iff in H. destruct H as (x & <- & Hx).
      assert (Hf : In x (of_key key (key x) items))
        by (apply List.filter_In; split; [assumption | apply String.eqb_refl]).
      pose proof (grouped_get items (key x)) as Hg.
      destruct (of_key key (key x) items); [destruct Hf|].
      apply dict_get_In in Hg. apply (List.in_map fst) in Hg. exact Hg.
Qed.

(** An entry of the dictionary is the fold of the items of its key, of which
    there is at least one. *)
Lemma grouped_entry (items : list I) (k : string) (v : V) :
  In (k, v) (grouped key init upd items []) ->
  of_key key k items <> []
  /\ v = fold_left (fun v i => upd i v) (of_key key k items) init.
Proof.
  intros Hin. apply In_dict_get in Hin; [|apply grouped_keys].
  rewrite grouped_get in Hin.
  destruct (of_key key k items) as [|x l]; [discriminate|].
  inversion Hin; subst. split; [discriminate | reflexivity].
Qed.

(** A measure that is 0 on [init] and that every update raises by the weight
    of its item sums, over the dictionary, to the total weight. *)
Lemma dict_sum_update (measure : V -> Z) (d : dict V) (k : string) (f : V -> V) (w : Z) :
  measure init = 0 ->
  (forall v, measure (f v) = measure v + w) ->
  dict_sum measure (dict_update d k init f) = dict_sum measure d + w.
Proof.
  intros H0 Hf. induction d as [|[k' v] d IH]; cbn [dict_update dict_sum fold_right snd].
  - rewrite Hf, H0. lia.
  - destruct (String.eqb k' k); cbn [dict_sum fold_right snd].
    + rewrite Hf. fold (dict_sum measure d). lia.
    + fold (dict_sum measure (dict_update d k init f)) (dict_sum measure d).
      rewrite IH. lia.
Qed.

Lemma dict_sum_grouped (measure : V -> Z) (weight : I -> Z) (items : list I) (d : dict V) :
  measure init = 0 ->
  (forall i v, measure (upd i v) = measure v + weight i) ->
  dict_sum measure (grouped key init upd items d)
  = dict_sum measure d + fold_right Z.add 0 (List.map weight items).
Proof.
  intros H0 Hu. revert d; induction items as [|i items IH]; intros d;
    cbn [grouped fold_left List.map fold_right]; [lia|].
  fold (grouped key init upd items (dict_update d (key i) init (upd i))).
  rewrite IH, (dict_sum_update measure d (key i) (upd i) (weight i) H0 (Hu i)). lia.
Qed.

End Grouped.

Lemma dict_sum_permutation {V : Type} (measure : V -> Z) (d d' : dict V) :
  Permutation d d' -> dict_sum measure d = dict_sum measure d'.
Proof.
  unfold dict_sum.
  induction 1 as [|x l l' _ IH|x y l|l l' l'' _ IH1 _ IH2]; cbn [fold_right].
  - reflexivity.
  - rewrite IH. reflexivity.
  - lia.
  - rewrite IH1. exact IH2.
Qed.

Lemma dict_sum_map {V W : Type} (measure : V -> Z) (measure' : W -> Z)
    (g : string * V -> string * W) (d : dict V) :
  (forall e, measure' (snd (g e)) = measure (snd e)) ->
  dict_sum measure' (List.map g d) = dict_sum measure d.
Proof.
  intros H. induction d as [|e d IH]; cbn [dict_sum List.map fold_right]; [reflexivity|].
  fold (dict_sum measure' (List.map g d)) (dict_sum measure d). rewrite H, IH. reflexivity.
Qed.

Lemma sum_ones {A : Type} (l : list A) :
  fold_right Z.add 0 (List.map (fun _ => 1) l) = len l.
Proof.
  unfold len. induction l as [|x l IH]; cbn [List.map fold_right length]; lia.
Qed.

(** ** More on validate_and_filter *)

Lemma filter_res_Ok_filter {A : Type} (p : A -> res bool) (l r : list A) :
  filter_res p l = Ok r ->
  r = List.filter (fun x => match p x with Ok b => b | Raise _ => false end) l.
Proof.
  revert r; induction l as [|x l IH]; intros r H; cbn [filter_res List.filter] in *.
  - inversion H; reflexivity.
  - bind_inv H. bind_inv H. inversion H; subst; clear H.
    rewrite Ha, <- (IH _ Ha0). destruct a; reflexivity.
Qed.

Lemma filter_filter_and {A : Type} (f g : A -> bool) (l : list A) :
  List.filter g (List.filter f l) = List.filter (fun x => f x && g x) l.
Proof.
  induction l as [|x l IH]; cbn [List.filter]; [reflexivity|].
  destruct (f x); cbn [List.filter andb]; [destruct (g x)|]; rewrite IH; reflexivity.
Qed.

Lemma region_filter_keeps region l V n :
  region_filter region l = Ok (V, n) -> V = List.filter (region_kept region) l.
Proof.
  unfold region_filter, region_kept. destruct (truthy region).
  - intros H. bind_inv H. inversion H; subst; clear H.
    rewrite (filter_res_Ok_filter _ _ _ Ha). apply List.filter_ext.
    intros tx. unfold region_matches. destruct (Region tx), region; reflexivity.
  - intros H; inversion H; subst. clear H.
    induction V as [|x V IH]; cbn [List.filter]; [reflexivity|]. rewrite <- IH. reflexivity.
Qed.

Lemma amount_filter_keeps mn mx l V n :
  amount_filter mn mx l = Ok (V, n) -> V = List.filter (amount_kept mn mx) l.
Proof.
  unfold amount_filter, amount_kept.
  assert (Hgen : (let* kept := filter_res (in_range mn mx) l in Ok (kept, len l - len kept))
                 = Ok (V, n) ->
                 V = List.filter
                       (fun tx =>
                          match amount tx with
                          | Ok a =>
                              negb (match mn with Some m => Float.ltb a m | None => false end)
                              && negb (match mx with Some m => Float.ltb m a | None => false end)
                          | Raise _ => false
                          end) l).
  { intros H. bind_inv H. inversion H; subst; clear H.
    rewrite (filter_res_Ok_filter _ _ _ Ha). apply List.filter_ext.
    intros tx. unfold in_range. destruct (amount tx) as [a0|e]; cbn [bind]; [|reflexivity].
    destruct (match mn with Some m => Float.ltb a0 m | None => false end); [reflexivity|].
    destruct (match mx with Some m => Float.ltb m a0 | None => false end); reflexivity. }
  destruct mn, mx; try exact Hgen.
  intros H; inversion H; subst. clear.
  induction V as [|x V IH]; cbn [List.filter]; [reflexivity|]. rewrite <- IH. reflexivity.
Qed.

(** X1: when [validate_and_filter] returns, [valid_records] is the input
    with exactly the records removed that fail validation, the region test
    or the amount test, in the order of the input; [invalid_count] does not
    depend on the filters. *)
Theorem validate_and_filter_keeps T region mn mx V ic s :
  validate_and_filter T region mn mx = Ok (V, ic, s) ->
  V = List.filter
        (fun tx => passes_validation tx && region_kept region tx && amount_kept mn mx tx) T
  /\ (forall tx, In tx V ->
        In tx T /\ passes_validation tx = true
        /\ (truthy region = true -> Region tx = region)
        /\ (forall a m, amount tx = Ok a -> mn = Some m -> Float.ltb a m = false)
        /\ (forall a m, amount tx = Ok a -> mx = Some m -> Float.ltb m a = false))
  /\ exists V0 s0, validate_and_filter T None None None = Ok (V0, ic, s0) /\ incl V V0.
Proof.
  intros H. pose proof H as H0. apply validate_and_filter_Ok in H.
  destruct H as (V1 & n1 & n2 & Hd & Hic & Hr & Ha & _).
  apply region_filter_keeps in Hr. apply amount_filter_keeps in Ha.
  assert (HV : V = List.filter
                     (fun tx => passes_validation tx && region_kept region tx
                                && amount_kept mn mx tx) T).
  { rewrite Ha, Hr, (filter_filter_and passes_validation), filter_filter_and.
    reflexivity. }
  split; [exact HV|]. split.
  - intros tx Htx. rewrite HV in Htx. apply List.filter_In in Htx.
    destruct Htx as [Hin Hk]. apply andb_true_iff in Hk. destruct Hk as [Hk Hak].
    apply andb_true_iff in Hk. destruct Hk as [Hp Hrk].
    split; [exact Hin|]. split; [exact Hp|]. split; [|split].
    + intros Ht. unfold region_kept in Hrk. rewrite Ht in Hrk.
      destruct (Region tx) as [r|], region as [s0|]; try discriminate.
      apply String.eqb_eq in Hrk. subst; reflexivity.
    + intros a m Hamt ->. unfold amount_kept in Hak. rewrite Hamt in Hak.
      destruct mx; apply andb_true_iff in Hak; destruct Hak as [Hak _];
        apply negb_true_iff in Hak; exact Hak.
    + intros a m Hamt ->. unfold amount_kept in Hak. rewrite Hamt in Hak.
      destruct mn; apply andb_true_iff in Hak; destruct Hak as [_ Hak];
        apply negb_true_iff in Hak; exact Hak.
  - destruct (validate_and_filter_total T None None None Hd) as (V0 & ic0 & s0 & H00).
    pose proof H00 as H01. apply validate_and_filter_Ok in H01.
    destruct H01 as (V1' & n1' & n2' & _ & Hic' & Hr' & Ha' & _).
    cbn in Hr', Ha'. inversion Hr'; subst V1'. inversion Ha'; subst V0.
    exists (List.filter passes_validation T), s0. rewrite <- Hic' in Hic. subst ic0.
    split; [exact H00|].
    intros tx Htx. rewrite HV in Htx. apply List.filter_In in Htx.
    destruct Htx as [Hin Hk]. apply andb_true_iff in Hk. destruct Hk as [Hk _].
    apply andb_true_iff in Hk. destruct Hk as [Hp _].
    apply List.filter_In. split; assumption.
Qed.

Lemma validate_and_filter_keeps_witness :
  exists V ic s,
    validate_and_filter sample_batch (Some "North") (Some (Float.of_Z 86000)) None
    = Ok (V, ic, s)
    /\ (V = List.filter
              (fun tx => passes_validation tx && region_kept (Some "North") tx
                         && amount_kept (Some (Float.of_Z 86000)) None tx) sample_batch
        /\ (forall tx, In tx V ->
              In tx sample_batch /\ passes_validation tx = true
              /\ (truthy (Some "North") = true -> Region tx = Some "North")
              /\ (forall a m, amount tx = Ok a -> Some (Float.of_Z 86000) = Some m ->
                              Float.ltb a m = false)
              /\ (forall a m, amount tx = Ok a -> @None float = Some m ->
                              Float.ltb m a = false))
        /\ exists V0 s0,
             validate_and_filter sample_batch None None None = Ok (V0, ic, s0)
             /\ incl V V0).
Proof.
  eexists _, _, _. split; [vm_compute; reflexivity|].
  apply (validate_and_filter_keeps sample_batch (Some "North")
           (Some (Float.of_Z 86000)) None _ _
           {| total_input := 6; invalid := 1; filtered_by_region := 2;
              filtered_by_amount := 1; final_count := 2 |}).
  vm_compute; reflexivity.
Defined.

Lemma existsb_In {A : Type} (f : A -> bool) (l : list A) (x : A) :
  In x l -> f x = true -> existsb f l = true.
Proof. intros Hin Hf. apply existsb_exists. exists x. split; assumption. Qed.

(** X2: a transaction without the ["Region"] key next to one that has it
    makes [validate_and_filter] raise [TypeError] when it sorts the regions
    for display, before any record is validated, whatever the filters. *)
Theorem validate_and_filter_mixed_regions T region mn mx tx1 tx2 :
  Forall amount_defined T ->
  In tx1 T -> Region tx1 = None ->
  In tx2 T -> Region tx2 <> None ->
  validate_and_filter T region mn mx = Raise TypeError.
Proof.
  intros Hdef H1 R1 H2 R2. apply validate_and_filter_raises.
  unfold display. destruct (display_loop_total T [] Hdef) as [r ->]. cbn [bind].
  unfold sorted_regions.
  rewrite (existsb_In (fun tx => negb (has_region tx)) T tx1 H1)
    by (unfold has_region; rewrite R1; reflexivity).
  rewrite (existsb_In has_region T tx2 H2)
    by (unfold has_region; destruct (Region tx2); [reflexivity | congruence]).
  reflexivity.
Qed.

Lemma validate_and_filter_mixed_regions_witness :
  validate_and_filter [no_region_record; laptop_record] None None None = Raise TypeError.
Proof.
  apply (validate_and_filter_mixed_regions [no_region_record; laptop_record]
           None None None no_region_record laptop_record).
  - repeat (apply List.Forall_cons; [eexists; vm_compute; reflexivity|]).
    apply List.Forall_nil.
  - left; reflexivity.
  - reflexivity.
  - right; left; reflexivity.
  - discriminate.
Defined.

(** Alone, records without a region are counted as invalid. *)
Example validate_and_filter_no_region_alone :
  validate_and_filter [no_region_record] None None None
  = Ok ([], 1, {| total_input := 1; invalid := 1; filtered_by_region := 0;
                  filtered_by_amount := 0; final_count := 0 |}).
Proof. vm_compute. reflexivity. Qed.

(** ** Reading and parsing *)

Section Strip.
Variable space : ascii -> bool.

Lemma lstrip_head (s : string) :
  lstrip space s = "" \/ exists a r, lstrip space s = String a r /\ space a = false.
Proof.
  induction s as [|a s IH]; cbn [lstrip]; [left; reflexivity|].
  destruct (space a) eqn:Ha; [exact IH | right; eauto].
Qed.

Lemma lstrip_fixed (a : ascii) (r : string) :
  space a = false -> lstrip space (String a r) = String a r.
Proof. intros H. cbn [lstrip]. rewrite H. reflexivity. Qed.

Lemma rstrip_idempotent (s : string) : rstrip space (rstrip space s) = rstrip space s.
Proof.
  induction s as [|a s IH]; cbn [rstrip]; [reflexivity|].
  destruct (rstrip space s) as [|b r] eqn:Hr.
  - destruct (space a) eqn:Ha; cbn [rstrip]; [reflexivity|]. rewrite Ha. reflexivity.
  - cbn [rstrip]. cbn [rstrip] in IH.
    destruct (rstrip space r) as [|c r'] eqn:Hr'.
    + destruct (space b); [discriminate|]. inversion IH; subst. reflexivity.
    + inversion IH; subst. reflexivity.
Qed.

Lemma rstrip_head (a : ascii) (r : string) :
  space a = false -> exists r', rstrip space (String a r) = String a r'.
Proof.
  intros H. cbn [rstrip]. destruct (rstrip space r); [rewrite H|]; eauto.
Qed.

Lemma strip_with_idempotent (s : string) :
  rstrip space (lstrip space (rstrip space (lstrip space s))) = rstrip space (lstrip space s).
Proof.
  destruct (lstrip_head s) as [-> | (a & r & -> & Ha)]; [reflexivity|].
  destruct (rstrip_head a r Ha) as [r' Hr']. rewrite Hr', (lstrip_fixed a r' Ha), <- Hr'.
  apply rstrip_idempotent.
Qed.

End Strip.

Lemma strip_idempotent (s : string) : strip (strip s) = strip s.
Proof. apply strip_with_idempotent. Qed.

Lemma cleaned_lines_flat_map lines :
  cleaned_lines lines
  = flat_map
      (fun line =>
         if String.eqb (strip line) "" then []
         else if startswith (strip line) "TransactionID" then []
         else [strip line])
      lines.
Proof.
  unfold cleaned_lines.
  assert (Hgen : forall acc,
             fold_left
               (fun cleaned_lines line =>
                  let line := strip line in
                  if String.eqb line "" then cleaned_lines
                  else if startswith line "TransactionID" then cleaned_lines
                  else cleaned_lines ++ [line])
               lines acc
             = acc ++ flat_map
                 (fun line =>
                    if String.eqb (strip line) "" then []
                    else if startswith (strip line) "TransactionID" then []
                    else [strip line])
                 lines).
  { induction lines as [|line lines IH]; intros acc; cbn [fold_left flat_map].
    - rewrite app_nil_r; reflexivity.
    - rewrite IH. destruct (String.eqb (strip line) ""); [reflexivity|].
      destruct (startswith (strip line) "TransactionID"); [reflexivity|].
      rewrite <- app_assoc. reflexivity. }
  rewrite Hgen. reflexivity.
Qed.

Lemma cleaned_lines_clean lines : Forall clean_line (cleaned_lines lines).
Proof.
  rewrite cleaned_lines_flat_map. apply List.Forall_forall. intros s Hs.
  apply List.in_flat_map in Hs. destruct Hs as (line & _ & Hs).
  destruct (String.eqb_spec (strip line) "") as [|Hne]; [destruct Hs|].
  destruct (startswith (strip line) "TransactionID") eqn:Hh; [destruct Hs|].
  destruct Hs as [<-|[]]. repeat split; [apply strip_idempotent | exact Hne | exact Hh].
Qed.

Lemma cleaned_lines_fixed lines : Forall clean_line lines -> cleaned_lines lines = lines.
Proof.
  intros H. rewrite cleaned_lines_flat_map.
  induction H as [|s l (Hs & Hne & Hh) _ IH]; cbn [flat_map]; [reflexivity|].
  rewrite Hs, Hh. destruct (String.eqb_spec s ""); [contradiction|].
  rewrite IH. reflexivity.
Qed.

Lemma read_attempts_clean attempts : Forall clean_line (read_attempts attempts).
Proof.
  induction attempts as [|[lines| |] rest IH]; cbn [read_attempts];
    [constructor | apply cleaned_lines_clean | exact IH | constructor].
Qed.

(** X3: whatever opening the file gives under the three encodings,
    [read_sales_data] returns lines that are stripped, not empty and do not
    begin with the header token; cleaning such lines again changes nothing.
    A missing file gives the empty list, and so do three decoding errors. *)
Theorem read_sales_data_clean readlines :
  Forall clean_line (read_sales_data readlines)
  /\ cleaned_lines (read_sales_data readlines) = read_sales_data readlines
  /\ (readlines "utf-8" = FileNotFoundError -> read_sales_data readlines = [])
  /\ ((forall encoding, readlines encoding = UnicodeDecodeError) ->
      read_sales_data readlines = []).
Proof.
  split; [apply read_attempts_clean|]. split; [apply cleaned_lines_fixed, read_attempts_clean|].
  unfold read_sales_data, encodings; cbn [List.map]. split.
  - intros ->. reflexivity.
  - intros H. rewrite !H. reflexivity.
Qed.

(** A file whose first decoding fails: the second attempt is cleaned. *)
Example read_sales_data_sample :
  read_sales_data sample_file
  = ["T001|2024-12-01|P101|Laptop|2|45000|C001|North";
     "T002|2024-12-02|P999|Mouse, Wireless|1,0|500|C002|South"].
Proof. vm_compute. reflexivity. Qed.

Lemma split_head (sep : ascii) (s : string) :
  exists field fields, split sep s = field :: fields /\ String.prefix field s = true.
Proof.
  induction s as [|a s (f & fs & Hs & Hp)]; cbn [split].
  - exists "", []. split; reflexivity.
  - destruct (Ascii.eqb a sep).
    + exists "", (split sep s). split; reflexivity.
    + rewrite Hs. exists (String a f), fs. split; [reflexivity|].
      cbn [String.prefix]. destruct (ascii_dec a a); [exact Hp | contradiction].
Qed.

Lemma prefix_trans (p f s : string) :
  String.prefix p f = true -> String.prefix f s = true -> String.prefix p s = true.
Proof.
  revert f s; induction p as [|a p IH]; intros f s H1 H2; [destruct s; reflexivity|].
  destruct f as [|b f]; [discriminate|]. destruct s as [|c s]; [discriminate|].
  cbn [String.prefix] in *.
  destruct (ascii_dec a b); [subst b|discriminate].
  destruct (ascii_dec a c); [|discriminate]. eapply IH; eassumption.
Qed.

Lemma no_comma_remove_char (s : string) :
  ~ In ","%char (list_ascii_of_string (remove_char "," s)).
Proof.
  induction s as [|a s IH]; cbn [remove_char]; [intros []|].
  destruct (Ascii.eqb_spec a ","); [exact IH|].
  cbn [list_ascii_of_string]. intros [H|H]; [congruence | exact (IH H)].
Qed.

Lemma parsed_records lines :
  Forall (fun tx =>
            all_fields_present tx
            /\ field_holds (ProductName tx)
                 (fun name => ~ In ","%char (list_ascii_of_string name)))
         (parse_transactions lines).
Proof.
  rewrite parse_transactions_flat_map.
  apply List.Forall_forall. intros tx Htx. apply List.in_flat_map in Htx.
  destruct Htx as (line & _ & Htx). destruct (parse_line line) as [tx'|] eqn:Hp;
    [|destruct Htx]. destruct Htx as [<-|[]].
  apply parse_line_Some in Hp.
  destruct Hp as (tid & date & pid & name & qty & price & cid & region & q & p
                  & _ & _ & _ & ->).
  split.
  - unfold all_fields_present, record; cbn. repeat split; eexists; reflexivity.
  - exists (remove_char "," name). split; [reflexivity | apply no_comma_remove_char].
Qed.

(** X4: [parse_transactions] emits at most one record per line, and every
    record it emits has all eight fields and a product name without commas. *)
Theorem parse_transactions_records lines :
  (length (parse_transactions lines) <= length lines)%nat
  /\ Forall (fun tx =>
               all_fields_present tx
               /\ field_holds (ProductName tx)
                    (fun name => ~ In ","%char (list_ascii_of_string name)))
            (parse_transactions lines).
Proof.
  split; [|apply parsed_records]. rewrite parse_transactions_flat_map.
  induction lines as [|line lines IH]; cbn [flat_map length]; [lia|].
  rewrite List.length_app. destruct (parse_line line); cbn [kept length]; lia.
Qed.

(** X5: no record parsed from the lines [read_sales_data] returns has a
    transaction identifier that begins with the header token. *)
Theorem read_then_parse_no_header readlines tx :
  In tx (parse_transactions (read_sales_data readlines)) ->
  exists tid, TransactionID tx = Some tid /\ startswith tid "TransactionID" = false.
Proof.
  rewrite parse_transactions_flat_map. intros Htx. apply List.in_flat_map in Htx.
  destruct Htx as (line & Hline & Htx).
  destruct (parse_line line) as [tx'|] eqn:Hp; [|destruct Htx]. destruct Htx as [<-|[]].
  apply parse_line_Some in Hp.
  destruct Hp as (tid & date & pid & name & qty & price & cid & region & q & p
                  & Hs & _ & _ & ->).
  exists tid. split; [reflexivity|].
  pose proof (read_attempts_clean (List.map readlines encodings)) as Hclean.
  apply (proj1 (List.Forall_forall _ _) Hclean) in Hline. destruct Hline as (_ & _ & Hh).
  destruct (startswith tid "TransactionID") eqn:Ht; [|reflexivity].
  destruct (split_head "|" line) as (f & fs & Hs' & Hpre).
  rewrite Hs in Hs'. inversion Hs'; subst f.
  unfold startswith in *. rewrite (prefix_trans _ _ _ Ht Hpre) in Hh. discriminate.
Qed.

Lemma read_then_parse_no_header_witness :
  exists tid,
    TransactionID (record "T001" "2024-12-01" "P101" "Laptop" 2 (Float.of_Z 45000)
                          "C001" "North") = Some tid
    /\ startswith tid "TransactionID" = false.
Proof.
  apply (read_then_parse_no_header sample_file).
  vm_compute. left; reflexivity.
Defined.

Lemma fold_res_Raise {A S : Type} (f : S -> A -> res S) (l : list A) (s : S) (e : exn) :
  fold_res f l s = Raise e -> exists s' x, In x l /\ f s' x = Raise e.
Proof.
  revert s; induction l as [|x l IH]; intros s H; cbn [fold_res] in H; [discriminate|].
  destruct (f s x) as [s'|e'] eqn:Hf; cbn [bind] in H.
  - destruct (IH _ H) as (s'' & y & Hy & Hfy). exists s'', y. split; [right|]; assumption.
  - inversion H; subst. exists s, x. split; [left; reflexivity | exact Hf].
Qed.

Lemma int_mul_float_Raise q p e : int_mul_float q p = Raise e -> e = OverflowError.
Proof.
  unfold int_mul_float, Float.of_int. destruct (Float.of_Z q); cbn; congruence.
Qed.

Lemma validate_and_filter_Raise T region mn mx e :
  validate_and_filter T region mn mx = Raise e -> display T = Raise e.
Proof.
  intros H. destruct (display T) as [[]|e'] eqn:Hd.
  - destruct (validate_and_filter_total T region mn mx Hd) as (V & ic & s & H').
    congruence.
  - rewrite (validate_and_filter_raises T region mn mx e' Hd) in H. congruence.
Qed.

(** X6: on the records of [parse_transactions], [validate_and_filter]
    either returns or raises [OverflowError]: parsed records have a region,
    so sorting the regions cannot fail, and the only failure left is a
    quantity too large to convert to a float. *)
Theorem validate_after_parse lines region mn mx :
  (exists V ic s,
     validate_and_filter (parse_transactions lines) region mn mx = Ok (V, ic, s))
  \/ (validate_and_filter (parse_transactions lines) region mn mx = Raise OverflowError
      /\ exists tx q,
           In tx (parse_transactions lines) /\ Quantity tx = Some q
           /\ Float.of_int q = Raise OverflowError).
Proof.
  destruct (validate_and_filter (parse_transactions lines) region mn mx)
    as [[[V ic] s]|e] eqn:H; [left; eauto|right].
  apply validate_and_filter_Raise in H. unfold display in H.
  destruct (fold_res _ (parse_transactions lines) []) as [r|e'] eqn:Hloop; cbn [bind] in H.
  - exfalso. rewrite sorted_regions_all in H; [discriminate|].
    pose proof (parsed_records lines) as Hf.
    eapply List.Forall_impl; [|exact Hf]. intros tx ((_ & _ & _ & _ & _ & _ & _ & [r' Hr]) & _).
    unfold has_region. rewrite Hr. reflexivity.
  - inversion H; subst e'. clear H. apply fold_res_Raise in Hloop.
    destruct Hloop as (acc & tx & Hin & Htx).
    unfold display_amount in Htx. destruct (UnitPrice tx) as [p|]; [|discriminate].
    destruct (int_mul_float (default 0 (Quantity tx)) p) as [a|e'] eqn:Hm; [discriminate|].
    cbn [bind] in Htx. inversion Htx; subst e'.
    pose proof (int_mul_float_Raise _ _ _ Hm) as ->. split; [reflexivity|].
    pose proof (parsed_records lines) as Hf.
    apply (proj1 (List.Forall_forall _ _) Hf) in Hin as Hall.
    destruct Hall as ((_ & _ & _ & _ & [q Hq] & _) & _).
    exists tx, q. repeat split; [exact Hin | exact Hq|].
    rewrite Hq in Hm. change (default 0 (Some q)) with q in Hm. unfold int_mul_float in Hm.
    destruct (Float.of_int q) as [qf|e'] eqn:Hq'; cbn [bind] in Hm; [discriminate|].
    exact Hm.
Qed.

(** ** The pipeline of split_sales_data and clean_sales_data *)

Lemma split_sales_data_cleaned lines :
  split_sales_data lines = List.map (split "|") (cleaned_lines lines).
Proof.
  rewrite split_sales_data_flat_map, cleaned_lines_flat_map.
  induction lines as [|line lines IH]; cbn [flat_map List.map]; [reflexivity|].
  rewrite List.map_app, IH. destruct (String.eqb (strip line) ""); [reflexivity|].
  destruct (startswith (strip line) "TransactionID"); reflexivity.
Qed.

Lemma clean_row_parse_line line :
  clean_row (split "|" line)
  = match parse_line line with
    | Some tx => if legacy_rules tx then Some tx else None
    | None => None
    end.
Proof.
  unfold clean_row, parse_line.
  destruct (split "|" line) as [|tid [|date [|pid [|name [|qty [|price [|cid [|region
    [|extra rest]]]]]]]]]; try reflexivity.
  destruct (py_int (remove_char "," qty)) as [q|];
    [|destruct (negb (startswith tid "T")); [|destruct (_ || _)]; reflexivity].
  destruct (py_float (remove_char "," price)) as [p|];
    [|destruct (negb (startswith tid "T")); [|destruct (_ || _)]; reflexivity].
  unfold legacy_rules, record;
    cbn [TransactionID Quantity UnitPrice CustomerID Region].
  destruct (startswith tid "T"); cbn [negb andb]; [|reflexivity].
  destruct (String.eqb cid "" || String.eqb region ""); cbn [negb andb]; [reflexivity|].
  destruct ((q <=? 0) || Float.leb p Float.zero); reflexivity.
Qed.

Lemma clean_after_split lines :
  clean_sales_data (split_sales_data lines)
  = List.filter legacy_rules (parse_transactions (cleaned_lines lines)).
Proof.
  rewrite split_sales_data_cleaned, clean_sales_data_flat_map, parse_transactions_flat_map.
  induction (cleaned_lines lines) as [|line l IH]; cbn [List.map flat_map]; [reflexivity|].
  rewrite List.filter_app, IH, clean_row_parse_line. f_equal.
  destruct (parse_line line) as [tx|]; cbn [kept List.filter]; [|reflexivity].
  destruct (legacy_rules tx); reflexivity.
Qed.

(** X7: the pipeline of [split_sales_data] and [clean_sales_data] gives the
    records that [parse_transactions] builds from the cleaned lines of
    [read_sales_data], with the ones removed that fail the checks of
    [clean_sales_data], in the same order. *)
Theorem clean_sales_data_parse_transactions lines :
  clean_sales_data (split_sales_data lines)
  = List.filter legacy_rules (parse_transactions (cleaned_lines lines))
  /\ incl (clean_sales_data (split_sales_data lines))
          (parse_transactions (cleaned_lines lines))
  /\ Forall (fun tx => legacy_rules tx = true) (clean_sales_data (split_sales_data lines)).
Proof.
  rewrite clean_after_split. split; [reflexivity|]. split.
  - intros tx Htx. apply List.filter_In in Htx. apply Htx.
  - apply List.Forall_forall. intros tx Htx. apply List.filter_In in Htx. apply Htx.
Qed.

Example clean_sales_data_sample :
  clean_sales_data (split_sales_data sample_lines)
  = [record "T001" "2024-12-01" "P101" "Laptop" 2 (Float.of_Z 45000) "C001" "North";
     record "T002" "2024-12-02" "P999" "Mouse Wireless" 10 (Float.of_Z 500) "C002" "South"].
Proof. vm_compute. reflexivity. Qed.

Lemma passes_validation_legacy_rules tx :
  passes_validation tx = true -> Region tx <> Some "" -> legacy_rules tx = true.
Proof.
  unfold passes_validation, legacy_rules. intros H Hr.
  destruct (TransactionID tx) as [tid|]; [|discriminate].
  destruct (Date tx); [|discriminate].
  destruct (ProductID tx) as [pid|]; [|discriminate].
  destruct (ProductName tx); [|discriminate].
  destruct (Quantity tx) as [q|]; [|discriminate].
  destruct (UnitPrice tx) as [p|]; [|discriminate].
  destruct (CustomerID tx) as [cid|]; [|discriminate].
  destruct (Region tx) as [region|]; [|discriminate].
  destruct ((q <=? 0) || Float.leb p Float.zero); [discriminate|].
  destruct (startswith tid "T"); [|discriminate].
  destruct (startswith pid "P"); [|discriminate].
  destruct cid as [|c cid]; [discriminate|].
  destruct (String.eqb_spec region ""); [subst; contradiction|]. reflexivity.
Qed.

(** X8: a record that [validate_and_filter] keeps from the records parsed
    off the cleaned lines is also a record of the pipeline of
    [split_sales_data] and [clean_sales_data] on the same lines, unless its
    region is the empty string. *)
Theorem valid_records_in_clean_sales_data lines region mn mx V ic s tx :
  validate_and_filter (parse_transactions (cleaned_lines lines)) region mn mx
  = Ok (V, ic, s) ->
  In tx V -> Region tx <> Some "" ->
  In tx (clean_sales_data (split_sales_data lines)).
Proof.
  intros H Htx Hr. apply validate_and_filter_Ok in H.
  destruct H as (V1 & n1 & n2 & _ & _ & Hrf & Haf & _).
  destruct (region_filter_Ok _ _ _ _ Hrf) as (_ & Hi1 & _).
  destruct (amount_filter_Ok _ _ _ _ _ Haf) as (_ & Hi2 & _).
  apply Hi2, Hi1, List.filter_In in Htx. destruct Htx as [Hin Hp].
  rewrite clean_after_split. apply List.filter_In.
  split; [exact Hin | apply passes_validation_legacy_rules; assumption].
Qed.

Lemma valid_records_in_clean_sales_data_witness :
  In (record "T001" "2024-12-01" "P101" "Laptop" 2 (Float.of_Z 45000) "C001" "North")
     (clean_sales_data (split_sales_data sample_lines)).
Proof.
  eapply (valid_records_in_clean_sales_data sample_lines None None None);
    [vm_compute; reflexivity | left; reflexivity | discriminate].
Defined.

(** ** The aggregations *)

Lemma StronglySorted_impl {A : Type} (R S : A -> A -> Prop) (l : list A) :
  (forall a b, In a l -> In b l -> R a b -> S a b) ->
  StronglySorted R l -> StronglySorted S l.
Proof.
  intros H Hs. induction Hs as [|a l Hs IH Ha]; constructor.
  - apply IH. intros x y Hx Hy. apply H; right; assumption.
  - apply List.Forall_forall. intros b Hb. apply H; [left; reflexivity | right; exact Hb|].
    apply (proj1 (List.Forall_forall _ _) Ha), Hb.
Qed.

Lemma StronglySorted_map {A B : Type} (R : B -> B -> Prop) (f : A -> B) (l : list A) :
  StronglySorted (fun a b => R (f a) (f b)) l -> StronglySorted R (List.map f l).
Proof.
  induction 1 as [|a l Hs IH Ha]; cbn [List.map]; constructor; [exact IH|].
  apply List.Forall_map. exact Ha.
Qed.

Lemma StronglySorted_filter {A : Type} (R : A -> A -> Prop) (p : A -> bool) (l : list A) :
  StronglySorted R l -> StronglySorted R (List.filter p l).
Proof.
  induction 1 as [|a l Hs IH Ha]; cbn [List.filter]; [constructor|].
  destruct (p a); [|exact IH]. constructor; [exact IH|].
  apply List.Forall_forall. intros b Hb. apply List.filter_In in Hb.
  apply (proj1 (List.Forall_forall _ _) Ha), Hb.
Qed.

Section Items.
Context {I : Type} (item : transaction -> res I).

Lemma map_res_filter (p : transaction -> bool) (q : I -> bool) T items :
  (forall tx i, item tx = Ok i -> p tx = q i) ->
  map_res item T = Ok items ->
  map_res item (List.filter p T) = Ok (List.filter q items).
Proof.
  intros Hpq H. apply map_res_Forall2 in H.
  induction H as [|tx i T' items' Hi _ IH]; cbn [List.filter map_res]; [reflexivity|].
  rewrite (Hpq _ _ Hi). destruct (q i); [|exact IH].
  cbn [map_res]. rewrite Hi, IH. reflexivity.
Qed.

Lemma map_res_map {B : Type} (f : transaction -> B) (g : I -> B) T items :
  (forall tx i, item tx = Ok i -> f tx = g i) ->
  map_res item T = Ok items ->
  List.map f T = List.map g items.
Proof.
  intros Hfg H. apply map_res_Forall2 in H.
  induction H as [|tx i T' items' Hi _ IH]; cbn [List.map]; [reflexivity|].
  rewrite (Hfg _ _ Hi), IH. reflexivity.
Qed.

Lemma map_res_length T items : map_res item T = Ok items -> len items = len T.
Proof.
  intros H. apply map_res_Forall2, Forall2_length in H. unfold len. congruence.
Qed.

Lemma total_revenue_items (amt : I -> float) T items :
  (forall tx i, item tx = Ok i -> amount tx = Ok (amt i)) ->
  map_res item T = Ok items ->
  calculate_total_revenue T = Ok (sum_floats (List.map amt items)).
Proof.
  intros Hamt H. apply map_res_Forall2 in H.
  unfold calculate_total_revenue, sum_floats. generalize Float.zero.
  induction H as [|tx i T' items' Hi _ IH]; intros acc;
    cbn [fold_res List.map fold_left]; [reflexivity|].
  rewrite (Hamt _ _ Hi). cbn [bind]. apply IH.
Qed.

Context (field : transaction -> option string) (key : I -> string).
Hypothesis item_key : forall tx i, item tx = Ok i -> field tx = Some (key i).

Lemma with_field_items T items k :
  map_res item T = Ok items ->
  map_res item (with_field field k T) = Ok (of_key key k items).
Proof using item_key.
  apply map_res_filter. intros tx i Hi. rewrite (item_key _ _ Hi). reflexivity.
Qed.

Lemma fields_of_items T items :
  map_res item T = Ok items ->
  forall k, In k (List.map key items) <-> In (Some k) (List.map field T).
Proof using item_key.
  intros H k.
  rewrite (map_res_map field (fun i => Some (key i)) T items item_key H).
  rewrite <- (List.map_map key Some). split.
  - apply List.in_map.
  - intros Hin. apply List.in_map_iff in Hin. destruct Hin as (x & Hx & Hin).
    inversion Hx; subst. exact Hin.
Qed.

End Items.

Lemma fold_left_project {I V W : Type} (upd : I -> V -> V) (proj : V -> W) (g : W -> I -> W)
    (items : list I) (init : V) :
  (forall i v, proj (upd i v) = g (proj v) i) ->
  proj (fold_left (fun v i => upd i v) items init) = fold_left g items (proj init).
Proof.
  intros H. revert init; induction items as [|i items IH]; intros init; cbn [fold_left];
    [reflexivity|]. rewrite IH, H. reflexivity.
Qed.

Lemma fold_left_add_Z {I : Type} (w : I -> Z) (items : list I) (z : Z) :
  fold_left (fun acc i => acc + w i) items z = z + sum_Z (List.map w items).
Proof.
  unfold sum_Z. revert z; induction items as [|i items IH]; intros z;
    cbn [fold_left List.map fold_right]; [lia|]. rewrite IH. lia.
Qed.

Lemma fold_left_add_float {I : Type} (w : I -> float) (items : list I) (z : float) :
  fold_left (fun acc i => Float.add acc (w i)) items z = fold_left Float.add (List.map w items) z.
Proof.
  revert z; induction items as [|i items IH]; intros z; cbn [fold_left List.map];
    [reflexivity|]. apply IH.
Qed.

Lemma grouped_length {I V : Type} (key : I -> string) (init : V) (upd : I -> V -> V)
    (items : list I) :
  (length (grouped key init upd items []) <= length items)%nat.
Proof.
  destruct (grouped_keys key init upd items) as [Hnd Hk].
  rewrite <- (List.length_map fst (grouped key init upd items [])).
  rewrite <- (List.length_map key items).
  apply List.NoDup_incl_length; [exact Hnd|]. intros k Hin. apply Hk, Hin.
Qed.

Lemma slice_to_all {A : Type} (n : Z) (l : list A) : len l <= n -> slice_to n l = l.
Proof.
  unfold slice_to, len. intros H. destruct (Z.leb_spec 0 n); [|lia].
  apply List.firstn_all2. lia.
Qed.

(** *** top_selling_products and low_performing_products *)

Lemma product_item_fields tx i :
  product_item tx = Ok i ->
  ProductName tx = Some (fst i) /\ Quantity tx = Some (fst (snd i))
  /\ amount tx = Ok (snd (snd i)).
Proof.
  unfold product_item. destruct (ProductName tx); [|discriminate].
  destruct (Quantity tx); [|discriminate]. cbn [getitem bind].
  destruct (amount tx); [|discriminate]. cbn [bind]. intros H; inversion H; subst.
  repeat split.
Qed.

Lemma product_aggregate_items T :
  product_aggregate T
  = let* items := map_res product_item T in
    Ok (grouped fst ProductStats.init
          (fun i => ProductStats.add_sale (fst (snd i)) (snd (snd i))) items []).
Proof.
  rewrite <- fold_res_grouped. unfold product_aggregate. apply fold_res_ext.
  intros d tx. unfold product_item.
  destruct (ProductName tx); [|reflexivity]. destruct (Quantity tx); [|reflexivity].
  cbn [getitem bind]. destruct (amount tx); reflexivity.
Qed.

Lemma product_entry T items product d :
  map_res product_item T = Ok items ->
  In (product, d)
     (grouped fst ProductStats.init
        (fun i => ProductStats.add_sale (fst (snd i)) (snd (snd i))) items []) ->
  with_field ProductName product T <> []
  /\ ProductStats.total_quantity d = product_quantity product T
  /\ calculate_total_revenue (with_field ProductName product T)
     = Ok (ProductStats.total_revenue d).
Proof.
  intros Hitems Hin. apply grouped_entry in Hin. destruct Hin as [Hne ->].
  pose proof (with_field_items product_item ProductName fst
                (fun tx i H => proj1 (product_item_fields tx i H)) T items product Hitems)
    as Hsub.
  split; [|split].
  - intros E. rewrite E in Hsub. cbn in Hsub. inversion Hsub as [E']. symmetry in E'.
    contradiction.
  - rewrite (fold_left_project _ ProductStats.total_quantity
               (fun acc i => acc + fst (snd i))); [|reflexivity].
    rewrite fold_left_add_Z. unfold product_quantity.
    rewrite (map_res_map product_item (fun tx => default 0 (Quantity tx))
               (fun i => fst (snd i)) _ _ ltac:(intros tx i H;
                 destruct (product_item_fields tx i H) as (_ & -> & _); reflexivity) Hsub).
    reflexivity.
  - rewrite (total_revenue_items product_item (fun i => snd (snd i)) _ _
               (fun tx i H => proj2 (proj2 (product_item_fields tx i H))) Hsub).
    rewrite (fold_left_project _ ProductStats.total_revenue
               (fun acc i => Float.add acc (snd (snd i)))); [|reflexivity].
    rewrite fold_left_add_float. reflexivity.
Qed.

Lemma units_sorted_descending (l : list (string * Z * float)) :
  StronglySorted (fun a b => product_units b <= product_units a)
                 (sorted_by_reverse Z.ltb (fun x => snd (fst x)) l).
Proof.
  eapply StronglySorted_impl;
    [|apply (stable_sort_sorted _ (fun _ => True)); [| |apply List.Forall_forall; auto]].
  - cbv beta. intros a b _ _ H. unfold product_units. lia.
  - cbv beta. intros x y _ _ H. lia.
  - cbv beta. intros x y z _ _ _ H.
    destruct (Z.ltb_spec (snd (fst y)) (snd (fst x))); [left; reflexivity|right; lia].
Qed.

Lemma units_sorted_ascending (l : list (string * Z * float)) :
  StronglySorted (fun a b => product_units a <= product_units b)
                 (sorted_by Z.ltb (fun x => snd (fst x)) l).
Proof.
  eapply StronglySorted_impl;
    [|apply (stable_sort_sorted _ (fun _ => True)); [| |apply List.Forall_forall; auto]].
  - cbv beta. intros a b _ _ H. unfold product_units. lia.
  - cbv beta. intros x y _ _ H. lia.
  - cbv beta. intros x y z _ _ _ H.
    destruct (Z.ltb_spec (snd (fst x)) (snd (fst y))); [left; reflexivity|right; lia].
Qed.

(** The ranking of all products, as [top_selling_products] sorts it. *)
Lemma product_ranking T items :
  map_res product_item T = Ok items ->
  let ranking :=
    sorted_by_reverse Z.ltb (fun x => snd (fst x))
      (List.map ProductStats.tuple
         (grouped fst ProductStats.init
            (fun i => ProductStats.add_sale (fst (snd i)) (snd (snd i))) items [])) in
  top_selling_products T (len T) = Ok ranking
  /\ List.NoDup (List.map product_name ranking)
  /\ (forall product,
        In product (List.map product_name ranking)
        <-> In (Some product) (List.map ProductName T))
  /\ (forall product units revenue,
        In (product, units, revenue) ranking ->
        with_field ProductName product T <> []
        /\ units = product_quantity product T
        /\ calculate_total_revenue (with_field ProductName product T) = Ok revenue)
  /\ StronglySorted (fun a b => product_units b <= product_units a) ranking.
Proof.
  intros Hitems ranking.
  set (pd := grouped fst ProductStats.init
               (fun i => ProductStats.add_sale (fst (snd i)) (snd (snd i))) items []) in *.
  assert (Hperm : Permutation ranking (List.map ProductStats.tuple pd))
    by apply stable_sort_permutation.
  assert (Hnames : List.map product_name (List.map ProductStats.tuple pd) = keys pd).
  { rewrite List.map_map. reflexivity. }
  destruct (grouped_keys fst ProductStats.init
              (fun i => ProductStats.add_sale (fst (snd i)) (snd (snd i))) items)
    as [Hnd Hk]. fold pd in Hnd, Hk.
  split; [|split; [|split; [|split]]].
  - unfold top_selling_products. rewrite product_aggregate_items, Hitems. cbn [bind].
    fold pd. fold ranking. rewrite slice_to_all; [reflexivity|].
    unfold len. rewrite (Permutation_length Hperm), List.length_map.
    pose proof (grouped_length fst ProductStats.init
                  (fun i => ProductStats.add_sale (fst (snd i)) (snd (snd i))) items) as Hl.
    fold pd in Hl. pose proof (map_res_length _ _ _ Hitems) as Hl'. unfold len in Hl'. lia.
  - eapply Permutation_NoDup; [symmetry; apply Permutation_map, Hperm|].
    rewrite Hnames. exact Hnd.
  - intros product.
    rewrite <- (fields_of_items product_item ProductName fst
                  (fun tx i H => proj1 (product_item_fields tx i H)) T items Hitems).
    rewrite <- Hk, <- Hnames. split; apply Permutation_in; [|symmetry];
      apply Permutation_map, Hperm.
  - intros product units revenue Hin.
    apply (Permutation_in _ Hperm) in Hin. apply List.in_map_iff in Hin.
    destruct Hin as ([k d] & Ht & Hin). unfold ProductStats.tuple in Ht; cbn [fst snd] in Ht.
    inversion Ht; subst. destruct (product_entry T items _ _ Hitems Hin) as (H1 & H2 & H3).
    repeat split; assumption.
  - apply units_sorted_descending.
Qed.

(** X9: when [top_selling_products] returns, it returns the first [n]
    entries of the ranking of all products, which [top_selling_products]
    gives for [n] the number of transactions.  The ranking names each
    product of the transactions once, with the units and the revenue of the
    transactions of that product, and no entry has more units than an
    earlier one. *)
Theorem top_selling_products_ranking T n top :
  top_selling_products T n = Ok top ->
  exists ranking,
    top_selling_products T (len T) = Ok ranking
    /\ top = slice_to n ranking
    /\ (0 <= n -> top = firstn (Z.to_nat n) ranking /\ len top = Z.min n (len ranking))
    /\ List.NoDup (List.map product_name ranking)
    /\ (forall product,
          In product (List.map product_name ranking)
          <-> In (Some product) (List.map ProductName T))
    /\ (forall product units revenue,
          In (product, units, revenue) ranking ->
          with_field ProductName product T <> []
          /\ units = product_quantity product T
          /\ calculate_total_revenue (with_field ProductName product T) = Ok revenue)
    /\ StronglySorted (fun a b => product_units b <= product_units a) ranking.
Proof.
  intros H. unfold top_selling_products in H. rewrite product_aggregate_items in H.
  destruct (map_res product_item T) as [items|e] eqn:Hitems; [|discriminate].
  cbn [bind] in H. inversion H as [Htop]; clear H.
  destruct (product_ranking T items Hitems) as (H1 & H2 & H3 & H4 & H5).
  eexists. split; [exact H1|]. split; [reflexivity|].
  split; [|split; [exact H2|split; [exact H3|split; [exact H4|exact H5]]]].
  intros Hn. unfold slice_to. destruct (Z.leb_spec 0 n); [|lia]. split; [reflexivity|].
  unfold len. rewrite List.length_firstn. lia.
Qed.

Lemma top_selling_products_ranking_witness :
  exists ranking,
    top_selling_products [laptop_record; mouse_record; keyboard_record; laptop_record]
                         (len [laptop_record; mouse_record; keyboard_record; laptop_record])
    = Ok ranking
    /\ [("Mouse", 10, Float.of_Z 5000); ("Keyboard", 5, Float.of_Z 85000)]
       = slice_to 2 ranking.
Proof.
  destruct (top_selling_products_ranking
              [laptop_record; mouse_record; keyboard_record; laptop_record] 2
              [("Mouse", 10, Float.of_Z 5000); ("Keyboard", 5, Float.of_Z 85000)])
    as (ranking & H1 & H2 & _); [vm_compute; reflexivity|].
  exists ranking. split; assumption.
Defined.

(** X10: when [low_performing_products] returns, it returns the entries of
    the ranking of all products with fewer units than the threshold, and
    only these; no entry has fewer units than an earlier one. *)
Theorem low_performing_products_ranking T threshold low :
  low_performing_products T threshold = Ok low ->
  exists ranking,
    top_selling_products T (len T) = Ok ranking
    /\ (forall entry, In entry low <-> In entry ranking /\ product_units entry < threshold)
    /\ StronglySorted (fun a b => product_units a <= product_units b) low.
Proof.
  intros H. unfold low_performing_products in H. rewrite product_aggregate_items in H.
  destruct (map_res product_item T) as [items|e] eqn:Hitems; [|discriminate].
  cbn [bind] in H. inversion H as [Hlow]; clear H.
  destruct (product_ranking T items Hitems) as (H1 & _).
  eexists. split; [exact H1|]. split; [|apply units_sorted_ascending].
  intros entry. unfold sorted_by, sorted_by_reverse. rewrite !stable_sort_In.
  rewrite !List.in_map_iff. split.
  - intros ([k d] & <- & Hin). apply List.filter_In in Hin. destruct Hin as [Hin Hlt].
    cbn [snd] in Hlt. split; [exists (k, d); split; [reflexivity | exact Hin]|].
    unfold product_units, ProductStats.tuple; cbn [fst snd]. lia.
  - intros [([k d] & <- & Hin) Hlt]. exists (k, d). split; [reflexivity|].
    apply List.filter_In. split; [exact Hin|].
    unfold product_units, ProductStats.tuple in Hlt; cbn [fst snd] in *. lia.
Qed.

Lemma low_performing_products_ranking_witness :
  exists ranking,
    top_selling_products [laptop_record; mouse_record; keyboard_record; laptop_record]
                         (len [laptop_record; mouse_record; keyboard_record; laptop_record])
    = Ok ranking
    /\ (forall entry,
          In entry [("Laptop", 4, Float.of_Z 180000); ("Keyboard", 5, Float.of_Z 85000)]
          <-> In entry ranking /\ product_units entry < 10).
Proof.
  destruct (low_performing_products_ranking
              [laptop_record; mouse_record; keyboard_record; laptop_record] 10
              [("Laptop", 4, Float.of_Z 180000); ("Keyboard", 5, Float.of_Z 85000)])
    as (ranking & H1 & H2 & _); [vm_compute; reflexivity|].
  exists ranking. split; assumption.
Defined.

(** *** Strings in order *)

Lemma string_ltb_lt (a b : string) : String.ltb a b = true <-> OrderedTypeEx.String_as_OT.lt a b.
Proof.
  rewrite <- OrderedTypeEx.String_as_OT.cmp_lt. unfold String.ltb.
  change OrderedTypeEx.String_as_OT.cmp with String.compare.
  destruct (String.compare a b); split; congruence.
Qed.

Lemma string_ltb_trans (a b c : string) :
  String.ltb a b = true -> String.ltb b c = true -> String.ltb a c = true.
Proof.
  rewrite !string_ltb_lt. apply OrderedTypeEx.String_as_OT.lt_trans.
Qed.

Lemma string_ltb_asym (a b : string) : String.ltb a b = true -> String.ltb b a = false.
Proof.
  unfold String.ltb. rewrite (String.compare_antisym b a).
  destruct (String.compare a b); cbn; congruence.
Qed.

Lemma string_ltb_total (a b : string) :
  String.ltb a b = true \/ a = b \/ String.ltb b a = true.
Proof.
  unfold String.ltb. rewrite (String.compare_antisym b a).
  destruct (String.compare a b) eqn:E; cbn; auto.
  right; left. apply String.compare_eq_iff, E.
Qed.

Lemma string_ltb_negative_trans (a b c : string) :
  String.ltb a c = true -> String.ltb a b = true \/ String.ltb b c = true.
Proof.
  intros H. destruct (string_ltb_total a b) as [Hab|[->|Hba]]; auto.
  right. eapply string_ltb_trans; eassumption.
Qed.

Lemma sorted_by_key_ascending {V : Type} (d : dict V) :
  List.NoDup (keys d) ->
  StronglySorted (fun a b => String.ltb (fst a) (fst b) = true) (sorted_by String.ltb fst d).
Proof.
  intros Hnd.
  assert (Hs : StronglySorted (fun a b => String.ltb (fst b) (fst a) = false)
                 (sorted_by String.ltb fst d)).
  { apply (stable_sort_sorted _ (fun _ => True)); [| |apply List.Forall_forall; auto].
    - intros x y _ _. apply string_ltb_asym.
    - intros x y z _ _ _. apply string_ltb_negative_trans. }
  assert (Hnd' : List.NoDup (keys (sorted_by String.ltb fst d))).
  { eapply Permutation_NoDup; [|exact Hnd]. symmetry.
    apply Permutation_map, stable_sort_permutation. }
  revert Hs Hnd'. generalize (sorted_by String.ltb fst d). clear.
  induction 1 as [|a l Hs IH Ha]; intros Hnd; constructor.
  - apply IH. inversion Hnd; assumption.
  - apply List.Forall_forall. intros b Hb.
    pose proof (proj1 (List.Forall_forall _ _) Ha b Hb) as Hba. cbv beta in Hba.
    destruct (string_ltb_total (fst a) (fst b)) as [H|[H|H]]; [exact H| |congruence].
    exfalso. cbn [keys List.map] in Hnd. inversion Hnd as [|? ? Hnot _]; subst.
    apply Hnot. rewrite H. apply List.in_map, Hb.
Qed.

(** *** Dictionaries after a second loop *)

Lemma Forall2_In_r {A B : Type} (R : A -> B -> Prop) (l : list A) (l' : list B) (y : B) :
  Forall2 R l l' -> In y l' -> exists x, In x l /\ R x y.
Proof.
  induction 1 as [|x y' l l' Hxy _ IH]; intros Hin; [destruct Hin|].
  destruct Hin as [->|Hin]; [exists x; split; [left; reflexivity | exact Hxy]|].
  destruct (IH Hin) as (x' & Hx' & HR). exists x'. split; [right|]; assumption.
Qed.

Lemma Forall2_map_eq {A B C : Type} (R : A -> B -> Prop) (f : A -> C) (g : B -> C)
    (l : list A) (l' : list B) :
  (forall x y, R x y -> f x = g y) -> Forall2 R l l' -> List.map f l = List.map g l'.
Proof.
  intros H. induction 1 as [|x y l l' Hxy _ IH]; cbn [List.map]; [reflexivity|].
  rewrite (H _ _ Hxy), IH. reflexivity.
Qed.

Lemma dict_sum_alt {V : Type} (measure : V -> Z) (d : dict V) :
  dict_sum measure d = sum_Z (List.map (fun e => measure (snd e)) d).
Proof.
  unfold dict_sum, sum_Z. induction d as [|e d IH]; cbn [fold_right List.map];
    [reflexivity|]. rewrite IH. reflexivity.
Qed.

(** *** Sets of names *)

Lemma size_add_le (X : gset string) (x : string) :
  (size (X ∪ {[ x ]}) <= size X + 1)%nat /\ (1 <= size (X ∪ {[ x ]}))%nat.
Proof.
  split.
  - rewrite size_union_alt.
    assert (Hle : (size (({[ x ]} : gset string) ∖ X) <= 1)%nat).
    { rewrite <- (size_singleton (C := gset string) x). apply subseteq_size.
      apply subseteq_difference_l. reflexivity. }
    lia.
  - rewrite <- (size_singleton (C := gset string) x) at 1. apply subseteq_size.
    apply union_subseteq_r.
Qed.

Section Collected.
Context {I V : Type} (upd : I -> V -> V) (names : V -> gset string) (name : I -> string).
Hypothesis names_upd : forall i v, names (upd i v) = names v ∪ {[ name i ]}.

Lemma collected_names (items : list I) (init : V) (x : string) :
  x ∈ names (fold_left (fun v i => upd i v) items init)
  <-> x ∈ names init \/ In x (List.map name items).
Proof using names_upd.
  revert init; induction items as [|i items IH]; intros init; cbn [fold_left List.map In].
  - tauto.
  - rewrite IH, names_upd. rewrite elem_of_union, elem_of_singleton.
    split; intros H; [destruct H as [[H|H]|H]|destruct H as [H|[H|H]]]; auto.
Qed.

Lemma collected_size (items : list I) (init : V) :
  (size (names (fold_left (fun v i => upd i v) items init))
   <= size (names init) + length items)%nat
  /\ (items <> [] -> (1 <= size (names (fold_left (fun v i => upd i v) items init)))%nat).
Proof using names_upd.
  revert init; induction items as [|i items IH]; intros init; cbn [fold_left length].
  - split; [lia | congruence].
  - destruct (IH (upd i init)) as [IH1 IH2]. rewrite names_upd in IH1.
    destruct (size_add_le (names init) (name i)) as [H1 H2].
    split; [lia|]. intros _. destruct items as [|j items]; [|apply IH2; discriminate].
    cbn [fold_left]. rewrite names_upd. exact H2.
Qed.

End Collected.

(** *** daily_sales_trend *)

Lemma daily_item_fields tx i :
  daily_item tx = Ok i ->
  Date tx = Some (fst i) /\ amount tx = Ok (fst (snd i)) /\ CustomerID tx = Some (snd (snd i)).
Proof.
  unfold daily_item. destruct (Date tx); [|discriminate]. cbn [getitem bind].
  destruct (amount tx); [|discriminate]. cbn [bind].
  destruct (CustomerID tx); [|discriminate]. cbn [getitem bind].
  intros H; inversion H; subst. repeat split.
Qed.

Lemma daily_aggregate_items T :
  daily_aggregate T
  = let* items := map_res daily_item T in
    Ok (grouped fst DailyData.init
          (fun i => DailyData.add_sale (fst (snd i)) (snd (snd i))) items []).
Proof.
  rewrite <- fold_res_grouped. unfold daily_aggregate. apply fold_res_ext.
  intros d tx. unfold daily_item.
  destruct (Date tx); [|reflexivity]. cbn [getitem bind].
  destruct (amount tx); [|reflexivity]. cbn [bind].
  destruct (CustomerID tx); reflexivity.
Qed.

(** X11: when [daily_sales_trend] returns, the dates of its entries are
    the dates of the transactions in strictly ascending order, and the entry
    of a date holds the revenue and the number of the transactions of that
    date; its number of customers is at least one and at most the number of
    transactions.  The numbers of transactions add up to the size of the
    input. *)
Theorem daily_sales_trend_days T trend :
  daily_sales_trend T = Ok trend ->
  StronglySorted (fun a b => String.ltb (fst a) (fst b) = true) trend
  /\ (forall date, In date (keys trend) <-> In (Some date) (List.map Date T))
  /\ (forall date day,
        In (date, day) trend ->
        calculate_total_revenue (on_date date T) = Ok (DailyStats.revenue day)
        /\ DailyStats.transaction_count day = len (on_date date T)
        /\ 1 <= DailyStats.unique_customers day <= DailyStats.transaction_count day)
  /\ dict_sum DailyStats.transaction_count trend = len T.
Proof.
  intros H. unfold daily_sales_trend in H. rewrite daily_aggregate_items in H.
  destruct (map_res daily_item T) as [items|e] eqn:Hitems; [|discriminate].
  cbn [bind] in H. inversion H as [Htrend]; clear H.
  set (upd := fun i : string * (float * string) =>
                DailyData.add_sale (fst (snd i)) (snd (snd i))) in *.
  set (dd := grouped fst DailyData.init upd items []) in *.
  destruct (grouped_keys fst DailyData.init upd items) as [Hnd Hk]. fold dd in Hnd, Hk.
  assert (Hperm : Permutation (sorted_by String.ltb fst dd) dd)
    by apply stable_sort_permutation.
  split; [|split; [|split]].
  - pose proof (sorted_by_key_ascending dd Hnd) as Hs.
    apply StronglySorted_map with (R := fun a b => String.ltb (fst a) (fst b) = true).
    exact Hs.
  - intros date. unfold keys. rewrite List.map_map. cbn [fst].
    rewrite <- (fields_of_items daily_item Date fst
                  (fun tx i H => proj1 (daily_item_fields tx i H)) T items Hitems).
    rewrite <- Hk. unfold keys. split; apply Permutation_in; [|symmetry];
      apply Permutation_map, Hperm.
  - intros date day Hin. apply List.in_map_iff in Hin.
    destruct Hin as ([k d] & Hd & Hin). cbn [fst snd] in Hd. inversion Hd; subst; clear Hd.
    apply (Permutation_in _ Hperm) in Hin. apply grouped_entry in Hin.
    destruct Hin as [Hne ->]. cbn [DailyStats.revenue DailyStats.transaction_count
      DailyStats.unique_customers].
    pose proof (with_field_items daily_item Date fst
                  (fun tx i H => proj1 (daily_item_fields tx i H)) T items date Hitems)
      as Hsub. change (with_field Date date T) with (on_date date T) in Hsub.
    set (sub := of_key fst date items) in *.
    assert (Hcount : DailyData.transaction_count (fold_left (fun v i => upd i v) sub
                                                    DailyData.init) = len sub).
    { rewrite (fold_left_project upd DailyData.transaction_count (fun acc _ => acc + 1));
        [|reflexivity]. rewrite fold_left_add_Z, sum_ones. reflexivity. }
    split; [|split].
    + rewrite (total_revenue_items daily_item (fun i => fst (snd i)) _ _
                 (fun tx i H => proj1 (proj2 (daily_item_fields tx i H))) Hsub).
      rewrite (fold_left_project upd DailyData.revenue
                 (fun acc i => Float.add acc (fst (snd i)))); [|reflexivity].
      rewrite fold_left_add_float. reflexivity.
    + rewrite Hcount. apply (map_res_length _ _ _ Hsub).
    + rewrite Hcount.
      destruct (collected_size upd DailyData.customers (fun i => snd (snd i))
                  ltac:(reflexivity) sub DailyData.init) as [H1 H2].
      specialize (H2 Hne). change (DailyData.customers DailyData.init) with (∅ : gset string) in H1.
      rewrite size_empty in H1. unfold len. lia.
  - rewrite (dict_sum_map DailyData.transaction_count); [|reflexivity].
    rewrite (dict_sum_permutation _ _ _ Hperm).
    unfold dd. rewrite (dict_sum_grouped _ _ _ _ (fun _ => 1)); [|reflexivity|reflexivity].
    cbn [dict_sum fold_right]. rewrite sum_ones. apply (map_res_length _ _ _ Hitems).
Qed.

Lemma daily_sales_trend_days_witness :
  StronglySorted (fun a b => String.ltb (fst a) (fst b) = true)
    [("2024-12-01", {| DailyStats.revenue := Float.of_Z 90000;
                       DailyStats.transaction_count := 1;
                       DailyStats.unique_customers := 1 |});
     ("2024-12-02", {| DailyStats.revenue := Float.of_Z 90000;
                       DailyStats.transaction_count := 2;
                       DailyStats.unique_customers := 2 |})].
Proof.
  apply (daily_sales_trend_days [keyboard_record; laptop_record; mouse_record]).
  vm_compute. reflexivity.
Defined.

(** *** customer_analysis *)

Lemma customer_item_fields tx i :
  customer_item tx = Ok i ->
  CustomerID tx = Some (fst i) /\ amount tx = Ok (fst (snd i))
  /\ ProductName tx = Some (snd (snd i)).
Proof.
  unfold customer_item. destruct (CustomerID tx); [|discriminate]. cbn [getitem bind].
  destruct (amount tx); [|discriminate]. cbn [bind].
  destruct (ProductName tx); [|discriminate]. cbn [getitem bind].
  intros H; inversion H; subst. repeat split.
Qed.

Lemma customer_aggregate_items T :
  customer_aggregate T
  = let* items := map_res customer_item T in
    Ok (grouped fst CustomerStats.init
          (fun i => CustomerStats.add_purchase (fst (snd i)) (snd (snd i))) items []).
Proof.
  rewrite <- fold_res_grouped. unfold customer_aggregate. apply fold_res_ext.
  intros d tx. unfold customer_item.
  destruct (CustomerID tx); [|reflexivity]. cbn [getitem bind].
  destruct (amount tx); [|reflexivity]. cbn [bind].
  destruct (ProductName tx); reflexivity.
Qed.

(** The entry of a customer after the first loop of [customer_analysis]. *)
Lemma customer_entry T items cid c :
  map_res customer_item T = Ok items ->
  In (cid, c)
     (grouped fst CustomerStats.init
        (fun i => CustomerStats.add_purchase (fst (snd i)) (snd (snd i))) items []) ->
  calculate_total_revenue (with_field CustomerID cid T) = Ok (CustomerStats.total_spent c)
  /\ CustomerStats.purchase_count c = len (with_field CustomerID cid T)
  /\ (forall p, p ∈ CustomerStats.products_bought c
                <-> In (Some p) (List.map ProductName (with_field CustomerID cid T)))
  /\ 1 <= Z.of_nat (size (CustomerStats.products_bought c)) <= CustomerStats.purchase_count c.
Proof.
  intros Hitems Hin. apply grouped_entry in Hin. destruct Hin as [Hne ->].
  set (upd := fun i : string * (float * string) =>
                CustomerStats.add_purchase (fst (snd i)) (snd (snd i))).
  pose proof (with_field_items customer_item CustomerID fst
                (fun tx i H => proj1 (customer_item_fields tx i H)) T items cid Hitems)
    as Hsub.
  set (sub := of_key fst cid items) in *.
  change (fold_left _ sub CustomerStats.init)
    with (fold_left (fun v i => upd i v) sub CustomerStats.init).
  assert (Hcount : CustomerStats.purchase_count
                     (fold_left (fun v i => upd i v) sub CustomerStats.init) = len sub).
  { rewrite (fold_left_project upd CustomerStats.purchase_count (fun acc _ => acc + 1));
      [|reflexivity]. rewrite fold_left_add_Z, sum_ones. reflexivity. }
  split; [|split; [|split]].
  - rewrite (total_revenue_items customer_item (fun i => fst (snd i)) _ _
               (fun tx i H => proj1 (proj2 (customer_item_fields tx i H))) Hsub).
    rewrite (fold_left_project upd CustomerStats.total_spent
               (fun acc i => Float.add acc (fst (snd i)))); [|reflexivity].
    rewrite fold_left_add_float. reflexivity.
  - rewrite Hcount. apply (map_res_length _ _ _ Hsub).
  - intros p.
    rewrite (collected_names upd CustomerStats.products_bought (fun i => snd (snd i))
               ltac:(reflexivity) sub CustomerStats.init p).
    rewrite (fields_of_items customer_item ProductName (fun i => snd (snd i))
               (fun tx i H => proj2 (proj2 (customer_item_fields tx i H))) _ _ Hsub).
    change (CustomerStats.products_bought CustomerStats.init) with (∅ : gset string).
    rewrite elem_of_empty. tauto.
  - rewrite Hcount.
    destruct (collected_size upd CustomerStats.products_bought (fun i => snd (snd i))
                ltac:(reflexivity) sub CustomerStats.init) as [H1 H2].
    specialize (H2 Hne).
    change (CustomerStats.products_bought CustomerStats.init) with (∅ : gset string) in H1.
    rewrite size_empty in H1. unfold len. lia.
Qed.

Lemma customer_second_loop (cd cd' : dict CustomerStats.t) :
  map_res
    (fun entry : string * CustomerStats.t =>
       let '(customer_id, c) := entry in
       let* count := Float.of_int (CustomerStats.purchase_count c) in
       let* average := Float.div (CustomerStats.total_spent c) count in
       Ok (customer_id, CustomerStats.set_average (round2 average) c)) cd = Ok cd' ->
  Forall2 with_average cd cd'.
Proof.
  intros H. apply map_res_Forall2 in H.
  induction H as [|[cid c] e' cd cd' H _ IH]; constructor; [|exact IH].
  bind_inv H. bind_inv H. inversion H; subst; clear H.
  split; [reflexivity|]. exists a, a0. repeat split; assumption.
Qed.

Lemma customer_analysis_Ok T customers :
  customer_analysis T = Ok customers ->
  exists items cd',
    map_res customer_item T = Ok items
    /\ Forall2 with_average
         (grouped fst CustomerStats.init
            (fun i => CustomerStats.add_purchase (fst (snd i)) (snd (snd i))) items [])
         cd'
    /\ customers
       = sorted_by_reverse Float.ltb (fun item => CustomerStats.total_spent (snd item)) cd'.
Proof.
  intros H. unfold customer_analysis in H. rewrite customer_aggregate_items in H.
  destruct (map_res customer_item T) as [items|e] eqn:Hitems; [|discriminate].
  cbn [bind] in H. bind_inv H. inversion H; subst; clear H.
  exists items, a. split; [reflexivity|]. split; [apply customer_second_loop, Ha|reflexivity].
Qed.

(** X12: when [customer_analysis] returns, it has one entry for each
    customer of the transactions; the entry holds what the customer spent
    and the number of the customer's transactions, the set of the product
    names of these transactions, and as average order value the quotient of
    the two rounded to two decimals.  The purchase counts add up to the
    size of the input. *)
Theorem customer_analysis_customers T customers :
  customer_analysis T = Ok customers ->
  List.NoDup (keys customers)
  /\ (forall cid, In cid (keys customers) <-> In (Some cid) (List.map CustomerID T))
  /\ (forall cid c,
        In (cid, c) customers ->
        calculate_total_revenue (with_field CustomerID cid T)
        = Ok (CustomerStats.total_spent c)
        /\ CustomerStats.purchase_count c = len (with_field CustomerID cid T)
        /\ (forall p, p ∈ CustomerStats.products_bought c
                      <-> In (Some p) (List.map ProductName (with_field CustomerID cid T)))
        /\ 1 <= Z.of_nat (size (CustomerStats.products_bought c))
             <= CustomerStats.purchase_count c
        /\ exists count average,
             Float.of_int (CustomerStats.purchase_count c) = Ok count
             /\ Float.div (CustomerStats.total_spent c) count = Ok average
             /\ CustomerStats.avg_order_value c = Some (round2 average))
  /\ dict_sum CustomerStats.purchase_count customers = len T.
Proof.
  intros H. destruct (customer_analysis_Ok T customers H) as (items & cd' & Hitems & HF & ->).
  set (upd := fun i : string * (float * string) =>
                CustomerStats.add_purchase (fst (snd i)) (snd (snd i))) in *.
  set (cd := grouped fst CustomerStats.init upd items []) in *.
  destruct (grouped_keys fst CustomerStats.init upd items) as [Hnd Hk]. fold cd in Hnd, Hk.
  assert (Hperm : Permutation
                    (sorted_by_reverse Float.ltb
                       (fun item => CustomerStats.total_spent (snd item)) cd') cd')
    by apply stable_sort_permutation.
  assert (Hkeys : keys cd = keys cd').
  { apply (Forall2_map_eq with_average); [|exact HF]. intros x y [Hxy _]. congruence. }
  split; [|split; [|split]].
  - eapply Permutation_NoDup; [symmetry; apply Permutation_map, Hperm|].
    fold (keys cd'). rewrite <- Hkeys. exact Hnd.
  - intros cid.
    rewrite <- (fields_of_items customer_item CustomerID fst
                  (fun tx i H => proj1 (customer_item_fields tx i H)) T items Hitems).
    rewrite <- Hk, Hkeys. split; apply Permutation_in; [|symmetry];
      apply Permutation_map, Hperm.
  - intros cid c Hin. apply (Permutation_in _ Hperm) in Hin.
    destruct (Forall2_In_r _ _ _ _ HF Hin) as ([cid0 c0] & Hin0 & Hfst & count & average
                                               & Hc & Hd & Hsnd).
    cbn [fst snd] in *. subst cid0 c.
    destruct (customer_entry T items cid c0 Hitems Hin0) as (H1 & H2 & H3 & H4).
    cbn [CustomerStats.set_average CustomerStats.total_spent CustomerStats.purchase_count
         CustomerStats.products_bought CustomerStats.avg_order_value].
    split; [exact H1|]. split; [exact H2|]. split; [exact H3|]. split; [exact H4|].
    exists count, average. repeat split; assumption.
  - rewrite (dict_sum_permutation _ _ _ Hperm), !dict_sum_alt.
    rewrite <- (Forall2_map_eq with_average
                  (fun e => CustomerStats.purchase_count (snd e))
                  (fun e => CustomerStats.purchase_count (snd e)) cd cd'); [| |exact HF].
    + rewrite <- dict_sum_alt. unfold cd.
      rewrite (dict_sum_grouped _ _ _ _ (fun _ => 1)); [|reflexivity|reflexivity].
      cbn [dict_sum fold_right]. rewrite sum_ones. apply (map_res_length _ _ _ Hitems).
    + intros x y (_ & count & average & _ & _ & ->). reflexivity.
Qed.

Lemma customer_analysis_customers_witness :
  exists customers,
    customer_analysis [laptop_record; mouse_record; keyboard_record] = Ok customers
    /\ dict_sum CustomerStats.purchase_count customers
       = len [laptop_record; mouse_record; keyboard_record].
Proof.
  destruct (customer_analysis [laptop_record; mouse_record; keyboard_record])
    as [customers|e] eqn:H; [|vm_compute in H; discriminate].
  exists customers. split; [reflexivity|].
  apply (customer_analysis_customers _ _ H).
Defined.

Lemma map_res_Raise {A B : Type} (f : A -> res B) (l : list A) (e : exn) :
  map_res f l = Raise e -> exists x, In x l /\ f x = Raise e.
Proof.
  induction l as [|x l IH]; cbn [map_res]; [discriminate|].
  destruct (f x) as [y|e'] eqn:Hf; cbn [bind].
  - destruct (map_res f l) as [r|e'] eqn:Hl; cbn [bind]; [discriminate|].
    intros H; inversion H; subst. destruct (IH eq_refl) as (x' & Hx' & Hfx').
    exists x'. split; [right|]; assumption.
  - intros H; inversion H; subst. exists x. split; [left; reflexivity | exact Hf].
Qed.

Lemma amount_Raise tx e : amount tx = Raise e -> e = KeyError \/ e = OverflowError.
Proof.
  unfold amount. destruct (Quantity tx); cbn [getitem bind]; [|intros H; inversion H; auto].
  destruct (UnitPrice tx); cbn [getitem bind]; [|intros H; inversion H; auto].
  intros H. right. eapply int_mul_float_Raise, H.
Qed.

Lemma div_by_count (q : Z) (count x : float) :
  0 < q -> Float.of_int q = Ok count -> exists y, Float.div x count = Ok y.
Proof.
  intros Hq Hc. destruct (of_int_positive q count Hq Hc) as (m & e & -> & _).
  unfold Float.div. eexists. reflexivity.
Qed.

(** X13: [customer_analysis] never divides by zero: a customer it has an
    entry for has at least one purchase.  What it can raise is [KeyError],
    for a transaction that lacks a field, and [OverflowError], for a
    quantity or a count too large for a float. *)
Theorem customer_analysis_raises T e :
  customer_analysis T = Raise e -> e = KeyError \/ e = OverflowError.
Proof.
  unfold customer_analysis. rewrite customer_aggregate_items.
  destruct (map_res customer_item T) as [items|e'] eqn:Hitems; cbn [bind].
  - match goal with
    | |- bind ?m _ = _ -> _ => destruct m as [cd'|e'] eqn:Hsecond
    end; cbn [bind]; [intros H; discriminate H|].
    intros H; inversion H; subst e'; clear H.
    apply map_res_Raise in Hsecond. destruct Hsecond as ([cid c] & Hin & Hraise).
    destruct (customer_entry T items cid c Hitems Hin) as (_ & Hcount & _ & Hsize).
    destruct (Float.of_int (CustomerStats.purchase_count c)) as [count|e'] eqn:Hc;
      cbn [bind] in Hraise.
    + assert (Hpos : 0 < CustomerStats.purchase_count c) by lia.
      destruct (div_by_count _ count (CustomerStats.total_spent c) Hpos Hc) as [y Hy].
      rewrite Hy in Hraise. discriminate.
    + inversion Hraise; subst e'. right. unfold Float.of_int in Hc.
      destruct (Float.of_Z _); congruence.
  - intros H; inversion H; subst e'; clear H.
    apply map_res_Raise in Hitems. destruct Hitems as (tx & _ & Htx).
    unfold customer_item in Htx.
    destruct (CustomerID tx); cbn [getitem bind] in Htx; [|inversion Htx; auto].
    destruct (amount tx) as [a|e'] eqn:Ha; cbn [bind] in Htx.
    + destruct (ProductName tx); cbn [getitem bind] in Htx; [discriminate|inversion Htx; auto].
    + inversion Htx; subst e'. eapply amount_Raise, Ha.
Qed.

Lemma customer_analysis_raises_witness :
  customer_analysis [laptop_record; no_customer_record] = Raise KeyError
  /\ (KeyError = KeyError \/ KeyError = OverflowError).
Proof.
  assert (H : customer_analysis [laptop_record; no_customer_record] = Raise KeyError)
    by (vm_compute; reflexivity).
  split; [exact H | exact (customer_analysis_raises _ _ H)].
Defined.

(** *** region_wise_sales *)

Lemma region_item_fields tx i :
  region_item tx = Ok i -> Region tx = Some (fst i) /\ amount tx = Ok (snd i).
Proof.
  unfold region_item. destruct (Region tx); [|discriminate]. cbn [getitem bind].
  destruct (amount tx); [|discriminate]. cbn [bind].
  intros H; inversion H; subst. split; reflexivity.
Qed.

Lemma region_first_pass_items T :
  region_first_pass T
  = let* items := map_res region_item T in
    Ok (grouped fst RegionStats.init (fun i => RegionStats.add_sale (snd i)) items [],
        sum_floats (List.map snd items)).
Proof.
  unfold region_first_pass, sum_floats. generalize (@nil (string * RegionStats.t)) Float.zero.
  induction T as [|tx T IH]; intros d t; cbn [fold_res map_res bind]; [reflexivity|].
  unfold region_item at 1. destruct (Region tx); [|reflexivity]. cbn [getitem bind].
  destruct (amount tx); [|reflexivity]. cbn [bind]. rewrite IH.
  destruct (map_res region_item T); reflexivity.
Qed.

Lemma region_second_pass_Ok rd total rd' :
  region_second_pass rd total = Ok rd' -> Forall2 (with_percentage total) rd rd'.
Proof.
  intros H. apply map_res_Forall2 in H.
  induction H as [|[r s] e' rd rd' H _ IH]; constructor; [|exact IH].
  bind_inv H. inversion H; subst; clear H.
  split; [reflexivity|]. exists a. split; [exact Ha | reflexivity].
Qed.

Lemma region_wise_sales_Ok T regions :
  region_wise_sales T = Ok regions ->
  exists items rd',
    map_res region_item T = Ok items
    /\ Forall2 (with_percentage (sum_floats (List.map snd items)))
         (grouped fst RegionStats.init (fun i => RegionStats.add_sale (snd i)) items []) rd'
    /\ regions
       = sorted_by_reverse Float.ltb (fun item => RegionStats.total_sales (snd item)) rd'.
Proof.
  intros H. unfold region_wise_sales in H. rewrite region_first_pass_items in H.
  destruct (map_res region_item T) as [items|e] eqn:Hitems; [|discriminate].
  cbn [bind] in H. bind_inv H. inversion H; subst; clear H.
  exists items, a. split; [reflexivity|].
  split; [apply region_second_pass_Ok, Ha | reflexivity].
Qed.

Lemma region_entry T items r s :
  map_res region_item T = Ok items ->
  In (r, s) (grouped fst RegionStats.init (fun i => RegionStats.add_sale (snd i)) items []) ->
  of_key fst r items <> []
  /\ RegionStats.total_sales s = sum_floats (List.map snd (of_key fst r items))
  /\ calculate_total_revenue (with_field Region r T) = Ok (RegionStats.total_sales s)
  /\ RegionStats.transaction_count s = len (with_field Region r T).
Proof.
  intros Hitems Hin. apply grouped_entry in Hin. destruct Hin as [Hne ->].
  set (upd := fun i : string * float => RegionStats.add_sale (snd i)).
  pose proof (with_field_items region_item Region fst
                (fun tx i H => proj1 (region_item_fields tx i H)) T items r Hitems) as Hsub.
  set (sub := of_key fst r items) in *.
  change (fold_left _ sub RegionStats.init)
    with (fold_left (fun v i => upd i v) sub RegionStats.init).
  assert (Htotal : RegionStats.total_sales (fold_left (fun v i => upd i v) sub RegionStats.init)
                   = sum_floats (List.map snd sub)).
  { rewrite (fold_left_project upd RegionStats.total_sales
               (fun acc i => Float.add acc (snd i))); [|reflexivity].
    rewrite fold_left_add_float. reflexivity. }
  split; [exact Hne|]. split; [exact Htotal|]. split.
  - rewrite Htotal.
    apply (total_revenue_items region_item snd _ _
             (fun tx i H => proj2 (region_item_fields tx i H)) Hsub).
  - rewrite (fold_left_project upd RegionStats.transaction_count (fun acc _ => acc + 1));
      [|reflexivity]. rewrite fold_left_add_Z, sum_ones. apply (map_res_length _ _ _ Hsub).
Qed.

(** X14: when [region_wise_sales] returns, it has one entry for each
    region of the transactions, with the sales and the number of the
    transactions of that region, and as percentage the share of these sales
    in the total of [calculate_total_revenue], times 100 and rounded to two
    decimals.  The counts add up to the size of the input, and the total is
    not zero unless the input is empty. *)
Theorem region_wise_sales_regions T regions :
  region_wise_sales T = Ok regions ->
  List.NoDup (keys regions)
  /\ (forall r, In r (keys regions) <-> In (Some r) (List.map Region T))
  /\ dict_sum RegionStats.transaction_count regions = len T
  /\ exists total,
       calculate_total_revenue T = Ok total
       /\ (T <> [] -> Float.eqb total Float.zero = false)
       /\ forall r s,
            In (r, s) regions ->
            calculate_total_revenue (with_field Region r T) = Ok (RegionStats.total_sales s)
            /\ RegionStats.transaction_count s = len (with_field Region r T)
            /\ exists share,
                 Float.div (RegionStats.total_sales s) total = Ok share
                 /\ RegionStats.percentage s = Some (round2 (Float.mul share hundred)).
Proof.
  intros H. destruct (region_wise_sales_Ok T regions H) as (items & rd' & Hitems & HF & ->).
  set (upd := fun i : string * float => RegionStats.add_sale (snd i)) in *.
  set (rd := grouped fst RegionStats.init upd items []) in *.
  set (total := sum_floats (List.map snd items)) in *.
  destruct (grouped_keys fst RegionStats.init upd items) as [Hnd Hk]. fold rd in Hnd, Hk.
  assert (Hperm : Permutation
                    (sorted_by_reverse Float.ltb
                       (fun item => RegionStats.total_sales (snd item)) rd') rd')
    by apply stable_sort_permutation.
  assert (Hkeys : keys rd = keys rd').
  { apply (Forall2_map_eq (with_percentage total)); [|exact HF]. intros x y [Hxy _].
    congruence. }
  split; [|split; [|split]].
  - eapply Permutation_NoDup; [symmetry; apply Permutation_map, Hperm|].
    fold (keys rd'). rewrite <- Hkeys. exact Hnd.
  - intros r.
    rewrite <- (fields_of_items region_item Region fst
                  (fun tx i H => proj1 (region_item_fields tx i H)) T items Hitems).
    rewrite <- Hk, Hkeys. split; apply Permutation_in; [|symmetry];
      apply Permutation_map, Hperm.
  - rewrite (dict_sum_permutation _ _ _ Hperm), !dict_sum_alt.
    rewrite <- (Forall2_map_eq (with_percentage total)
                  (fun e => RegionStats.transaction_count (snd e))
                  (fun e => RegionStats.transaction_count (snd e)) rd rd'); [| |exact HF].
    + rewrite <- dict_sum_alt. unfold rd.
      rewrite (dict_sum_grouped _ _ _ _ (fun _ => 1)); [|reflexivity|reflexivity].
      cbn [dict_sum fold_right]. rewrite sum_ones. apply (map_res_length _ _ _ Hitems).
    + intros x y (_ & share & _ & ->). reflexivity.
  - exists total. split; [|split].
    + apply (total_revenue_items region_item snd _ _
               (fun tx i H => proj2 (region_item_fields tx i H)) Hitems).
    + intros Hne. destruct rd as [|[r0 s0] rd0] eqn:Hrd.
      * exfalso. destruct T as [|tx T']; [congruence|].
        destruct items as [|i items']; [cbn in Hitems; bind_inv Hitems; bind_inv Hitems;
                                        discriminate|].
        assert (Hin : In (fst i) (keys (@nil (string * RegionStats.t))))
          by (apply Hk; left; reflexivity).
        destruct Hin.
      * inversion HF as [|? e' ? ? (_ & share & Hdiv & _) _]; subst.
        unfold Float.div in Hdiv. destruct (Float.eqb total Float.zero); [discriminate|].
        reflexivity.
    + intros r s Hin. apply (Permutation_in _ Hperm) in Hin.
      destruct (Forall2_In_r _ _ _ _ HF Hin) as ([r0 s0] & Hin0 & Hfst & share & Hdiv & Hsnd).
      cbn [fst snd] in *. subst r0 s.
      destruct (region_entry T items r s0 Hitems Hin0) as (_ & _ & H1 & H2).
      cbn [RegionStats.set_percentage RegionStats.total_sales RegionStats.transaction_count
           RegionStats.percentage].
      split; [exact H1|]. split; [exact H2|]. exists share. split; [exact Hdiv | reflexivity].
Qed.

Lemma region_wise_sales_regions_witness :
  exists regions,
    region_wise_sales [laptop_record; mouse_record; keyboard_record] = Ok regions
    /\ dict_sum RegionStats.transaction_count regions
       = len [laptop_record; mouse_record; keyboard_record].
Proof.
  destruct (region_wise_sales [laptop_record; mouse_record; keyboard_record])
    as [regions|e] eqn:H; [|vm_compute in H; discriminate].
  exists regions. split; [reflexivity|].
  apply (region_wise_sales_regions _ _ H).
Defined.

(** *** Valid transactions *)

Lemma floats_sorted_descending {A : Type} (key : A -> float) (l : list A) :
  Forall (fun x => positive_float (key x)) l ->
  StronglySorted (fun a b => Float.ltb (key a) (key b) = false)
                 (sorted_by_reverse Float.ltb key l).
Proof.
  intros H. unfold sorted_by_reverse.
  apply (stable_sort_sorted (fun y x => Float.ltb (key x) (key y))
           (fun x => positive_float (key x))); [| |exact H].
  - intros x y Hx Hy. apply ltb_asym; assumption.
  - intros x y z Hx Hy Hz Hxz.
    destruct (Float.ltb (key z) (key y)) eqn:Hzy; [right; reflexivity|left].
    apply (ltb_le_lt_trans (key y) (key z) (key x)); assumption.
Qed.

Lemma positive_not_zero (x : float) : positive_float x -> Float.eqb x Float.zero = false.
Proof. destruct x as [[]|[]| |[] m e]; cbn; try tauto; reflexivity. Qed.

Lemma valid_amount tx :
  specified_rules tx -> price_well_formed tx -> has_amount tx ->
  exists a, amount tx = Ok a /\ positive_float a.
Proof.
  intros H1 H2 H3. destruct (valid_dated_amount tx H1 H2 H3) as (d & a & Hda & Hp).
  apply dated_amount_Ok in Hda. exists a. split; [apply Hda | exact Hp].
Qed.

Lemma valid_region_items T :
  Forall specified_rules T -> Forall price_well_formed T -> Forall has_amount T ->
  exists items,
    map_res region_item T = Ok items /\ Forall (fun i => positive_float (snd i)) items.
Proof.
  intros H1 H2 H3.
  induction T as [|tx T IH]; [exists []; split; [reflexivity | constructor]|].
  inversion H1 as [|? ? Hr1 Hr1']; inversion H2 as [|? ? Hr2 Hr2'];
    inversion H3 as [|? ? Hr3 Hr3']; subst.
  destruct (IH Hr1' Hr2' Hr3') as (items & Hitems & Hpos).
  destruct (valid_amount tx Hr1 Hr2 Hr3) as (a & Ha & Hp).
  destruct Hr1 as ((_ & _ & _ & _ & _ & _ & _ & [r Hr]) & _).
  exists ((r, a) :: items). split; [|constructor; assumption].
  cbn [map_res]. rewrite Hitems. unfold region_item. rewrite Hr, Ha. reflexivity.
Qed.

Lemma positive_sum_of_key {B : Type} (key : string * B -> string) (amt : string * B -> float)
    (items : list (string * B)) k :
  Forall (fun i => positive_float (amt i)) items ->
  of_key key k items <> [] ->
  positive_float (sum_floats (List.map amt (of_key key k items))).
Proof.
  intros Hpos Hne. apply sum_floats_positive.
  - intros E. apply List.map_eq_nil in E. contradiction.
  - apply List.Forall_map. apply List.Forall_forall. intros i Hi.
    apply List.filter_In in Hi. apply (proj1 (List.Forall_forall _ _) Hpos), Hi.
Qed.

(** X15: on a non-empty collection of valid transactions whose amounts
    are representable, [calculate_total_revenue] returns a total above
    zero and [region_wise_sales] returns: the division by the total cannot
    fail.  No region has greater sales than an earlier one. *)
Theorem region_wise_sales_of_valid T :
  T <> [] ->
  Forall specified_rules T -> Forall price_well_formed T -> Forall has_amount T ->
  exists total regions,
    calculate_total_revenue T = Ok total
    /\ Float.ltb Float.zero total = true
    /\ region_wise_sales T = Ok regions
    /\ regions <> []
    /\ StronglySorted
         (fun a b => Float.ltb (RegionStats.total_sales (snd a))
                               (RegionStats.total_sales (snd b)) = false)
         regions.
Proof.
  intros Hne H1 H2 H3. destruct (valid_region_items T H1 H2 H3) as (items & Hitems & Hpos).
  set (total := sum_floats (List.map snd items)).
  assert (Hine : items <> []).
  { intros E. subst items. destruct T; [congruence|]. cbn in Hitems.
    bind_inv Hitems. bind_inv Hitems. discriminate. }
  assert (Htotal : positive_float total).
  { apply sum_floats_positive; [|apply List.Forall_map, Hpos].
    intros E. apply List.map_eq_nil in E. contradiction. }
  set (rd := grouped fst RegionStats.init (fun i => RegionStats.add_sale (snd i)) items []).
  assert (Hrd : Forall (fun e => positive_float (RegionStats.total_sales (snd e))) rd).
  { apply List.Forall_forall. intros [r s] Hin. cbn [snd].
    destruct (region_entry T items r s Hitems Hin) as (Hn & Hs & _). rewrite Hs.
    apply positive_sum_of_key; assumption. }
  destruct (map_res_total
              (fun entry : string * RegionStats.t =>
                 let '(region, s) := entry in
                 let* share := Float.div (RegionStats.total_sales s) total in
                 let percentage := Float.mul share hundred in
                 Ok (region, RegionStats.set_percentage (round2 percentage) s)) rd)
    as [rd' Hrd'].
  { apply List.Forall_forall. intros [r s] _. unfold Float.div.
    rewrite (positive_not_zero total Htotal). cbn [bind]. eexists; reflexivity. }
  change (region_second_pass rd total = Ok rd') in Hrd'.
  pose proof (region_second_pass_Ok rd total rd' Hrd') as HF.
  exists total, (sorted_by_reverse Float.ltb
                   (fun item => RegionStats.total_sales (snd item)) rd').
  split; [|split; [|split; [|split]]].
  - apply (total_revenue_items region_item snd _ _
             (fun tx i H => proj2 (region_item_fields tx i H)) Hitems).
  - apply ltb_zero_positive, Htotal.
  - unfold region_wise_sales. rewrite region_first_pass_items, Hitems. cbn [bind].
    fold rd total. rewrite Hrd'. reflexivity.
  - intros E.
    assert (Hl : length rd' = length rd).
    { symmetry. eapply Forall2_length, HF. }
    pose proof (stable_sort_length
                  (fun y x => Float.ltb (RegionStats.total_sales (snd x))
                                        (RegionStats.total_sales (snd y))) rd') as Hl'.
    unfold sorted_by_reverse in E. rewrite E in Hl'. cbn [length] in Hl'.
    destruct (grouped_keys fst RegionStats.init (fun i => RegionStats.add_sale (snd i)) items)
      as [_ Hk]. fold rd in Hk.
    destruct items as [|i items']; [congruence|].
    assert (Hin : In (fst i) (keys rd)) by (apply Hk; left; reflexivity).
    destruct rd; [destruct Hin | cbn [length] in Hl; lia].
  - apply floats_sorted_descending.
    clear -HF Hrd. induction HF as [|x y rd rd' (_ & share & _ & Hy) _ IH];
      [constructor|].
    inversion Hrd as [|? ? Hx Hrd0]; subst. constructor; [|apply IH, Hrd0].
    rewrite Hy. exact Hx.
Qed.

Lemma region_wise_sales_of_valid_witness :
  exists total regions,
    calculate_total_revenue [laptop_record; mouse_record; keyboard_record] = Ok total
    /\ Float.ltb Float.zero total = true
    /\ region_wise_sales [laptop_record; mouse_record; keyboard_record] = Ok regions
    /\ regions <> []
    /\ StronglySorted
         (fun a b => Float.ltb (RegionStats.total_sales (snd a))
                               (RegionStats.total_sales (snd b)) = false)
         regions.
Proof.
  apply region_wise_sales_of_valid.
  - discriminate.
  - each_record record_rules.
  - each_record ltac:(eexists; split; [reflexivity | vm_compute; reflexivity]).
  - each_record ltac:(eexists; vm_compute; reflexivity).
Defined.

(** *** find_peak_sales_day *)

Lemma peak_scan_any (totals : dict DayTotals.t) (peak : option string * float * Z) :
  (fold_left peak_step totals peak = peak
   /\ Forall (fun item => Float.ltb (snd (fst peak)) (day_revenue item) = false) totals)
  \/ exists date stats,
       In (date, stats) totals
       /\ fold_left peak_step totals peak
          = (Some date, DayTotals.revenue stats, DayTotals.transaction_count stats).
Proof.
  revert peak; induction totals as [|[date stats] totals IH]; intros [[pd pr] pc];
    cbn [fold_left].
  - left. split; [reflexivity | constructor].
  - assert (Hstep : peak_step (pd, pr, pc) (date, stats)
                    = if Float.ltb pr (DayTotals.revenue stats)
                      then (Some date, DayTotals.revenue stats,
                            DayTotals.transaction_count stats)
                      else (pd, pr, pc)) by reflexivity.
    rewrite Hstep; clear Hstep. cbn [fst snd].
    destruct (Float.ltb pr (DayTotals.revenue stats)) eqn:Hlt.
    + right. destruct (IH (Some date, DayTotals.revenue stats,
                            DayTotals.transaction_count stats))
        as [[-> _] | (d & st & Hin & ->)].
      * exists date, stats. split; [left; reflexivity | reflexivity].
      * exists d, st. split; [right; exact Hin | reflexivity].
    + destruct (IH (pd, pr, pc)) as [[-> Hall] | (d & st & Hin & ->)].
      * left. split; [reflexivity|]. constructor; [exact Hlt | exact Hall].
      * right. exists d, st. split; [right; exact Hin | reflexivity].
Qed.

Lemma daily_totals_Ok T totals :
  daily_totals T = Ok totals ->
  exists items, map_res dated_amount T = Ok items /\ totals = group_by_date items.
Proof.
  intros H.
  assert (E : daily_totals T
              = let* items := map_res dated_amount T in Ok (group_by_date items)).
  { unfold group_by_date.
    change (fun items : list (string * float) =>
              Ok (fold_left
                    (fun totals item =>
                       dict_update totals (fst item) DayTotals.init
                         (DayTotals.add_sale (snd item))) items []))
      with (fun items : list (string * float) =>
              Ok (grouped fst DayTotals.init (fun i => DayTotals.add_sale (snd i)) items [])).
    rewrite <- fold_res_grouped. unfold daily_totals. apply fold_res_ext.
    intros d tx. unfold dated_amount.
    destruct (Date tx); [|reflexivity]. cbn [getitem bind].
    destruct (amount tx); reflexivity. }
  rewrite E in H. destruct (map_res dated_amount T) as [items|e]; [|discriminate].
  inversion H; subst. exists items. split; reflexivity.
Qed.

(** X16: when [find_peak_sales_day] returns a date, it is a date of the
    transactions and comes with the revenue and the number of the
    transactions of that date.  When it returns no date, it returns 0.0 and
    0 with it, and no date of the transactions has a revenue above 0.0. *)
Theorem find_peak_sales_day_result T peak_date revenue count :
  find_peak_sales_day T = Ok (peak_date, revenue, count) ->
  (forall date,
     peak_date = Some date ->
     In (Some date) (List.map Date T)
     /\ calculate_total_revenue (on_date date T) = Ok revenue
     /\ count = len (on_date date T))
  /\ (peak_date = None ->
      revenue = Float.zero /\ count = 0
      /\ forall date r,
           In (Some date) (List.map Date T) ->
           calculate_total_revenue (on_date date T) = Ok r ->
           Float.ltb Float.zero r = false).
Proof.
  intros H. unfold find_peak_sales_day in H. bind_inv H. inversion H as [Hpeak]; clear H.
  destruct (daily_totals_Ok T a Ha) as (items & Hitems & ->).
  pose proof (dates_of_items T items Hitems) as Hdates.
  pose proof (group_by_date_keys items) as [Hnd Hkeys].
  destruct (peak_scan_any (group_by_date items) (None, Float.zero, 0))
    as [[E Hall] | (d & st & Hin & E)]; rewrite E in Hpeak; inversion Hpeak; subst; clear Hpeak.
  - split; [intros date Hd; discriminate|]. intros _. split; [reflexivity|].
    split; [reflexivity|]. intros date r Hd Hr.
    assert (Hk : In date (keys (group_by_date items))).
    { apply Hkeys. rewrite Hdates in Hd. apply List.in_map_iff in Hd.
      destruct Hd as (x & Hx & Hin). inversion Hx; subst. apply List.in_map, Hin. }
    destruct (In_keys _ _ Hk) as [st Hin].
    pose proof (proj1 (List.Forall_forall _ _) Hall _ Hin) as Hlt.
    destruct (group_by_date_entry _ _ _ Hin) as (_ & Hrev & _).
    destruct (on_date_items T items Hitems date) as [Hsum _].
    rewrite Hsum in Hr. inversion Hr; subst r.
    unfold day_revenue in Hlt; cbn [fst snd] in Hlt. rewrite Hrev in Hlt. exact Hlt.
  - split; [|intros Hd; discriminate]. intros date Hd. inversion Hd; subst d; clear Hd.
    destruct (group_by_date_entry _ _ _ Hin) as (_ & Hrev & Hcnt).
    destruct (on_date_items T items Hitems date) as [Hsum Hlen].
    split; [|split].
    + rewrite Hdates. apply (List.in_map fst) in Hin. apply Hkeys in Hin.
      apply List.in_map_iff in Hin. destruct Hin as (x & Hx & Hin). cbn [fst] in Hx.
      subst date. apply (List.in_map (fun item => Some (fst item))), Hin.
    + rewrite Hsum, Hrev. reflexivity.
    + rewrite Hlen. exact Hcnt.
Qed.

Lemma find_peak_sales_day_result_witness :
  find_peak_sales_day [zero_quantity_record] = Ok (None, Float.zero, 0)
  /\ forall date r,
       In (Some date) (List.map Date [zero_quantity_record]) ->
       calculate_total_revenue (on_date date [zero_quantity_record]) = Ok r ->
       Float.ltb Float.zero r = false.
Proof.
  assert (H : find_peak_sales_day [zero_quantity_record] = Ok (None, Float.zero, 0))
    by (vm_compute; reflexivity).
  split; [exact H|].
  apply (proj2 (find_peak_sales_day_result _ _ _ _ H) eq_refl).
Defined.

(** *** The aggregations on what validate_and_filter returns *)

Lemma valid_records_fields T region mn mx V ic s :
  validate_and_filter T region mn mx = Ok (V, ic, s) ->
  Forall (fun tx => all_fields_present tx /\ has_amount tx) V.
Proof.
  intros H. pose proof (valid_records_have_amount _ _ _ _ _ _ _ H) as Hamt.
  apply validate_and_filter_Ok in H. destruct H as (V1 & n1 & n2 & _ & _ & Hrf & Haf & _).
  destruct (region_filter_Ok _ _ _ _ Hrf) as (_ & Hi1 & _).
  destruct (amount_filter_Ok _ _ _ _ _ Haf) as (_ & Hi2 & _).
  apply List.Forall_forall. intros tx Htx.
  split; [|apply (proj1 (List.Forall_forall _ _) Hamt), Htx].
  apply Hi2, Hi1, List.filter_In in Htx. destruct Htx as [_ Hp].
  apply passes_validation_iff in Hp. apply Hp.
Qed.

Lemma items_total {I : Type} (item : transaction -> res I) (V : list transaction) :
  Forall (fun tx => all_fields_present tx /\ has_amount tx) V ->
  (forall tx, all_fields_present tx -> has_amount tx -> exists i, item tx = Ok i) ->
  exists items, map_res item V = Ok items.
Proof.
  intros HV Hitem. apply map_res_total. eapply List.Forall_impl; [|exact HV].
  intros tx [H1 H2]. apply Hitem; assumption.
Qed.

(** X17: on the records [validate_and_filter] returns, the aggregations
    that neither divide nor convert a count return as well: every record
    has its fields and an amount that can be computed. *)
Theorem aggregations_of_valid_records T region mn mx V ic s :
  validate_and_filter T region mn mx = Ok (V, ic, s) ->
  (exists total, calculate_total_revenue V = Ok total)
  /\ (forall n, exists top, top_selling_products V n = Ok top)
  /\ (forall threshold, exists low, low_performing_products V threshold = Ok low)
  /\ (exists trend, daily_sales_trend V = Ok trend)
  /\ (exists peak, find_peak_sales_day V = Ok peak).
Proof.
  intros H. pose proof (valid_records_fields _ _ _ _ _ _ _ H) as HV.
  assert (Hp : exists items, map_res product_item V = Ok items).
  { apply (items_total _ _ HV).
    intros tx (_ & _ & _ & [n Hn] & [q Hq] & _) [a Ha].
    unfold product_item. rewrite Hn, Hq, Ha. eexists; reflexivity. }
  assert (Hd : exists items, map_res daily_item V = Ok items).
  { apply (items_total _ _ HV).
    intros tx (_ & [d Hdate] & _ & _ & _ & _ & [c Hc] & _) [a Ha].
    unfold daily_item. rewrite Hdate, Hc, Ha. eexists; reflexivity. }
  assert (Hda : exists items, map_res dated_amount V = Ok items).
  { apply (items_total _ _ HV).
    intros tx (_ & [d Hdate] & _) [a Ha].
    unfold dated_amount. rewrite Hdate, Ha. eexists; reflexivity. }
  destruct Hp as [pitems Hp]. destruct Hd as [ditems Hd]. destruct Hda as [items Hda].
  split; [|split; [|split; [|split]]].
  - eexists. apply (total_revenue_items dated_amount snd _ _
                      (fun tx i Hi => proj2 (proj1 (dated_amount_Ok tx (fst i) (snd i))
                                               ltac:(destruct i; exact Hi))) Hda).
  - intros n. unfold top_selling_products. rewrite product_aggregate_items, Hp.
    eexists; reflexivity.
  - intros threshold. unfold low_performing_products. rewrite product_aggregate_items, Hp.
    eexists; reflexivity.
  - unfold daily_sales_trend. rewrite daily_aggregate_items, Hd. eexists; reflexivity.
  - unfold find_peak_sales_day. rewrite (daily_totals_items V items Hda).
    eexists; reflexivity.
Qed.

Lemma aggregations_of_valid_records_witness :
  exists V ic s,
    validate_and_filter sample_batch None None None = Ok (V, ic, s)
    /\ (exists total, calculate_total_revenue V = Ok total)
    /\ (exists peak, find_peak_sales_day V = Ok peak).
Proof.
  destruct (validate_and_filter sample_batch None None None) as [[[V ic] s]|e] eqn:H;
    [|vm_compute in H; discriminate].
  exists V, ic, s. split; [reflexivity|].
  destruct (aggregations_of_valid_records _ _ _ _ _ _ _ H) as (H1 & _ & _ & _ & H5).
  split; assumption.
Defined.

(** *** The catalog *)

Lemma create_product_mapping_snoc ps p :
  create_product_mapping (ps ++ [p])
  = <[ CatalogEntry.id p := product_info p ]> (create_product_mapping ps).
Proof. unfold create_product_mapping. rewrite fold_left_app. reflexivity. Qed.

Lemma create_product_mapping_lookup ps k :
  create_product_mapping ps !! k = option_map product_info (last_with_id k ps).
Proof.
  unfold last_with_id. induction ps as [|p ps IH] using rev_ind; [reflexivity|].
  rewrite create_product_mapping_snoc, rev_unit. cbn [List.find].
  destruct (Z.eqb_spec (CatalogEntry.id p) k) as [->|Hne].
  - rewrite lookup_insert_eq. reflexivity.
  - rewrite lookup_insert_ne by exact Hne. exact IH.
Qed.

Lemma last_with_id_Some k ps :
  In k (List.map CatalogEntry.id ps) ->
  exists p, last_with_id k ps = Some p /\ In p ps /\ CatalogEntry.id p = k.
Proof.
  intros Hin. unfold last_with_id.
  destruct (List.find (fun product => CatalogEntry.id product =? k) (rev ps)) as [p|] eqn:Hf.
  - apply List.find_some in Hf. destruct Hf as [Hp Hk]. exists p.
    split; [reflexivity|]. split; [apply List.in_rev, Hp | lia].
  - exfalso. apply List.in_map_iff in Hin. destruct Hin as (p & Hid & Hp).
    pose proof (List.find_none _ _ Hf p (proj1 (List.in_rev _ _) Hp)) as Hno.
    cbv beta in Hno. lia.
Qed.

Lemma last_with_id_None k ps :
  ~ In k (List.map CatalogEntry.id ps) -> last_with_id k ps = None.
Proof.
  intros Hnot. unfold last_with_id.
  destruct (List.find (fun product => CatalogEntry.id product =? k) (rev ps)) as [p|] eqn:Hf;
    [|reflexivity].
  apply List.find_some in Hf. destruct Hf as [Hp Hk]. exfalso. apply Hnot.
  apply List.in_map_iff. exists p. split; [lia | apply List.in_rev, Hp].
Qed.

(** X18: the mapping of [create_product_mapping] holds, for an identifier
    of the catalog, the title, category, brand and rating of the last
    product with that identifier, and nothing for any other identifier. *)
Theorem create_product_mapping_last ps k :
  (In k (List.map CatalogEntry.id ps) ->
   exists p,
     last_with_id k ps = Some p /\ In p ps /\ CatalogEntry.id p = k
     /\ create_product_mapping ps !! k = Some (product_info p))
  /\ (~ In k (List.map CatalogEntry.id ps) -> create_product_mapping ps !! k = None).
Proof.
  rewrite create_product_mapping_lookup. split.
  - intros Hin. destruct (last_with_id_Some k ps Hin) as (p & Hl & Hp & Hk).
    exists p. rewrite Hl. repeat split; assumption.
  - intros Hnot. rewrite (last_with_id_None k ps Hnot). reflexivity.
Qed.

Example create_product_mapping_duplicate_id :
  create_product_mapping
    [{| CatalogEntry.id := 7; CatalogEntry.title := VStr "first";
        CatalogEntry.category := VNone; CatalogEntry.brand := VNone;
        CatalogEntry.price := VNone; CatalogEntry.rating := VNone |};
     {| CatalogEntry.id := 7; CatalogEntry.title := VStr "second";
        CatalogEntry.category := VNone; CatalogEntry.brand := VNone;
        CatalogEntry.price := VNone; CatalogEntry.rating := VNone |}] !! 7
  = Some {| ProductInfo.title := VStr "second"; ProductInfo.category := VNone;
            ProductInfo.brand := VNone; ProductInfo.rating := VNone |}.
Proof. vm_compute. reflexivity. Qed.

(** X19: with the mapping made from a catalog, [enrich_sales_data] marks a
    transaction as matched exactly when its numeric product identifier is
    not 0 and is the identifier of a product of the catalog, and then
    copies the category, brand and rating of the last such product. *)
Theorem enrich_with_catalog ps T e :
  In e (enrich_sales_data T (create_product_mapping ps)) ->
  (API_Match e = true
   <-> exists k, numeric_id (copied e) = Some k /\ k <> 0
                 /\ In k (List.map CatalogEntry.id ps))
  /\ (forall k p,
        numeric_id (copied e) = Some k -> k <> 0 -> last_with_id k ps = Some p ->
        API_Category e = CatalogEntry.category p /\ API_Brand e = CatalogEntry.brand p
        /\ API_Rating e = CatalogEntry.rating p).
Proof.
  rewrite enrich_sales_data_map. intros Hin. apply List.in_map_iff in Hin.
  destruct Hin as (tx & <- & _). rewrite copied_enrich. split.
  - unfold enrich. destruct (numeric_id tx) as [n|];
      [|split; [discriminate | intros (k & Hk & _); discriminate]].
    destruct (Z.eqb_spec n 0) as [->|Hnz]; cbn [negb].
    + split; [discriminate | intros (k & Hk & Hnz & _); congruence].
    + rewrite create_product_mapping_lookup.
      destruct (last_with_id n ps) as [p|] eqn:Hl; cbn [option_map].
      * split; [intros _|reflexivity]. exists n. split; [reflexivity|]. split; [exact Hnz|].
        unfold last_with_id in Hl. apply List.find_some in Hl. destruct Hl as [Hp Hk].
        apply List.in_map_iff. exists p. split; [lia | apply List.in_rev, Hp].
      * split; [discriminate|]. intros (k & Hk & _ & Hin). inversion Hk; subst k.
        destruct (last_with_id_Some n ps Hin) as (p & Hp & _). congruence.
  - intros k p Hk Hnz Hl.
    rewrite (enrich_hit _ tx k (product_info p) Hk Hnz);
      [repeat split|]. rewrite create_product_mapping_lookup, Hl. reflexivity.
Qed.

Lemma enrich_with_catalog_witness :
  API_Match (matched laptop_record acme_info) = true
  <-> exists k, numeric_id (copied (matched laptop_record acme_info)) = Some k /\ k <> 0
                /\ In k (List.map CatalogEntry.id [acme_product 101]).
Proof.
  apply (enrich_with_catalog [acme_product 101] [mouse_record; laptop_record]).
  right; left. vm_compute. reflexivity.
Defined.

(** *** Separators *)

Lemma split_length (sep : ascii) (s : string) :
  length (split sep s) = S (count_char sep s).
Proof.
  induction s as [|a s IH]; cbn [split count_char]; [reflexivity|].
  destruct (Ascii.eqb a sep); cbn [length]; [rewrite IH; reflexivity|].
  destruct (split sep s) as [|f fs]; [discriminate|]. exact IH.
Qed.

Lemma split_fields (sep : ascii) (s : string) :
  Forall (fun field => count_char sep field = 0%nat) (split sep s).
Proof.
  induction s as [|a s IH]; cbn [split]; [repeat constructor|].
  destruct (Ascii.eqb a sep) eqn:Ha; [constructor; [reflexivity | exact IH]|].
  destruct (split sep s) as [|f fs]; [repeat constructor; cbn; rewrite Ha; reflexivity|].
  inversion IH; subst. constructor; [cbn [count_char]; rewrite Ha|]; assumption.
Qed.

(** X20: [parse_transactions] skips every line that does not hold exactly
    seven separators, whatever stands around it; a record it returns comes
    from a line with seven separators, and neither its identifiers nor its
    region contain one. *)
Theorem parse_transactions_separators before line after :
  count_char "|" line <> 7%nat ->
  parse_transactions (before ++ line :: after) = parse_transactions (before ++ after)
  /\ forall tx,
       In tx (parse_transactions (before ++ line :: after)) ->
       exists source,
         In source (before ++ after) /\ count_char "|" source = 7%nat
         /\ parse_line source = Some tx
         /\ Forall (fun field => field_holds field (fun s => count_char "|" s = 0%nat))
                   [TransactionID tx; Date tx; ProductID tx; CustomerID tx; Region tx].
Proof.
  intros Hcount.
  assert (Hskip : parse_transactions (before ++ line :: after)
                  = parse_transactions (before ++ after)).
  { rewrite !parse_transactions_flat_map, !flat_map_app. cbn [flat_map].
    rewrite parse_line_field_count; [reflexivity|]. rewrite split_length. lia. }
  split; [exact Hskip|]. intros tx Htx. rewrite Hskip, parse_transactions_flat_map in Htx.
  apply List.in_flat_map in Htx. destruct Htx as (source & Hsource & Htx).
  destruct (parse_line source) as [tx'|] eqn:Hp; [|destruct Htx]. destruct Htx as [<-|[]].
  exists source. split; [exact Hsource|]. pose proof Hp as Hp'. apply parse_line_Some in Hp.
  destruct Hp as (tid & date & pid & name & qty & price & cid & region & q & p
                  & Hs & _ & _ & ->).
  pose proof (split_length "|" source) as Hl. rewrite Hs in Hl. cbn [length] in Hl.
  split; [lia|]. split; [exact Hp'|].
  pose proof (split_fields "|" source) as Hf. rewrite Hs in Hf.
  repeat match goal with
         | H : Forall _ (_ :: _) |- _ => inversion H; subst; clear H
         end.
  unfold record; cbn [TransactionID Date ProductID CustomerID Region].
  repeat constructor; eexists; (split; [reflexivity | assumption]).
Qed.

Lemma parse_transactions_separators_witness :
  parse_transactions (["T001|2024-12-01|P101|Laptop|2|45000|C001|North"]
                      ++ "T002|2024-12-02|P999|Mouse|1|500|C002|South|extra" :: [])
  = parse_transactions (["T001|2024-12-01|P101|Laptop|2|45000|C001|North"] ++ []).
Proof.
  apply (parse_transactions_separators
           ["T001|2024-12-01|P101|Laptop|2|45000|C001|North"]
           "T002|2024-12-02|P999|Mouse|1|500|C002|South|extra" []).
  vm_compute. discriminate.
Defined.

(** ** The lines parse_transactions drops *)

Lemma parse_line_None line : parse_line line = None <-> not_a_row line.
Proof.
  unfold not_a_row, parse_line.
  destruct (split "|" line) as [|tid [|date [|pid [|name [|qty [|price [|cid [|region
    [|extra rest]]]]]]]]]; cbn [length nth];
    try (split; [intros _; left; discriminate | reflexivity]).
  destruct (py_int (remove_char "," qty)) as [q|].
  - destruct (py_float (remove_char "," price)) as [p|].
    + split; [discriminate|]. intros [H|[H|H]]; [contradiction H; reflexivity| |];
        discriminate.
    + split; [intros _; right; right; reflexivity | reflexivity].
  - split; [intros _; right; left; reflexivity | reflexivity].
Qed.

Lemma parse_transactions_one line : parse_transactions [line] = kept (parse_line line).
Proof. rewrite parse_transactions_flat_map. cbn [flat_map]. apply app_nil_r. Qed.

Lemma parse_transactions_skip before line after :
  parse_line line = None ->
  parse_transactions (before ++ line :: after) = parse_transactions (before ++ after).
Proof.
  intros H. rewrite !parse_transactions_flat_map, !flat_map_app. cbn [flat_map].
  rewrite H. reflexivity.
Qed.

(** C6, as amended: [parse_transactions] has no record for a line that does
    not split into eight fields or whose quantity or unit price is not a
    number once the commas are removed, wherever the line stands, and for no
    other line; blank lines and the header line of the file are among these.
    A line gives at most one record, and the records come in the order of
    their lines.  The lines that begin with "TransactionID" are skipped by
    [read_sales_data], whose result is what [parse_transactions] is given:
    none of its lines begins with the token, and no record parsed from them
    has an identifier that begins with it. *)
Theorem parse_transactions_drops before line after lines readlines :
  ((forall a, In a (list_ascii_of_string line) -> is_space a = true) -> not_a_row line)
  /\ (not_a_row line <-> parse_transactions [line] = [])
  /\ (not_a_row line ->
      parse_transactions (before ++ line :: after) = parse_transactions (before ++ after))
  /\ not_a_row header_line
  /\ (length (parse_transactions [line]) <= 1)%nat
  /\ parse_transactions lines = flat_map (fun l => parse_transactions [l]) lines
  /\ Forall (fun l => startswith l "TransactionID" = false) (read_sales_data readlines)
  /\ (forall tx,
        In tx (parse_transactions (read_sales_data readlines)) ->
        field_holds (TransactionID tx) (fun tid => startswith tid "TransactionID" = false)).
Proof.
  split; [|split; [|split; [|split; [|split; [|split; [|split]]]]]].
  - intros Hblank. apply parse_line_None, parse_line_blank, Hblank.
  - rewrite <- parse_line_None, parse_transactions_one.
    destruct (parse_line line); cbn [kept]; split; congruence.
  - intros H. apply parse_transactions_skip, parse_line_None, H.
  - right; left. vm_compute. reflexivity.
  - rewrite parse_transactions_one. destruct (parse_line line); cbn [kept length]; lia.
  - rewrite parse_transactions_flat_map. apply List.flat_map_ext.
    intros l. symmetry. apply parse_transactions_one.
  - eapply List.Forall_impl; [|apply (read_attempts_clean (List.map readlines encodings))].
    intros l (_ & _ & H). exact H.
  - intros tx Htx. rewrite parse_transactions_flat_map in Htx.
    apply List.in_flat_map in Htx. destruct Htx as (l & Hl & Htx).
    destruct (parse_line l) as [tx'|] eqn:Hp; [|destruct Htx]. destruct Htx as [<-|[]].
    apply parse_line_Some in Hp.
    destruct Hp as (tid & date & pid & name & qty & price & cid & region & q & p
                    & Hs & _ & _ & ->).
    exists tid. split; [reflexivity|].
    pose proof (read_attempts_clean (List.map readlines encodings)) as Hclean.
    apply (proj1 (List.Forall_forall _ _) Hclean) in Hl. destruct Hl as (_ & _ & Hh).
    destruct (startswith tid "TransactionID") eqn:Ht; [|reflexivity].
    destruct (split_head "|" l) as (f & fs & Hs' & Hpre).
    rewrite Hs in Hs'. inversion Hs'; subst f.
    unfold startswith in *. rewrite (prefix_trans _ _ _ Ht Hpre) in Hh. discriminate.
Qed.

Lemma parse_transactions_drops_witness :
  parse_transactions
    (["T001|2024-12-01|P101|Laptop|2|45000|C001|North"]
     ++ "T002|2024-12-02|P999|Mouse|one|500|C002|South"
     :: ["T003|2024-12-02|P102|Keyboard|5|17000|C001|North"])
  = parse_transactions
      (["T001|2024-12-01|P101|Laptop|2|45000|C001|North"]
       ++ ["T003|2024-12-02|P102|Keyboard|5|17000|C001|North"]).
Proof.
  apply (parse_transactions_drops
           ["T001|2024-12-01|P101|Laptop|2|45000|C001|North"]
           "T002|2024-12-02|P999|Mouse|one|500|C002|South"
           ["T003|2024-12-02|P102|Keyboard|5|17000|C001|North"] [] sample_file).
  right; left. vm_compute. reflexivity.
Defined.

(** ** region_wise_sales on the records of validate_and_filter *)

Lemma add_nan_r (x : float) : Float.add x Float.nan = Float.nan.
Proof. destruct x as [[]|[]| |[] m e]; reflexivity. Qed.

Lemma add_nan_l (y : float) : Float.add Float.nan y = Float.nan.
Proof. reflexivity. Qed.

Lemma mul_nan_r (x : float) : Float.mul x Float.nan = Float.nan.
Proof. destruct x as [[]|[]| |[] m e]; reflexivity. Qed.

Lemma add_positive_or_nan (x y : float) :
  positive_or_nan x -> positive_or_nan y -> positive_or_nan (Float.add x y).
Proof.
  intros [Hx | ->] [Hy | ->].
  - left. apply add_positive; assumption.
  - right. apply add_nan_r.
  - right. apply add_nan_l.
  - right. reflexivity.
Qed.

Lemma sum_floats_positive_or_nan (l : list float) :
  l <> [] -> Forall positive_or_nan l -> positive_or_nan (sum_floats l).
Proof.
  destruct l as [|a l]; [congruence|]. intros _ H. inversion H as [|? ? Ha Hl]; subst.
  unfold sum_floats. cbn [fold_left].
  assert (Hfirst : positive_or_nan (Float.add Float.zero a)).
  { destruct Ha as [Ha | ->]; [left; rewrite add_zero_positive; assumption|].
    right. reflexivity. }
  clear H Ha. revert Hfirst. generalize (Float.add Float.zero a).
  induction Hl as [|b l Hb _ IH]; intros acc Hacc; cbn [fold_left]; [exact Hacc|].
  apply IH, add_positive_or_nan; assumption.
Qed.

Lemma positive_or_nan_not_zero (x : float) :
  positive_or_nan x -> Float.eqb x Float.zero = false.
Proof. intros [H | ->]; [apply positive_not_zero, H | reflexivity]. Qed.

(** A well-formed price that is not [<= 0] is above zero or NaN. *)
Lemma price_not_leb_zero (p : float) :
  Float.wf p = true -> Float.leb p Float.zero = false ->
  p = Float.nan \/ Float.ltb Float.zero p = true.
Proof.
  destruct p as [[]|[]| |[] m e]; cbn; intros Hwf H; try discriminate;
    first [left; reflexivity | right; reflexivity].
Qed.

Lemma enforced_amount tx :
  enforced_rules tx -> price_well_formed tx -> has_amount tx ->
  exists a,
    amount tx = Ok a /\ positive_or_nan a
    /\ (UnitPrice tx <> Some Float.nan -> positive_float a).
Proof.
  intros (_ & (q & Hq & Hq0) & (p & Hp & Hp0) & _) (p' & Hp' & Hwf) [a Ha].
  rewrite Hp in Hp'. inversion Hp'; subst p'; clear Hp'.
  exists a. split; [exact Ha|].
  unfold amount in Ha. rewrite Hq, Hp in Ha. cbn [getitem bind] in Ha.
  unfold int_mul_float in Ha. bind_inv Ha. inversion Ha; subst; clear Ha.
  destruct (of_int_positive q a0 Hq0 Ha0) as (m & e & -> & _ & Hmag).
  destruct (price_not_leb_zero p Hwf Hp0) as [-> | Hpos].
  - split; [right; apply mul_nan_r|]. intros H. exfalso. apply H, Hp.
  - assert (Ha : positive_float (Float.mul (S754_finite false m e) p))
      by (apply mul_positive; [eauto | apply wf_positive; assumption]).
    split; [left; exact Ha | intros _; exact Ha].
Qed.

Lemma valid_records_enforced T region mn mx V ic s :
  validate_and_filter T region mn mx = Ok (V, ic, s) -> Forall enforced_rules V.
Proof.
  intros H. apply validate_and_filter_Ok in H.
  destruct H as (V1 & n1 & n2 & _ & _ & Hrf & Haf & _).
  destruct (region_filter_Ok _ _ _ _ Hrf) as (_ & Hi1 & _).
  destruct (amount_filter_Ok _ _ _ _ _ Haf) as (_ & Hi2 & _).
  apply List.Forall_forall. intros tx Htx.
  apply Hi2, Hi1, List.filter_In in Htx. apply passes_validation_iff, Htx.
Qed.

Lemma enforced_region_items T :
  Forall enforced_rules T -> Forall price_well_formed T -> Forall has_amount T ->
  exists items,
    map_res region_item T = Ok items
    /\ Forall (fun i => positive_or_nan (snd i)) items
    /\ (Forall (fun tx => UnitPrice tx <> Some Float.nan) T ->
        Forall (fun i => positive_float (snd i)) items).
Proof.
  intros H1 H2 H3.
  induction T as [|tx T IH].
  - exists []. split; [reflexivity|]. split; [constructor | intros _; constructor].
  - inversion H1 as [|? ? Hr1 Hr1']; inversion H2 as [|? ? Hr2 Hr2'];
      inversion H3 as [|? ? Hr3 Hr3']; subst.
    destruct (IH Hr1' Hr2' Hr3') as (items & Hitems & Hpn & Hpos).
    destruct (enforced_amount tx Hr1 Hr2 Hr3) as (a & Ha & Hapn & Hapos).
    destruct Hr1 as ((_ & _ & _ & _ & _ & _ & _ & [r Hr]) & _).
    exists ((r, a) :: items). split; [|split].
    + cbn [map_res]. rewrite Hitems. unfold region_item. rewrite Hr, Ha. reflexivity.
    + constructor; assumption.
    + intros Hn. inversion Hn; subst. constructor; [apply Hapos; assumption | auto].
Qed.

(** C4, as amended: on the records that [validate_and_filter] returns,
    with unit prices that are floats as Python holds them,
    [region_wise_sales] returns and does not fail with a division by zero:
    the grand total, which is the one of [calculate_total_revenue], is zero
    only for the empty collection, and there the result is empty.  The
    result has one entry for each region of the records; its [total_sales]
    is the revenue of the records of the region, and its percentage is
    [total_sales] divided by the grand total, times 100 and rounded to two
    decimals.  When no unit price is NaN, no entry has greater
    [total_sales] than an earlier one. *)
Theorem region_wise_sales_of_valid_records T0 region mn mx T ic s :
  validate_and_filter T0 region mn mx = Ok (T, ic, s) ->
  Forall price_well_formed T ->
  exists total regions,
    calculate_total_revenue T = Ok total
    /\ region_wise_sales T = Ok regions
    /\ (T = [] -> total = Float.zero /\ regions = [])
    /\ (T <> [] -> Float.eqb total Float.zero = false)
    /\ List.NoDup (keys regions)
    /\ (forall r, In r (keys regions) <-> In (Some r) (List.map Region T))
    /\ (forall r st,
          In (r, st) regions ->
          calculate_total_revenue (with_field Region r T) = Ok (RegionStats.total_sales st)
          /\ exists share,
               Float.div (RegionStats.total_sales st) total = Ok share
               /\ RegionStats.percentage st = Some (round2 (Float.mul share hundred)))
    /\ (Forall (fun tx => UnitPrice tx <> Some Float.nan) T ->
        StronglySorted
          (fun a b => Float.ltb (RegionStats.total_sales (snd a))
                                (RegionStats.total_sales (snd b)) = false)
          regions).
Proof.
  intros Hv Hwf.
  pose proof (valid_records_enforced _ _ _ _ _ _ _ Hv) as Hrules.
  pose proof (valid_records_have_amount _ _ _ _ _ _ _ Hv) as Hamt.
  destruct (enforced_region_items T Hrules Hwf Hamt) as (items & Hitems & Hpn & Hpos).
  set (total := sum_floats (List.map snd items)).
  set (upd := fun i : string * float => RegionStats.add_sale (snd i)).
  set (rd := grouped fst RegionStats.init upd items []).
  destruct (grouped_keys fst RegionStats.init upd items) as [Hnd Hk]. fold rd in Hnd, Hk.
  assert (Hzero : Float.eqb total Float.zero = true -> rd = []).
  { intros Hz. destruct items as [|i items']; [reflexivity|].
    assert (Ht : positive_or_nan total).
    { apply sum_floats_positive_or_nan; [discriminate | apply List.Forall_map, Hpn]. }
    rewrite (positive_or_nan_not_zero total Ht) in Hz. discriminate. }
  destruct (map_res_total
              (fun entry : string * RegionStats.t =>
                 let '(region, s) := entry in
                 let* share := Float.div (RegionStats.total_sales s) total in
                 let percentage := Float.mul share hundred in
                 Ok (region, RegionStats.set_percentage (round2 percentage) s)) rd)
    as [rd' Hrd'].
  { apply List.Forall_forall. intros [r st] Hin. unfold Float.div.
    destruct (Float.eqb total Float.zero) eqn:Hz;
      [rewrite (Hzero eq_refl) in Hin; destruct Hin|].
    cbn [bind]. eexists; reflexivity. }
  change (region_second_pass rd total = Ok rd') in Hrd'.
  pose proof (region_second_pass_Ok rd total rd' Hrd') as HF.
  set (regions := sorted_by_reverse Float.ltb
                    (fun item => RegionStats.total_sales (snd item)) rd').
  assert (Hperm : Permutation regions rd') by apply stable_sort_permutation.
  assert (Hkeys : keys rd = keys rd').
  { apply (Forall2_map_eq (with_percentage total)); [|exact HF]. intros x y [Hxy _].
    congruence. }
  exists total, regions.
  split; [|split; [|split; [|split; [|split; [|split; [|split]]]]]].
  - apply (total_revenue_items region_item snd _ _
             (fun tx i H => proj2 (region_item_fields tx i H)) Hitems).
  - unfold region_wise_sales. rewrite region_first_pass_items, Hitems. cbn [bind].
    fold upd rd total. rewrite Hrd'. reflexivity.
  - intros ->. cbn in Hitems. inversion Hitems; subst items.
    split; [reflexivity|]. subst regions. cbn in Hrd'. inversion Hrd'; subst rd'.
    reflexivity.
  - intros Hne. apply positive_or_nan_not_zero, sum_floats_positive_or_nan;
      [|apply List.Forall_map, Hpn].
    intros E. apply List.map_eq_nil in E. subst items. destruct T; [congruence|].
    cbn in Hitems. bind_inv Hitems. bind_inv Hitems. discriminate.
  - eapply Permutation_NoDup; [symmetry; apply Permutation_map, Hperm|].
    fold (keys rd'). rewrite <- Hkeys. exact Hnd.
  - intros r.
    rewrite <- (fields_of_items region_item Region fst
                  (fun tx i H => proj1 (region_item_fields tx i H)) T items Hitems).
    rewrite <- Hk, Hkeys. split; apply Permutation_in; [|symmetry];
      apply Permutation_map, Hperm.
  - intros r st Hin. apply (Permutation_in _ Hperm) in Hin.
    destruct (Forall2_In_r _ _ _ _ HF Hin) as ([r0 s0] & Hin0 & Hfst & share & Hdiv & Hsnd).
    cbn [fst snd] in *. subst r0 st.
    destruct (region_entry T items r s0 Hitems Hin0) as (_ & _ & H1 & _).
    cbn [RegionStats.set_percentage RegionStats.total_sales RegionStats.percentage].
    split; [exact H1|]. exists share. split; [exact Hdiv | reflexivity].
  - intros Hnan. specialize (Hpos Hnan). apply floats_sorted_descending.
    assert (Hrd : Forall (fun e => positive_float (RegionStats.total_sales (snd e))) rd).
    { apply List.Forall_forall. intros [r st] Hin. cbn [snd].
      destruct (region_entry T items r st Hitems Hin) as (Hn & Hs & _). rewrite Hs.
      apply positive_sum_of_key; assumption. }
    clear -HF Hrd. induction HF as [|x y rd rd' (_ & share & _ & Hy) _ IH];
      [constructor|].
    inversion Hrd as [|? ? Hx Hrd0]; subst. constructor; [|apply IH, Hrd0].
    rewrite Hy. exact Hx.
Qed.

Lemma region_wise_sales_of_valid_records_witness :
  exists total regions,
    calculate_total_revenue
      [laptop_record; mouse_record; keyboard_record; nan_price_record; blank_region_record]
    = Ok total
    /\ region_wise_sales
         [laptop_record; mouse_record; keyboard_record; nan_price_record;
          blank_region_record]
       = Ok regions
    /\ Float.eqb total Float.zero = false.
Proof.
  destruct (region_wise_sales_of_valid_records sample_batch None None None
              [laptop_record; mouse_record; keyboard_record; nan_price_record;
               blank_region_record]
              1 {| total_input := 6; invalid := 1; filtered_by_region := 0;
                   filtered_by_amount := 0; final_count := 5 |})
    as (total & regions & H1 & H2 & _ & H4 & _).
  - vm_compute. reflexivity.
  - each_record ltac:(eexists; split; [reflexivity | vm_compute; reflexivity]).
  - exists total, regions. split; [exact H1|]. split; [exact H2|]. apply H4. discriminate.
Defined.
